(** * RPL Client Portal: the chat relay of [server/index.js]

    A shallow embedding of the Express/Socket.IO server: the relational
    store behind [database.js] (tables [clients], [agents], [messages] with
    their [ON DELETE CASCADE] foreign keys), the chat handler
    [app.post('/api/chat/:agentId')] with its two webhook continuations,
    the history and delete routes, and the Socket.IO room registry; then
    the two access-control middlewares, the agent and client management
    routes, the seeding of the default administrator, and the state
    updates of the chat page and of the dashboard ([Chat.tsx],
    [Dashboard.tsx]).

    Conventions.
    - JavaScript values are [jsval]; numbers are the safe integers.
    - A route parameter ([:agentId], [:id]) reaches a statement as the raw
      URL segment.  It is kept as what PostgreSQL makes of it when the
      statement compares it to an [INTEGER] column: an integer literal of
      some value, or no integer at all.
    - A table is the list of its rows in insertion order.  A statement
      first binds its parameters and then runs; it raises ([None]) when a
      parameter is not accepted (an integer outside 32 bits, a text with
      the character U+0000 in it, a name that does not fit
      [VARCHAR(255)]) or when a constraint is violated.  The pool itself
      never fails here.
    - Side effects visible from outside (statements on [messages], the
      outbound webhook call, room broadcasts) are also appended to a trace
      by the operation that performs them. *)

From stdpp Require Import base option list gmap strings pretty sorting.

Open Scope Z_scope.

(** ** JavaScript values *)

Module Js.

(** A value as [JSON.parse] or a token payload yields it.  An object is the
    list of its own properties (one entry per key); a number is an integer
    of magnitude below 2^53. *)

#[warnings="-register-all"] Inductive jsval : Type :=
| JUndefined
| JNull
| JBool (b : bool)
| JNum (n : Z)
| JStr (s : string)
| JArr (items : list jsval)
| JObj (fields : list (string * jsval)).

(** ToBoolean, as used by [!x], [if (x)] and [x || y]. *)
Definition truthy (v : jsval) : bool :=
  match v with
  | JUndefined | JNull => false
  | JBool b => b
  | JNum n => negb (n =? 0)
  | JStr s => negb (String.eqb s "")
  | JArr _ | JObj _ => true
  end.

(** [a || b]: the left operand when it is truthy, else the right one. *)
Definition js_or (a b : jsval) : jsval := if truthy a then a else b.

Fixpoint assoc (k : string) (fields : list (string * jsval)) : jsval :=
  match fields with
  | [] => JUndefined
  | (k', v) :: rest => if String.eqb k k' then v else assoc k rest
  end.

(** [v.k] for a key [k] that no prototype defines ([response], [message],
    ...): a TypeError ([None]) on [null] and [undefined], the own property
    of an object, [undefined] on anything else. *)
Definition get_prop (v : jsval) (k : string) : option jsval :=
  match v with
  | JUndefined | JNull => None
  | JObj fields => Some (assoc k fields)
  | _ => Some JUndefined
  end.

Definition join_with (sep : string) (parts : list string) : string :=
  match parts with
  | [] => ""
  | p :: ps => fold_left (fun acc q => acc +:+ sep +:+ q) ps p
  end.

(** ToString, as performed by a template literal [`${v}`]. *)
Fixpoint to_js_string (v : jsval) : string :=
  match v with
  | JUndefined => "undefined"
  | JNull => "null"
  | JBool true => "true"
  | JBool false => "false"
  | JNum n => pretty n
  | JStr s => s
  | JArr items =>
      join_with ","
        (map (fun x => match x with
                       | JUndefined | JNull => ""
                       | _ => to_js_string x
                       end) items)
  | JObj _ => "[object Object]"
  end.

End Js.
Export Js.

(** ** Statement parameters ([pg], PostgreSQL) *)

Module Pg.

(** Does the text contain the character U+0000. *)
Fixpoint has_nul (s : string) : bool :=
  match s with
  | EmptyString => false
  | String c rest => Ascii.eqb c Ascii.zero || has_nul rest
  end.

(** The text of a [TEXT] column as the driver wrote it: a string goes as
    it is; any other value goes as the text the driver makes of it (the
    digits of a number, [true] or [false], the JSON of an object, the
    array literal of an array), which is kept here by the value it was
    made from. *)
Inductive stored_text : Type :=
| Text (s : string)
| Rendered (v : jsval).

Definition pg_text (v : jsval) : stored_text :=
  match v with
  | JStr s => Text s
  | _ => Rendered v
  end.

(** Does the text the driver makes of [v] contain U+0000.  A string is
    sent as it is, and so are the strings of an array; the JSON of an
    object escapes the character, numbers and booleans have none. *)
Fixpoint sends_nul (v : jsval) : bool :=
  match v with
  | JStr s => has_nul s
  | JArr items => existsb sends_nul items
  | _ => false
  end.

(** Binding a value to a [TEXT] parameter: [null] and [undefined] are sent
    as [NULL] ([Some None]); a text that contains U+0000 is refused by the
    server and the statement raises ([None]). *)
Definition pg_param (v : jsval) : option (option stored_text) :=
  match v with
  | JUndefined | JNull => Some None
  | _ => if sends_nul v then None else Some (Some (pg_text v))
  end.

(** The same for a body field that is a string or missing. *)
Definition text_param (field : option string) : option (option string) :=
  match field with
  | None => Some None
  | Some s => if has_nul s then None else Some (Some s)
  end.

(** [INTEGER] is 32 bits wide. *)
Definition in_int4 (z : Z) : bool :=
  (-2147483648 <=? z) && (z <=? 2147483647).

(** Binding a number to an [INTEGER] parameter. *)
Definition bind_int (z : Z) : option Z :=
  if in_int4 z then Some z else None.

(** A URL segment used as an [INTEGER] parameter, as the server's integer
    input reads it. *)
Inductive route_param : Type :=
| AsInteger (z : Z)
| NotInteger.

Definition pg_int4 (p : route_param) : option Z :=
  match p with
  | AsInteger z => bind_int z
  | NotInteger => None
  end.

(** The first byte of a character in UTF-8 is any byte but a continuation
    byte [10xxxxxx]. *)
Definition is_continuation (c : Ascii.ascii) : bool :=
  match c with
  | Ascii.Ascii _ _ _ _ _ _ b6 b7 => b7 && negb b6
  end.

(** The first [n] characters of a text, and what follows them. *)
Fixpoint split_chars (n : nat) (s : string) : string * string :=
  match s with
  | EmptyString => (EmptyString, EmptyString)
  | String c rest =>
      if is_continuation c then
        let (h, t) := split_chars n rest in (String c h, t)
      else
        match n with
        | O => (EmptyString, s)
        | S n' => let (h, t) := split_chars n' rest in (String c h, t)
        end
  end.

Definition space : Ascii.ascii :=
  Ascii.Ascii false false false false false true false false.

Fixpoint all_spaces (s : string) : bool :=
  match s with
  | EmptyString => true
  | String c rest => Ascii.eqb c space && all_spaces rest
  end.

(** Assigning a text to a [VARCHAR(n)] column: a text of more than [n]
    characters raises, unless all that exceeds is spaces, which are then
    cut off. *)
Definition varchar (n : nat) (s : string) : option string :=
  let (h, t) := split_chars n s in
  if all_spaces t then Some h else None.

(** The same for a parameter that may be [NULL]. *)
Definition varchar_param (n : nat) (p : option string) : option (option string) :=
  match p with
  | None => Some None
  | Some s => Some <$> varchar n s
  end.

End Pg.
Export Pg.

(** ** The relational store ([database.js]) *)

Module Db.

(** [clients]: the columns the routes below read. *)
Record client_row := ClientRow {
  c_id : Z;
  c_username : string;
  c_email : string;
  c_company_name : option string;
  c_webhook_url : option string
}.

(** [agents]; [description TEXT], [webhook_url TEXT] and
    [is_active BOOLEAN DEFAULT true] are nullable. *)
Record agent_row := AgentRow {
  a_id : Z;
  a_client_id : Z;
  a_name : string;
  a_description : option string;
  a_webhook_url : option string;
  a_is_active : option bool
}.

(** [messages]; [response TEXT] is [NULL] ([None]) until it is set. *)
Record message_row := MessageRow {
  m_id : Z;
  m_client_id : Z;
  m_agent_id : Z;
  m_message : stored_text;
  m_response : option stored_text;
  m_timestamp : Z
}.

Record db := Store {
  clients : list client_row;
  agents : list agent_row;
  messages : list message_row;
  messages_id_seq : Z
}.

Definition set_response (text : option stored_text) (r : message_row)
    : message_row :=
  MessageRow (m_id r) (m_client_id r) (m_agent_id r) (m_message r)
             text (m_timestamp r).

(** [getRow]: [res.rows[0]]. *)
Definition getRow {A} (rows : list A) : option A := head rows.

Definition agent_rows (d : db) (id clientId : Z) : list agent_row :=
  filter (fun a => a_id a = id ∧ a_client_id a = clientId) (agents d).

(** [SELECT * FROM agents WHERE id = $1 AND client_id = $2] *)
Definition select_agent (d : db) (agentId : route_param) (clientId : Z)
    : option (list agent_row) :=
  id ← pg_int4 agentId;
  c ← bind_int clientId;
  Some (agent_rows d id c).

Definition client_rows (d : db) (id : Z) : list client_row :=
  filter (fun c => c_id c = id) (clients d).

(** [SELECT id, ... FROM clients WHERE id = $1] *)
Definition select_client (d : db) (id : route_param)
    : option (list client_row) :=
  key ← pg_int4 id;
  Some (client_rows d key).

Definition has_client (d : db) (id : Z) : bool :=
  bool_decide (Exists (fun c => c_id c = id) (clients d)).

Definition has_agent (d : db) (id : Z) : bool :=
  bool_decide (Exists (fun a => a_id a = id) (agents d)).

(** [nextval]: the sequence moves on, also when the statement that called
    it fails afterwards. *)
Definition advance_seq (d : db) : db :=
  Store (clients d) (agents d) (messages d) (messages_id_seq d + 1).

(** [INSERT INTO messages (client_id, agent_id, message) VALUES ($1, $2, $3)
    RETURNING id].  The parameters are bound first (two integers and a
    text).  Then the id is taken from the serial sequence, which is 32
    bits wide too, [response] is left [NULL] and [timestamp] defaults to
    the current time.  [message] is [NOT NULL] and the two foreign keys
    are checked.  The result is the store afterwards and the returned id,
    or [None] where the statement raised. *)
Definition insert_message (d : db) (clientId : Z) (agentId : route_param)
    (message : jsval) (now : Z) : db * option Z :=
  match bind_int clientId, pg_int4 agentId, pg_param message with
  | Some c, Some a, Some text =>
      let id := messages_id_seq d in
      if negb (in_int4 id) then (d, None)
      else
        match text with
        | None => (advance_seq d, None)
        | Some t =>
            if has_client d c && has_agent d a then
              (Store (clients d) (agents d)
                     (messages d ++ [MessageRow id c a t None now])
                     (id + 1),
               Some id)
            else (advance_seq d, None)
        end
  | _, _, _ => (d, None)
  end.

Definition write_response (d : db) (text : option stored_text) (messageId : Z)
    : db :=
  Store (clients d) (agents d)
        (map (fun r => if bool_decide (m_id r = messageId)
                       then set_response text r else r) (messages d))
        (messages_id_seq d).

(** [UPDATE messages SET response = $1 WHERE id = $2]; [messageId] is an
    id that [INSERT ... RETURNING id] gave back. *)
Definition update_response (d : db) (text : jsval) (messageId : Z)
    : option db :=
  t ← pg_param text;
  Some (write_response d t messageId).

Definition by_timestamp (r1 r2 : message_row) : Prop :=
  m_timestamp r1 ≤ m_timestamp r2.

#[global] Instance by_timestamp_dec : RelDecision by_timestamp.
Proof. intros r1 r2. unfold by_timestamp. apply _. Defined.

Definition history_rows (d : db) (clientId agentId : Z) : list message_row :=
  merge_sort by_timestamp
    (filter (fun r => m_client_id r = clientId ∧ m_agent_id r = agentId)
            (messages d)).

(** [SELECT * FROM messages WHERE client_id = $1 AND agent_id = $2
    ORDER BY timestamp ASC] *)
Definition select_history (d : db) (clientId : Z) (agentId : route_param)
    : option (list message_row) :=
  c ← bind_int clientId;
  a ← pg_int4 agentId;
  Some (history_rows d c a).

(** The foreign keys [agents.client_id], [messages.client_id] and
    [messages.agent_id] are all [ON DELETE CASCADE]: with a client its
    agents go, and with them every message that references the client or
    one of those agents. *)
Definition deleted_clients (d : db) (id : Z) : list client_row :=
  filter (fun c => c_id c = id) (clients d).

Definition cascaded_agents (d : db) (id : Z) : list agent_row :=
  filter (fun a => a_client_id a ∈ map c_id (deleted_clients d id)) (agents d).

Definition cascade_client (d : db) (id : Z) : db * list Z :=
  (Store (filter (fun c => c_id c ≠ id) (clients d))
         (filter (fun a => (a_client_id a ∉ map c_id (deleted_clients d id)))
                 (agents d))
         (filter (fun r => (m_client_id r ∉ map c_id (deleted_clients d id))
                           ∧ (m_agent_id r ∉ map a_id (cascaded_agents d id)))
                 (messages d))
         (messages_id_seq d),
   map c_id (deleted_clients d id)).

(** [DELETE FROM clients WHERE id = $1 RETURNING id] *)
Definition delete_client (d : db) (id : route_param) : option (db * list Z) :=
  key ← pg_int4 id;
  Some (cascade_client d key).

Definition deleted_agents (d : db) (id clientId : Z) : list agent_row :=
  filter (fun a => a_id a = id ∧ a_client_id a = clientId) (agents d).

Definition cascade_agent (d : db) (id clientId : Z) : db * list Z :=
  (Store (clients d)
         (filter (fun a => ¬ (a_id a = id ∧ a_client_id a = clientId)) (agents d))
         (filter (fun r => (m_agent_id r ∉ map a_id (deleted_agents d id clientId)))
                 (messages d))
         (messages_id_seq d),
   map a_id (deleted_agents d id clientId)).

(** [DELETE FROM agents WHERE id = $1 AND client_id = $2 RETURNING id],
    cascading to [messages.agent_id]. *)
Definition delete_agent (d : db) (id : route_param) (clientId : Z)
    : option (db * list Z) :=
  key ← pg_int4 id;
  c ← bind_int clientId;
  Some (cascade_agent d key c).

End Db.
Export Db.

(** ** The server: store, Socket.IO rooms, and the observable trace *)

Module Server.

(** The payload of an [agent_response] event; [agentId] is the route
    parameter as it came. *)
Record agent_response := AgentResponse {
  ev_messageId : Z;
  ev_agentId : route_param;
  ev_response : jsval
}.

(** The body posted to the webhook. *)
Record webhook_payload := WebhookPayload {
  wp_message : jsval;
  wp_client_id : Z;
  wp_agent_id : route_param;
  wp_message_id : Z;
  wp_timestamp : string
}.

(** Effects in the order the process performs them; a statement that
    raises performs none. *)
Inductive effect : Type :=
| EInsertMessage (messageId : Z)
| EWebhookPost (url : string) (body : webhook_payload) (timeout_ms : Z)
| EUpdateResponse (messageId : Z) (text : jsval)
| EEmit (room : string) (ev : agent_response).

Record server := ServerState {
  store : db;
  rooms : gmap string (gset nat);
  sent : list (nat * agent_response);
  trace : list effect
}.

Definition with_store (d : db) (s : server) : server :=
  ServerState d (rooms s) (sent s) (trace s).

Definition log (e : effect) (s : server) : server :=
  ServerState (store s) (rooms s) (sent s) (trace s ++ [e]).

(** The sockets currently in a room. *)
Definition members (s : server) (room : string) : gset nat :=
  default ∅ (rooms s !! room).

(** [`client_${clientId}`] *)
Definition client_room (clientId : jsval) : string :=
  "client_" +:+ to_js_string clientId.

(** [socket.join(room)] *)
Definition socket_join (s : server) (sock : nat) (room : string) : server :=
  ServerState (store s) (<[room := {[sock]} ∪ members s room]> (rooms s))
              (sent s) (trace s).

(** [socket.on('join_client_room', (clientId) => socket.join(...))] *)
Definition join_client_room (s : server) (sock : nat) (clientId : jsval) : server :=
  socket_join s sock (client_room clientId).

(** A closed connection leaves every room (Socket.IO does this itself; the
    [disconnect] handler only logs). *)
Definition disconnect (s : server) (sock : nat) : server :=
  ServerState (store s) ((fun m => m ∖ {[sock]}) <$> rooms s) (sent s) (trace s).

(** [io.to(room).emit('agent_response', ev)]: one packet to every socket in
    the room at this moment; nothing is kept for later joiners. *)
Definition io_emit (s : server) (room : string) (ev : agent_response) : server :=
  ServerState (store s) (rooms s)
              (sent s ++ map (fun k => (k, ev)) (elements (members s room)))
              (trace s ++ [EEmit room ev]).

(** [await query("UPDATE messages SET response = $1 WHERE id = $2", ...)];
    [None] when the statement raises. *)
Definition query_update_response (s : server) (text : jsval) (messageId : Z)
    : option server :=
  d ← update_response (store s) text messageId;
  Some (log (EUpdateResponse messageId text) (with_store d s)).

End Server.
Export Server.

(** ** The promise of the outbound call ([axios.post]) *)

Module Axios.

(** Why the library rejects the promise. *)
Inductive axios_error : Type :=
| ETimeout
| ENetwork
| EBadStatus (status : Z).

(** How the promise returned by [axios.post] settles: fulfilled with the
    body of the reply ([response.data]), or rejected.  Which exchange on
    the wire leads to which settlement is the library's business. *)
Inductive settlement : Type :=
| Fulfilled (data : jsval)
| Rejected (err : axios_error).

End Axios.
Export Axios.

(** ** Route handlers ([server/index.js]) *)

Module Routes.

Record http_response := HttpResponse {
  status : Z;
  body : jsval
}.

(** [res.status(code).json({ error })] *)
Definition json_error (code : Z) (msg : string) : http_response :=
  HttpResponse code (JObj [("error", JStr msg)]).

(** [res.json({ message })] *)
Definition ok_message (msg : string) : http_response :=
  HttpResponse 200 (JObj [("message", JStr msg)]).

(** [res.json({ messageId, message: 'Message sent successfully' })] *)
Definition message_sent (messageId : Z) : http_response :=
  HttpResponse 200 (JObj [("messageId", JNum messageId);
                          ("message", JStr "Message sent successfully")]).

(** The two clocks a submission reads: [CURRENT_TIMESTAMP] in the store and
    [new Date().toISOString()] in the process. *)
Record instant := Instant {
  db_now : Z;
  iso_now : string
}.

(** The call in flight, with the variables its two continuations close
    over ([clientId], [agentId], [messageId]). *)
Record pending := Pending {
  p_url : string;
  p_body : webhook_payload;
  p_timeout : Z;
  p_clientId : Z;
  p_agentId : route_param;
  p_messageId : Z
}.

(** [if (agent.webhook_url)] on a nullable text column. *)
Definition webhook_of (a : agent_row) : option string :=
  match a_webhook_url a with
  | Some url => if String.eqb url "" then None else Some url
  | None => None
  end.

(** [!agent.is_active] on a nullable boolean column. *)
Definition is_active (a : agent_row) : bool :=
  match a_is_active a with
  | Some b => b
  | None => false
  end.

Definition received_text : jsval := JStr "Agent response received".
Definition unavailable_text : jsval := JStr "Sorry, the agent is currently unavailable.".
Definition no_webhook_text : jsval := JStr "This agent is not configured with a webhook yet.".

(** [response.data.response || response.data.message ||
    'Agent response received']; [None] when reading the property throws. *)
Definition response_text (data : jsval) : option jsval :=
  match get_prop data "response" with
  | None => None
  | Some r =>
      if truthy r then Some r
      else match get_prop data "message" with
           | None => None
           | Some m => Some (js_or m received_text)
           end
  end.

(** Update the row, then broadcast to the client's room; [None] when the
    update raises, in which case nothing is broadcast. *)
Definition resolve (s : server) (clientId : Z) (agentId : route_param)
    (messageId : Z) (text : jsval) : option server :=
  s1 ← query_update_response s text messageId;
  Some (io_emit s1 (client_room (JNum clientId))
                (AgentResponse messageId agentId text)).

(** The [.then] continuation; [None] when it throws, which it does before
    any effect: on the property access or in the update. *)
Definition on_reply (s : server) (p : pending) (data : jsval) : option server :=
  text ← response_text data;
  resolve s (p_clientId p) (p_agentId p) (p_messageId p) text.

(** The [.catch] continuation.  An exception in it is caught by nobody and
    leaves the state as it is. *)
Definition on_error (s : server) (p : pending) : server :=
  default s (resolve s (p_clientId p) (p_agentId p) (p_messageId p)
                     unavailable_text).

(** [promise.then(on_reply).catch(on_error)]: a rejection, and an exception
    thrown by the [.then] continuation, both reach the [.catch] one. *)
Definition webhook_settle (s : server) (p : pending) (o : settlement) : server :=
  match o with
  | Fulfilled data =>
      match on_reply s p data with
      | Some s' => s'
      | None => on_error s p
      end
  | Rejected _ => on_error s p
  end.

(** [app.post('/api/chat/:agentId', authenticateToken, ...)], after the
    middleware has put the token's id in [req.user.id].  Returns the new
    state, the HTTP response, and the webhook call left in flight (if any):
    the response is sent without waiting for it.  A statement that raises
    is caught by the handler's [try] and answered with 500. *)
Definition chat_post (s : server) (clientId : Z) (agentId : route_param)
    (message : jsval) (now : instant) : server * http_response * option pending :=
  if negb (truthy message) then (s, json_error 400 "Message required", None)
  else
    match select_agent (store s) agentId clientId with
    | None => (s, json_error 500 "Database error", None)
    | Some rows =>
        match getRow rows with
        | None => (s, json_error 404 "Agent not found", None)
        | Some agent =>
            if negb (is_active agent) then
              (s, json_error 400 "Agent is not active", None)
            else
              match insert_message (store s) clientId agentId message (db_now now) with
              | (d, None) => (with_store d s, json_error 500 "Database error", None)
              | (d, Some messageId) =>
                  let s1 := log (EInsertMessage messageId) (with_store d s) in
                  match webhook_of agent with
                  | Some url =>
                      let payload :=
                        WebhookPayload message clientId agentId messageId (iso_now now) in
                      (log (EWebhookPost url payload 10000) s1,
                       message_sent messageId,
                       Some (Pending url payload 10000 clientId agentId messageId))
                  | None =>
                      match resolve s1 clientId agentId messageId no_webhook_text with
                      | Some s2 => (s2, message_sent messageId, None)
                      | None => (s1, json_error 500 "Database error", None)
                      end
                  end
              end
        end
    end.

(** [app.get('/api/chat/:agentId/history', authenticateToken, ...)]: the
    rows sent back with [res.json], or the error answer. *)
Definition chat_history (s : server) (clientId : Z) (agentId : route_param)
    : http_response + list message_row :=
  match select_history (store s) clientId agentId with
  | Some rows => inr rows
  | None => inl (json_error 500 "Database error")
  end.

(** [app.delete('/api/clients/:id', authenticateAdmin, ...)] *)
Definition delete_client_route (s : server) (id : route_param)
    : server * http_response :=
  match select_client (store s) id with
  | None => (s, json_error 500 "Database error")
  | Some rows =>
      match getRow rows with
      | None => (s, json_error 404 "Client not found")
      | Some _ =>
          match delete_client (store s) id with
          | None => (s, json_error 500 "Database error")
          | Some (d, []) => (with_store d s, json_error 404 "Client not found")
          | Some (d, _ :: _) =>
              (with_store d s,
               ok_message "Client deleted successfully")
          end
      end
  end.

(** [app.delete('/api/agents/:id', authenticateToken, ...)] *)
Definition delete_agent_route (s : server) (clientId : Z) (id : route_param)
    : server * http_response :=
  match delete_agent (store s) id clientId with
  | None => (s, json_error 500 "Database error")
  | Some (d, []) => (with_store d s, json_error 404 "Agent not found")
  | Some (d, _ :: _) =>
      (with_store d s,
       ok_message "Agent deleted successfully")
  end.

End Routes.
Export Routes.

(** ** The event loop: handlers run one after another *)

Module Loop.

(** One turn of the event loop.  [ASettle] is the moment a webhook promise
    settles; any number of other turns may lie between a submission and the
    settlement of its call. *)
Inductive action : Type :=
| AChat (clientId : Z) (agentId : route_param) (message : jsval) (now : instant)
| ASettle (p : pending) (o : settlement)
| AJoin (sock : nat) (clientId : jsval)
| ADisconnect (sock : nat)
| ADeleteClient (id : route_param)
| ADeleteAgent (clientId : Z) (id : route_param).

Definition step (s : server) (a : action) : server :=
  match a with
  | AChat clientId agentId message now => (chat_post s clientId agentId message now).1.1
  | ASettle p o => webhook_settle s p o
  | AJoin sock clientId => join_client_room s sock clientId
  | ADisconnect sock => disconnect s sock
  | ADeleteClient id => (delete_client_route s id).1
  | ADeleteAgent clientId id => (delete_agent_route s clientId id).1
  end.

Definition run (s : server) (acts : list action) : server :=
  fold_left step acts s.

(** The same loop with the promises tracked: a submission that reaches a
    webhook leaves its call in flight, and a promise settles once, which
    takes its call out of the list. *)
Record process := Process {
  srv : server;
  inflight : list pending
}.

Inductive turn : Type :=
| TChat (clientId : Z) (agentId : route_param) (message : jsval) (now : instant)
| TSettle (i : nat) (o : settlement)
| TJoin (sock : nat) (clientId : jsval)
| TDisconnect (sock : nat)
| TDeleteClient (id : route_param)
| TDeleteAgent (clientId : Z) (id : route_param).

Definition play_turn (n : process) (t : turn) : process :=
  match t with
  | TChat clientId agentId message now =>
      let r := chat_post (srv n) clientId agentId message now in
      Process r.1.1 (inflight n ++ option_list r.2)
  | TSettle i o =>
      match inflight n !! i with
      | Some p => Process (webhook_settle (srv n) p o) (delete i (inflight n))
      | None => n
      end
  | TJoin sock clientId =>
      Process (join_client_room (srv n) sock clientId) (inflight n)
  | TDisconnect sock => Process (disconnect (srv n) sock) (inflight n)
  | TDeleteClient id => Process (delete_client_route (srv n) id).1 (inflight n)
  | TDeleteAgent clientId id =>
      Process (delete_agent_route (srv n) clientId id).1 (inflight n)
  end.

Definition play (n : process) (turns : list turn) : process :=
  fold_left play_turn turns n.

(** A process that has just started: nothing done yet, nothing in flight. *)
Definition boot (d : db) : process := Process (ServerState d ∅ [] []) [].

End Loop.
Export Loop.

(** ** Access control ([authenticateToken], [authenticateAdmin]) *)

Module Auth.

(** [s.split(sep)] for a one-character separator: the pieces between the
    separators, the empty ones included; never the empty list. *)
Fixpoint split_on (sep : Ascii.ascii) (s : string) : list string :=
  match s with
  | EmptyString => [EmptyString]
  | String c rest =>
      if Ascii.eqb c sep then EmptyString :: split_on sep rest
      else match split_on sep rest with
           | [] => [String c EmptyString]
           | w :: ws => String c w :: ws
           end
  end.

(** [authHeader && authHeader.split(' ')[1]], read through [!token]: [None]
    stands for every falsy outcome (no header, an empty header, no second
    piece, an empty second piece). *)
Definition header_token (authHeader : option string) : option string :=
  match authHeader with
  | None => None
  | Some h =>
      if String.eqb h "" then None
      else match split_on space h !! 1%nat with
           | Some t => if String.eqb t "" then None else Some t
           | None => None
           end
  end.

(** The payload the login routes sign: [{ id, username, role }]. *)
Record claims := Claims {
  u_id : Z;
  u_username : string;
  u_role : string
}.

(** What a middleware does with the request. *)
Inductive auth_result : Type :=
| Reject (resp : http_response)
| Next (user : claims).

Section Middleware.

(** [jwt.verify(token, JWT_SECRET, ...)]: the decoded payload, or [None]
    for any error (bad signature, expired, malformed). *)
Variable verify : string → option claims.

Definition authenticateToken (authHeader : option string) : auth_result :=
  match header_token authHeader with
  | None => Reject (json_error 401 "Access token required")
  | Some token =>
      match verify token with
      | None => Reject (json_error 403 "Invalid token")
      | Some user => Next user
      end
  end.

Definition authenticateAdmin (authHeader : option string) : auth_result :=
  match header_token authHeader with
  | None => Reject (json_error 401 "Access token required")
  | Some token =>
      match verify token with
      | None => Reject (json_error 403 "Admin access required")
      | Some user =>
          if String.eqb (u_role user) "admin" then Next user
          else Reject (json_error 403 "Admin access required")
      end
  end.

(** [app.post('/api/chat/:agentId', authenticateToken, handler)]: the
    handler runs with [req.user.id] taken from the verified payload. *)
Definition api_chat_post (s : server) (authHeader : option string)
    (agentId : route_param) (message : jsval) (now : instant)
    : server * http_response * option pending :=
  match authenticateToken authHeader with
  | Reject resp => (s, resp, None)
  | Next user => chat_post s (u_id user) agentId message now
  end.

(** [app.get('/api/chat/:agentId/history', authenticateToken, handler)]:
    the rows, or the refusal. *)
Definition api_chat_history (s : server) (authHeader : option string)
    (agentId : route_param) : http_response + list message_row :=
  match authenticateToken authHeader with
  | Reject resp => inl resp
  | Next user => chat_history s (u_id user) agentId
  end.

(** [app.delete('/api/clients/:id', authenticateAdmin, handler)] *)
Definition api_delete_client (s : server) (authHeader : option string)
    (id : route_param) : server * http_response :=
  match authenticateAdmin authHeader with
  | Reject resp => (s, resp)
  | Next _ => delete_client_route s id
  end.

End Middleware.

End Auth.
Export Auth.

(** ** Agent and client management routes *)

Module Manage.

(** The body of [POST] and [PUT /api/agents]: the fields the handlers
    destructure, at the types of their columns; [None] is a field that is
    missing or [null] (the driver sends both as [NULL]). *)
Record agent_form := AgentForm {
  f_name : option string;
  f_description : option string;
  f_webhook_url : option string;
  f_is_active : option bool
}.

Definition apply_form (name : string) (description webhook_url : option string)
    (active : option bool) (a : agent_row) : agent_row :=
  AgentRow (a_id a) (a_client_id a) name description webhook_url active.

(** [UPDATE agents SET name = $1, description = $2, webhook_url = $3,
    is_active = $4, updated_at = CURRENT_TIMESTAMP WHERE id = $5 AND
    client_id = $6 RETURNING id].  The parameters are bound and [name] is
    fitted to [VARCHAR(255)] before any row is looked at.  [name] is
    [NOT NULL]: writing [NULL] to a matching row raises; with no matching
    row nothing is written and that check does not run. *)
Definition update_agent (d : db) (form : agent_form) (id : route_param)
    (clientId : Z) : option (db * list Z) :=
  name ← text_param (f_name form);
  description ← text_param (f_description form);
  webhook_url ← text_param (f_webhook_url form);
  key ← pg_int4 id;
  c ← bind_int clientId;
  fitted ← varchar_param 255 name;
  let hit := fun a => a_id a = key ∧ a_client_id a = c in
  match filter hit (agents d) with
  | [] => Some (d, [])
  | matched =>
      match fitted with
      | None => None
      | Some name' =>
          Some (Store (clients d)
                      (map (fun a => if bool_decide (hit a)
                                     then apply_form name' description webhook_url
                                                     (f_is_active form) a
                                     else a)
                           (agents d))
                      (messages d) (messages_id_seq d),
                map a_id matched)
      end
  end.

(** [app.put('/api/agents/:id', authenticateToken, ...)] *)
Definition put_agent_route (s : server) (clientId : Z) (id : route_param)
    (form : agent_form) : server * http_response :=
  match update_agent (store s) form id clientId with
  | None => (s, json_error 500 "Database error")
  | Some (d, []) => (with_store d s, json_error 404 "Agent not found")
  | Some (d, _ :: _) =>
      (with_store d s,
       ok_message "Agent updated successfully")
  end.

(** [INSERT INTO agents (client_id, name, description, webhook_url) VALUES
    ($1, $2, $3, $4) RETURNING *].  [id] is the value the table's serial
    sequence hands out; [is_active] takes its default [true].  The primary
    key and the foreign key to [clients] are checked; a violation
    raises. *)
Definition insert_agent (d : db) (id clientId : Z) (name : string)
    (description webhook_url : option string) : option (db * agent_row) :=
  c ← bind_int clientId;
  _ ← text_param (Some name);
  description' ← text_param description;
  webhook_url' ← text_param webhook_url;
  name' ← varchar 255 name;
  key ← bind_int id;
  if has_client d c && negb (has_agent d key) then
    let row := AgentRow key c name' description' webhook_url' (Some true) in
    Some (Store (clients d) (agents d ++ [row]) (messages d) (messages_id_seq d),
          row)
  else None.

(** What [POST /api/agents] answers: [res.status(201).json(row)] or an
    error. *)
Inductive create_result : Type :=
| Created (row : agent_row)
| NotCreated (resp : http_response).

(** [app.post('/api/agents', authenticateToken, ...)]; [nextval] is the id
    the sequence would hand out to this insert. *)
Definition post_agent_route (s : server) (nextval clientId : Z)
    (form : agent_form) : server * create_result :=
  match f_name form with
  | None => (s, NotCreated (json_error 400 "Agent name required"))
  | Some name =>
      if String.eqb name "" then
        (s, NotCreated (json_error 400 "Agent name required"))
      else
        match insert_agent (store s) nextval clientId name
                           (f_description form) (f_webhook_url form) with
        | None => (s, NotCreated (json_error 500 "Database error"))
        | Some (d, row) => (with_store d s, Created row)
        end
  end.

(** [UPDATE clients SET webhook_url = $1, updated_at = CURRENT_TIMESTAMP
    WHERE id = $2 RETURNING id] *)
Definition update_client_webhook (d : db) (url : string) (id : route_param)
    : option (db * list Z) :=
  url' ← text_param (Some url);
  key ← pg_int4 id;
  Some (Store (map (fun c => if bool_decide (c_id c = key)
                             then ClientRow (c_id c) (c_username c) (c_email c)
                                            (c_company_name c) url'
                             else c) (clients d))
              (agents d) (messages d) (messages_id_seq d),
        map c_id (filter (fun c => c_id c = key) (clients d))).

(** [app.put('/api/clients/:id/webhook', authenticateAdmin, ...)]; the body
    field is [None] when missing. *)
Definition put_client_webhook_route (s : server) (id : route_param)
    (webhook_url : option string) : server * http_response :=
  match webhook_url with
  | None => (s, json_error 400 "Webhook URL required")
  | Some url =>
      if String.eqb url "" then (s, json_error 400 "Webhook URL required")
      else
        match update_client_webhook (store s) url id with
        | None => (s, json_error 500 "Database error")
        | Some (d, []) => (with_store d s, json_error 404 "Client not found")
        | Some (d, _ :: _) =>
            (with_store d s,
             ok_message "Webhook updated successfully")
        end
  end.

End Manage.
Export Manage.

(** ** The dashboard's requests ([Dashboard.tsx]) *)

Module Dashboard.

(** [openEditModal] then [handleEditAgent]: the form holds [name],
    [description] ([agent.description || '']) and [webhook_url]
    ([agent.webhook_url || '']); it has no [is_active] field. *)
Definition edit_form (name description webhook_url : string) : agent_form :=
  AgentForm (Some name) (Some description) (Some webhook_url) None.

(** [handleToggleAgent]: [{ ...agent, is_active: !agent.is_active }]. *)
Definition toggle_form (a : agent_row) : agent_form :=
  AgentForm (Some (a_name a)) (a_description a) (a_webhook_url a)
            (Some (negb (is_active a))).

End Dashboard.
Export Dashboard.
(** ** The chat page's message list ([Chat.tsx]) *)

Module ChatUi.

(** One entry of the [messages] state. *)
Record ui_message := UiMessage {
  ui_id : Z;
  ui_text : string;
  ui_response : jsval;
  ui_timestamp : string
}.

(** [newSocket.on('agent_response', (data) => setMessages(prev =>
    prev.map(msg => msg.id === data.messageId
                    ? { ...msg, response: data.response } : msg)))] *)
Definition on_agent_response (prev : list ui_message) (data : agent_response)
    : list ui_message :=
  map (fun msg => if bool_decide (ui_id msg = ev_messageId data)
                  then UiMessage (ui_id msg) (ui_text msg)
                                 (ev_response data) (ui_timestamp msg)
                  else msg) prev.

(** [sendMessage], once the POST has answered: the new entry, with an
    empty response, goes to the end of the list. *)
Definition on_message_sent (prev : list ui_message) (messageId : Z)
    (messageText : string) (now : string) : list ui_message :=
  prev ++ [UiMessage messageId messageText (JStr "") now].

(** The bubble is the response when [message.response] is truthy, the
    "Agent is thinking" spinner otherwise. *)
Definition shows_spinner (msg : ui_message) : bool :=
  negb (truthy (ui_response msg)).

End ChatUi.
Export ChatUi.

(** ** Seeding the default administrator ([initDatabase]) *)

Module Seed.

Record admin_row := AdminRow {
  ad_id : Z;
  ad_username : string;
  ad_email : string;
  ad_password_hash : string
}.

Record admins_table := AdminsTable {
  admin_rows : list admin_row;
  admins_id_seq : Z
}.

(** [process.env.ADMIN_PASSWORD || 'admin123'] *)
Definition admin_password (env : option string) : string :=
  match env with
  | Some pw => if String.eqb pw "" then "admin123" else pw
  | None => "admin123"
  end.

(** The last step of [initDatabase]: if no row has username ['admin'],
    insert one with the hash of the configured password.  [hash] is
    [bcrypt.hash(_, 10)] with the salt it draws on this call.  Both
    [username] and [email] are [UNIQUE]; a violation raises ([None]). *)
Definition seed_admin (hash : string → string) (env : option string)
    (t : admins_table) : option admins_table :=
  match filter (fun r => ad_username r = "admin") (admin_rows t) with
  | [] =>
      if bool_decide (Exists (fun r => ad_email r = "admin@rpl.com") (admin_rows t))
      then None
      else Some (AdminsTable
                   (admin_rows t ++
                    [AdminRow (admins_id_seq t) "admin" "admin@rpl.com"
                              (hash (admin_password env))])
                   (admins_id_seq t + 1))
  | _ :: _ => Some t
  end.

End Seed.
Export Seed.

(** ** A small deployment used in the examples *)

Module Demo.

Definition hook : string := "https://n8n.example/webhook/support".

(** Two tenants; client 1 owns a connected agent (10), an unconnected one
    (11) and a deactivated one (12); client 2 owns agent 20, whose webhook
    field was saved empty. *)
Definition db0 : db :=
  Store [ClientRow 1 "acme" "ops@acme.test" (Some "Acme") None;
         ClientRow 2 "globex" "it@globex.test" None None]
        [AgentRow 10 1 "Support" None (Some hook) (Some true);
         AgentRow 11 1 "Draft" None None (Some true);
         AgentRow 12 1 "Retired" None (Some hook) (Some false);
         AgentRow 20 2 "Sales" (Some "Outbound") (Some "") (Some true)]
        []
        1.

Definition s0 : server := ServerState db0 ∅ [] [].

Definition noon : instant := Instant 1000 "2024-01-01T12:00:00.000Z".

Definition hello : jsval := JStr "hello".

(** Socket 7 has joined client 1's room; client 1 then says hello to
    agent 10, which leaves the call [call1] in flight in state [s_sent]. *)
Definition s_room : server := join_client_room s0 7%nat (JNum 1).

Definition s_sent : server := (chat_post s_room 1 (AsInteger 10) hello noon).1.1.

Definition call1 : pending :=
  Pending hook (WebhookPayload hello 1 (AsInteger 10) 1 (iso_now noon)) 10000
          1 (AsInteger 10) 1.

Definition hi_there : jsval := JObj [("response", JStr "hi there")].

(** The call is answered. *)
Definition s_answered : server := webhook_settle s_sent call1 (Fulfilled hi_there).

(** A text with the character U+0000 between two letters, and a reply that
    carries it. *)
Definition broken : string := "a" +:+ String Ascii.zero "b".

Definition broken_reply : jsval := JObj [("response", JStr broken)].

(** The same submission with no socket connected at all. *)
Definition s_alone : server := (chat_post s0 1 (AsInteger 10) hello noon).1.1.

(** Both clients have written one message to an unconnected agent. *)
Definition s_two : server :=
  run s0 [AChat 1 (AsInteger 11) hello noon; AChat 2 (AsInteger 20) hello noon].

(** Socket 66, which nothing ties to client 1, names identity 1 (as the
    string "1"); client 1's own socket 7 joins later and client 1 writes
    to agent 10. *)
Definition s_spied : server :=
  run (join_client_room s0 66%nat (JStr "1"))
      [AJoin 7%nat (JNum 1); AChat 1 (AsInteger 10) hello noon].

End Demo.

(** ** What a state holds, as the specification speaks of it *)

(** A row with this id is in [messages]. *)
Definition has_message (s : server) (messageId : Z) : Prop :=
  ∃ r, r ∈ messages (store s) ∧ m_id r = messageId.

(** The row with this id exists and its [response] column holds [text]. *)
Definition persisted (s : server) (messageId : Z) (text : stored_text) : Prop :=
  has_message s messageId ∧
  ∀ r, r ∈ messages (store s) → m_id r = messageId → m_response r = Some text.

(** The row with this id exists and its [response] column is [NULL]. *)
Definition unanswered (s : server) (messageId : Z) : Prop :=
  has_message s messageId ∧
  ∀ r, r ∈ messages (store s) → m_id r = messageId → m_response r = None.

(** Socket [k] has been sent [ev]. *)
Definition delivered (s : server) (k : nat) (ev : agent_response) : Prop :=
  (k, ev) ∈ sent s.

(** A value that can be written to a [TEXT NOT NULL] column. *)
Definition storable (v : jsval) : Prop :=
  pg_param v = Some (Some (pg_text v)).

(** The state the insert of an accepted submission leaves: the store the
    statement returned, and the insert recorded. *)
Definition inserted (s : server) (d : db) (messageId : Z) : server :=
  log (EInsertMessage messageId) (with_store d s).

(** The state after a resolution whose update went through. *)
Definition resolved (s : server) (clientId : Z) (agentId : route_param)
    (messageId : Z) (text : jsval) : server :=
  io_emit (log (EUpdateResponse messageId text)
               (with_store (write_response (store s) (Some (pg_text text)) messageId) s))
          (client_room (JNum clientId))
          (AgentResponse messageId agentId text).

(** The text a settlement resolves the message with: the one the reply
    yields if the store takes it, the unavailability text in every other
    case. *)
Definition settled_text (o : settlement) : jsval :=
  match o with
  | Fulfilled data =>
      match response_text data with
      | Some text => if sends_nul text then unavailable_text else text
      | None => unavailable_text
      end
  | Rejected _ => unavailable_text
  end.

(** The outbound calls recorded in a trace. *)
Definition is_webhook_post (e : effect) : bool :=
  match e with
  | EWebhookPost _ _ _ => true
  | _ => false
  end.

Definition webhook_posts (t : list effect) : list effect :=
  filter (fun e => is_webhook_post e) t.

(** How many times the trace resolves a message, and how many calls in
    flight are about to. *)
Definition is_update_of (messageId : Z) (e : effect) : bool :=
  match e with
  | EUpdateResponse m _ => bool_decide (m = messageId)
  | _ => false
  end.

Fixpoint count_if {A} (f : A → bool) (l : list A) : nat :=
  match l with
  | [] => 0
  | x :: rest => ((if f x then 1 else 0) + count_if f rest)%nat
  end.

Definition resolutions (t : list effect) (messageId : Z) : nat :=
  count_if (is_update_of messageId) t.

Definition awaiting (calls : list pending) (messageId : Z) : nat :=
  count_if (fun p => bool_decide (p_messageId p = messageId)) calls.

Definition accounted (n : process) (messageId : Z) : nat :=
  (resolutions (trace (srv n)) messageId + awaiting (inflight n) messageId)%nat.

(** Every message id is resolved or awaited at most once in all, and ids
    the sequence has not handed out yet not at all. *)
Definition resolved_once (n : process) : Prop :=
  ∀ messageId,
    (accounted n messageId ≤ 1)%nat ∧
    (messages_id_seq (store (srv n)) ≤ messageId → accounted n messageId = 0%nat).

(** While a call is in flight, the row it belongs to has no response. *)
Definition inflight_unanswered (n : process) : Prop :=
  ∀ p r, p ∈ inflight n → r ∈ messages (store (srv n)) →
         m_id r = p_messageId p → m_response r = None.


(** The foreign keys of the schema hold. *)
Definition fk_ok (d : db) : Prop :=
  Forall (fun a => has_client d (a_client_id a)) (agents d) ∧
  Forall (fun r => has_client d (m_client_id r) ∧ has_agent d (m_agent_id r))
         (messages d).

(** Socket [k] does not disconnect during [acts]. *)
Definition stays_connected (k : nat) (acts : list action) : bool :=
  forallb (fun a => match a with
                    | ADisconnect k' => negb (Nat.eqb k k')
                    | _ => true
                    end) acts.

(** When the call [p] settles with [o] in state [s], [text] is what ends up
    on the message row (if the row is still there) and what every socket in
    the client's room is sent. *)
Definition resolves_with (s : server) (p : pending) (o : settlement)
    (text : jsval) : Prop :=
  let s' := webhook_settle s p o in
  (has_message s (p_messageId p) → persisted s' (p_messageId p) (pg_text text)) ∧
  (∀ k, k ∈ members s (client_room (JNum (p_clientId p))) →
        delivered s' k (AgentResponse (p_messageId p) (p_agentId p) text)).

(** The ways [chat_post] can end, in the order of its tests. *)
Inductive chat_outcome (s : server) (clientId : Z) (agentId : route_param)
    (message : jsval) (now : instant)
    : server * http_response * option pending → Prop :=
| ChatNoMessage :
    truthy message = false →
    chat_outcome s clientId agentId message now
      (s, json_error 400 "Message required", None)
| ChatSelectRaises :
    truthy message = true →
    select_agent (store s) agentId clientId = None →
    chat_outcome s clientId agentId message now
      (s, json_error 500 "Database error", None)
| ChatNoAgent :
    truthy message = true →
    getRow <$> select_agent (store s) agentId clientId = Some None →
    chat_outcome s clientId agentId message now
      (s, json_error 404 "Agent not found", None)
| ChatInactive agent :
    truthy message = true →
    getRow <$> select_agent (store s) agentId clientId = Some (Some agent) →
    is_active agent = false →
    chat_outcome s clientId agentId message now
      (s, json_error 400 "Agent is not active", None)
| ChatInsertRaises agent d :
    truthy message = true →
    getRow <$> select_agent (store s) agentId clientId = Some (Some agent) →
    is_active agent = true →
    insert_message (store s) clientId agentId message (db_now now) = (d, None) →
    chat_outcome s clientId agentId message now
      (with_store d s, json_error 500 "Database error", None)
| ChatForwarded agent url d messageId :
    truthy message = true →
    getRow <$> select_agent (store s) agentId clientId = Some (Some agent) →
    is_active agent = true →
    insert_message (store s) clientId agentId message (db_now now)
      = (d, Some messageId) →
    webhook_of agent = Some url →
    let payload :=
      WebhookPayload message clientId agentId messageId (iso_now now) in
    chat_outcome s clientId agentId message now
      (log (EWebhookPost url payload 10000)
           (log (EInsertMessage messageId) (with_store d s)),
       message_sent messageId,
       Some (Pending url payload 10000 clientId agentId messageId))
| ChatPlaceholder agent d messageId :
    truthy message = true →
    getRow <$> select_agent (store s) agentId clientId = Some (Some agent) →
    is_active agent = true →
    insert_message (store s) clientId agentId message (db_now now)
      = (d, Some messageId) →
    webhook_of agent = None →
    chat_outcome s clientId agentId message now
      (resolved (log (EInsertMessage messageId) (with_store d s))
                clientId agentId messageId no_webhook_text,
       message_sent messageId,
       None).

(** ** Further notions, for the rest of the routes *)

(** [ORDER BY timestamp] compares any two rows. *)
#[global] Instance by_timestamp_total : Total by_timestamp.
Proof. intros r1 r2. unfold by_timestamp. lia. Qed.

(** The primary key of [messages]: ids are pairwise distinct, and all of
    them were handed out by the sequence. *)
Definition pk_ok (d : db) : Prop :=
  NoDup (map m_id (messages d)) ∧
  Forall (fun r => m_id r < messages_id_seq d) (messages d).

(** What holds of a process that started with sound message ids. *)
Definition tracked (n : process) : Prop :=
  pk_ok (store (srv n)) ∧ resolved_once n ∧ inflight_unanswered n.

(** Two rows that differ at most in their [response]. *)
Definition same_message (r r' : message_row) : Prop :=
  m_id r' = m_id r ∧ m_client_id r' = m_client_id r ∧
  m_agent_id r' = m_agent_id r ∧ m_message r' = m_message r ∧
  m_timestamp r' = m_timestamp r.

(** Every response text written, pushed or stored so far is truthy. *)
Definition truthy_effect (e : effect) : bool :=
  match e with
  | EUpdateResponse _ text => truthy text
  | EEmit _ ev => truthy (ev_response ev)
  | _ => true
  end.

Definition truthy_text (t : stored_text) : bool :=
  match t with
  | Text s => truthy (JStr s)
  | Rendered v => truthy v
  end.

Definition truthy_row (r : message_row) : bool :=
  match m_response r with
  | Some text => truthy_text text
  | None => true
  end.

Definition answers_truthy (s : server) : Prop :=
  Forall (fun e => truthy_effect e) (trace s) ∧
  Forall (fun x => truthy (ev_response x.2)) (sent s) ∧
  Forall (fun r => truthy_row r) (messages (store s)).

(** What socket [k] has been sent, in order. *)
Definition received (s : server) (k : nat) : list agent_response :=
  map snd (filter (fun x => x.1 = k) (sent s)).

(** Socket [k] joins no room during [acts]. *)
Definition never_joins (k : nat) (acts : list action) : bool :=
  forallb (fun a => match a with
                    | AJoin k' _ => negb (Nat.eqb k k')
                    | _ => true
                    end) acts.

(** A string without a space in it. *)
Fixpoint no_space (s : string) : bool :=
  match s with
  | EmptyString => true
  | String c rest => negb (Ascii.eqb c space) && no_space rest
  end.

(** A token verifier for the examples: two tokens are good, one of a
    client and one of an administrator who both have id 1. *)
Definition demo_verify (token : string) : option claims :=
  if String.eqb token "t-acme" then Some (Claims 1 "acme" "client")
  else if String.eqb token "t-root" then Some (Claims 1 "admin" "admin")
  else None.

(** The text fields of an agent form bind: no U+0000 in any of them, and
    a name that fits [VARCHAR(255)]. *)
Definition fits_text (field : option string) : bool :=
  match field with
  | None => true
  | Some s => negb (has_nul s)
  end.

Definition fits_name (field : option string) : bool :=
  match field with
  | None => true
  | Some s => negb (has_nul s) && bool_decide (is_Some (varchar 255 s))
  end.

Definition form_binds (form : agent_form) : bool :=
  fits_name (f_name form) && fits_text (f_description form)
  && fits_text (f_webhook_url form).

(** The agent as the dashboard holds it after a toggle has gone through
    and the list has been fetched again. *)
Definition toggled (a : agent_row) : agent_row :=
  AgentRow (a_id a) (a_client_id a) (a_name a) (a_description a)
           (a_webhook_url a) (Some (negb (is_active a))).

(** ** Basic facts about parameters, [resolve] and the settlement *)

Lemma truthy_nonempty (X : string) : X ≠ "" → truthy (JStr X) = true.
Proof.
  intros HX. simpl. apply negb_true_iff.
  destruct (String.eqb_spec X ""); congruence.
Qed.

Lemma truthy_pg_param v :
  truthy v = true →
  pg_param v = if sends_nul v then None else Some (Some (pg_text v)).
Proof. by destruct v. Qed.

Lemma storable_iff v :
  truthy v = true → (storable v ↔ sends_nul v = false).
Proof.
  intros Ht. unfold storable. rewrite (truthy_pg_param v Ht).
  by destruct (sends_nul v).
Qed.

Lemma storable_text (X : string) :
  X ≠ "" → has_nul X = false → storable (JStr X).
Proof. intros _ HX. unfold storable. simpl. by rewrite HX. Qed.

Lemma bind_int_Some z key : bind_int z = Some key ↔ in_int4 z = true ∧ key = z.
Proof.
  unfold bind_int. destruct (in_int4 z); split; try done.
  - by intros [= ->].
  - by intros [_ ->].
  - by intros [? _].
Qed.

Lemma pg_int4_Some p key :
  pg_int4 p = Some key ↔ p = AsInteger key ∧ in_int4 key = true.
Proof.
  destruct p as [z|]; simpl.
  - rewrite bind_int_Some. split.
    + by intros [? ->].
    + by intros [[= ->] ?].
  - split; [done|]. by intros [? _].
Qed.

Lemma pg_int4_in_range key : in_int4 key = true → pg_int4 (AsInteger key) = Some key.
Proof. intros H. by apply pg_int4_Some. Qed.

Lemma response_text_truthy data text :
  response_text data = Some text → truthy text = true.
Proof.
  unfold response_text.
  destruct (get_prop data "response") as [r|]; [|done].
  destruct (truthy r) eqn:Hr; [by intros [= <-]|].
  destruct (get_prop data "message") as [m|]; [|done].
  intros [= <-]. unfold js_or. by destruct (truthy m) eqn:Hm.
Qed.

Lemma settled_text_truthy o : truthy (settled_text o) = true.
Proof.
  destruct o as [data|err]; simpl; [|done].
  destruct (response_text data) as [text|] eqn:Ht; [|done].
  destruct (sends_nul text); [done|]. by eapply response_text_truthy.
Qed.

Lemma settled_text_storable o : storable (settled_text o).
Proof.
  apply storable_iff; [apply settled_text_truthy|].
  destruct o as [data|err]; simpl; [|done].
  destruct (response_text data) as [text|] eqn:Ht; [|done].
  by destruct (sends_nul text) eqn:Hn.
Qed.

Lemma resolve_storable s clientId agentId messageId text :
  storable text →
  resolve s clientId agentId messageId text
    = Some (resolved s clientId agentId messageId text).
Proof.
  intros Hs. unfold resolve, query_update_response, update_response.
  rewrite Hs. reflexivity.
Qed.

Lemma resolve_raises s clientId agentId messageId text :
  pg_param text = None → resolve s clientId agentId messageId text = None.
Proof.
  intros Hs. unfold resolve, query_update_response, update_response.
  by rewrite Hs.
Qed.

Lemma on_error_resolved s p :
  on_error s p =
  resolved s (p_clientId p) (p_agentId p) (p_messageId p) unavailable_text.
Proof. reflexivity. Qed.

(** However the call settles, the message is resolved once, with
    [settled_text]. *)
Lemma webhook_settle_resolved s p o :
  webhook_settle s p o =
  resolved s (p_clientId p) (p_agentId p) (p_messageId p) (settled_text o).
Proof.
  destruct o as [data | err]; simpl; [|done].
  unfold on_reply.
  destruct (response_text data) as [text|] eqn:Ht; simpl; [|done].
  pose proof (response_text_truthy _ _ Ht) as Htr.
  destruct (sends_nul text) eqn:Hn.
  - rewrite resolve_raises; [done|]. by rewrite (truthy_pg_param _ Htr), Hn.
  - rewrite resolve_storable; [done|]. by apply storable_iff.
Qed.

Section ResolveFacts.

Variables (s : server) (clientId : Z) (agentId : route_param) (messageId : Z)
          (text : jsval).

Local Abbreviation s' := (resolved s clientId agentId messageId text).

Lemma resolved_store :
  store s' = write_response (store s) (Some (pg_text text)) messageId.
Proof. reflexivity. Qed.

Lemma resolved_rooms : rooms s' = rooms s.
Proof. reflexivity. Qed.

Lemma resolved_sent :
  sent s' =
  sent s ++ map (fun k => (k, AgentResponse messageId agentId text))
                (elements (members s (client_room (JNum clientId)))).
Proof. reflexivity. Qed.

Lemma resolved_trace :
  trace s' =
  trace s ++ [EUpdateResponse messageId text;
              EEmit (client_room (JNum clientId))
                    (AgentResponse messageId agentId text)].
Proof. unfold resolved, io_emit. simpl. by rewrite <- app_assoc. Qed.

Lemma resolved_row_updated r :
  r ∈ messages (store s) → m_id r = messageId →
  set_response (Some (pg_text text)) r ∈ messages (store s').
Proof.
  intros Hin Hid. rewrite resolved_store. simpl.
  apply list_elem_of_fmap. exists r. split; [|done].
  by rewrite bool_decide_eq_true_2.
Qed.

Lemma resolved_row_kept r :
  r ∈ messages (store s) → m_id r ≠ messageId →
  r ∈ messages (store s').
Proof.
  intros Hin Hid. rewrite resolved_store. simpl.
  apply list_elem_of_fmap. exists r. split; [|done].
  by rewrite bool_decide_eq_false_2.
Qed.

Lemma resolved_rows_inv r' :
  r' ∈ messages (store s') →
  ∃ r, r ∈ messages (store s) ∧
       ((m_id r = messageId ∧ r' = set_response (Some (pg_text text)) r) ∨
        (m_id r ≠ messageId ∧ r' = r)).
Proof.
  rewrite resolved_store. simpl. intros Hin.
  apply list_elem_of_fmap in Hin as (r & -> & Hin).
  exists r. split; [done|]. case_bool_decide; [left|right]; done.
Qed.

Lemma resolved_persisted :
  has_message s messageId → persisted s' messageId (pg_text text).
Proof.
  intros (r & Hin & Hid). split.
  - exists (set_response (Some (pg_text text)) r). split; [|done].
    by apply resolved_row_updated.
  - intros r' Hin' Hid'.
    apply resolved_rows_inv in Hin' as (r0 & _ & [[_ ->] | [Hne ->]]); [done|].
    congruence.
Qed.

Lemma resolved_delivered k :
  k ∈ members s (client_room (JNum clientId)) →
  delivered s' k (AgentResponse messageId agentId text).
Proof.
  intros Hk. unfold delivered. rewrite resolved_sent.
  apply elem_of_app. right. apply list_elem_of_fmap.
  exists k. split; [done|]. by apply elem_of_elements.
Qed.

Lemma resolved_dropped :
  members s (client_room (JNum clientId)) = ∅ → sent s' = sent s.
Proof.
  intros Hempty. rewrite resolved_sent, Hempty, elements_empty. simpl.
  by rewrite app_nil_r.
Qed.

End ResolveFacts.

(** ** The outcomes of a submission *)

Lemma insert_message_inv d clientId agentId message now d' messageId :
  insert_message d clientId agentId message now = (d', Some messageId) →
  ∃ key text,
    agentId = AsInteger key ∧ in_int4 key = true ∧ in_int4 clientId = true ∧
    pg_param message = Some (Some text) ∧
    messageId = messages_id_seq d ∧ in_int4 messageId = true ∧
    has_client d clientId = true ∧ has_agent d key = true ∧
    clients d' = clients d ∧ agents d' = agents d ∧
    messages d' =
      messages d ++ [MessageRow messageId clientId key text None now] ∧
    messages_id_seq d' = messageId + 1.
Proof.
  unfold insert_message.
  destruct (bind_int clientId) as [c|] eqn:Hc; [|done].
  destruct (pg_int4 agentId) as [key|] eqn:Hk; [|done].
  destruct (pg_param message) as [[text|]|] eqn:Ht; try done;
    destruct (in_int4 (messages_id_seq d)) eqn:Hseq; simpl; try done.
  apply bind_int_Some in Hc as [Hc ->].
  apply pg_int4_Some in Hk as [-> Hk].
  destruct (has_client d clientId) eqn:Hhc; [|done].
  destruct (has_agent d key) eqn:Hha; [|done].
  simpl. intros [= <- <-]. exists key, text. done.
Qed.

Lemma insert_message_raises d clientId agentId message now d' :
  insert_message d clientId agentId message now = (d', None) →
  clients d' = clients d ∧ agents d' = agents d ∧ messages d' = messages d ∧
  (messages_id_seq d' = messages_id_seq d ∨
   messages_id_seq d' = messages_id_seq d + 1).
Proof.
  unfold insert_message.
  destruct (bind_int clientId) as [c|]; [|intros [= <-]; tauto].
  destruct (pg_int4 agentId) as [key|]; [|intros [= <-]; tauto].
  destruct (pg_param message) as [[text|]|]; [| |intros [= <-]; tauto];
    (destruct (in_int4 (messages_id_seq d)); simpl; [|intros [= <-]; tauto]).
  - destruct (has_client d c && has_agent d key); [done|].
    intros [= <-]. simpl. tauto.
  - intros [= <-]. simpl. tauto.
Qed.

Lemma insert_message_text d clientId agentId message now d' messageId :
  truthy message = true →
  insert_message d clientId agentId message now = (d', Some messageId) →
  storable message.
Proof.
  intros Hm (key & text & _ & _ & _ & Ht & _)%insert_message_inv.
  apply storable_iff; [done|].
  rewrite (truthy_pg_param _ Hm) in Ht. by destruct (sends_nul message).
Qed.

Lemma no_webhook_text_storable : storable no_webhook_text.
Proof. reflexivity. Qed.

Lemma chat_post_outcome s clientId agentId message now :
  chat_outcome s clientId agentId message now
               (chat_post s clientId agentId message now).
Proof.
  unfold chat_post.
  destruct (truthy message) eqn:Hm; simpl; [|by constructor].
  destruct (select_agent (store s) agentId clientId) as [rows|] eqn:Hsel;
    [|by constructor].
  destruct (getRow rows) as [agent|] eqn:Hag;
    [|by constructor; [|rewrite Hsel; simpl; rewrite Hag]].
  assert (Hrow : getRow <$> select_agent (store s) agentId clientId
                 = Some (Some agent)) by (rewrite Hsel; simpl; by rewrite Hag).
  destruct (is_active agent) eqn:Hact; simpl; [|by econstructor].
  destruct (insert_message (store s) clientId agentId message (db_now now))
    as [d [messageId|]] eqn:Hins; [|by econstructor].
  cbv zeta.
  destruct (webhook_of agent) as [url|] eqn:Hurl; [by econstructor|].
  exact (ChatPlaceholder s clientId agentId message now agent d messageId
           Hm Hrow Hact Hins Hurl).
Qed.

(** Reading an equation [chat_post ... = r] as one of the outcomes. *)
Ltac chat_cases H :=
  let Hout := fresh "Hout" in
  match type of H with
  | chat_post ?s ?c ?a ?m ?n = _ =>
      pose proof (chat_post_outcome s c a m n) as Hout;
      rewrite H in Hout; inversion Hout; subst; clear Hout
  end.

(** What the [SELECT] of the chat route found. *)
Lemma found_agent d agentId clientId agent :
  getRow <$> select_agent d agentId clientId = Some (Some agent) →
  ∃ key,
    agentId = AsInteger key ∧ in_int4 key = true ∧ in_int4 clientId = true ∧
    agent ∈ agents d ∧ a_id agent = key ∧ a_client_id agent = clientId.
Proof.
  unfold select_agent.
  destruct (pg_int4 agentId) as [key|] eqn:Hk; [|done].
  destruct (bind_int clientId) as [c|] eqn:Hc; [|done].
  simpl. intros [= Hh].
  apply pg_int4_Some in Hk as [-> Hk]. apply bind_int_Some in Hc as [Hc ->].
  apply head_Some_elem_of, list_elem_of_filter in Hh as [[? ?] ?].
  by exists key.
Qed.

Lemma no_agent_found d key clientId :
  in_int4 key = true → in_int4 clientId = true →
  (¬ ∃ ag, ag ∈ agents d ∧ a_id ag = key ∧ a_client_id ag = clientId) →
  getRow <$> select_agent d (AsInteger key) clientId = Some None.
Proof.
  intros Hk Hc Hno. unfold select_agent.
  rewrite (pg_int4_in_range _ Hk). unfold bind_int. rewrite Hc. simpl.
  f_equal. unfold getRow.
  destruct (head (agent_rows d key clientId)) as [ag|] eqn:Hh; [|done].
  destruct Hno. exists ag.
  apply head_Some_elem_of, list_elem_of_filter in Hh as [[? ?] ?]. done.
Qed.

Lemma select_agent_raises d agentId clientId :
  select_agent d agentId clientId = None ↔
  pg_int4 agentId = None ∨ in_int4 clientId = false.
Proof.
  unfold select_agent, bind_int.
  destruct (pg_int4 agentId); simpl; [|by split; [left|]].
  destruct (in_int4 clientId); simpl; split; try done.
  - by intros [?|?].
  - by right.
Qed.

(** A row for a freshly accepted submission is in the table. *)
Lemma inserted_has_message s d clientId agentId message now messageId :
  truthy message = true →
  insert_message (store s) clientId agentId message now = (d, Some messageId) →
  ∃ key,
    agentId = AsInteger key ∧
    MessageRow messageId clientId key (pg_text message) None now ∈ messages d.
Proof.
  intros Hm Hins. pose proof (insert_message_text _ _ _ _ _ _ _ Hm Hins) as Hs.
  apply insert_message_inv in Hins
    as (key & text & -> & _ & _ & Ht & _ & _ & _ & _ & _ & _ & -> & _).
  exists key. split; [done|]. rewrite Hs in Ht. injection Ht as <-.
  apply elem_of_app. right. apply list_elem_of_singleton. done.
Qed.

(** ** Settlement: what is persisted and what is delivered *)

Lemma settle_resolves_with s p o : resolves_with s p o (settled_text o).
Proof.
  unfold resolves_with. rewrite webhook_settle_resolved. split.
  - apply resolved_persisted.
  - intros k. apply resolved_delivered.
Qed.

Lemma response_text_fields data r m :
  get_prop data "response" = Some r →
  get_prop data "message" = Some m →
  response_text data =
    Some (if truthy r then r else if truthy m then m else received_text).
Proof.
  intros Hr Hm. unfold response_text, js_or.
  rewrite Hr, Hm. by destruct (truthy r), (truthy m).
Qed.

Lemma pending_of_submission s clientId agentId message now s1 resp p :
  chat_post s clientId agentId message now = (s1, resp, Some p) →
  resp = message_sent (p_messageId p) ∧
  has_message s1 (p_messageId p) ∧
  p_clientId p = clientId ∧ p_agentId p = agentId ∧
  p_timeout p = 10000 ∧
  p_body p =
    WebhookPayload message clientId agentId (p_messageId p) (iso_now now).
Proof.
  intros H. chat_cases H. simpl. repeat split.
  match goal with Hins : insert_message _ _ _ _ _ = _ |- _ =>
    destruct (inserted_has_message _ _ _ _ _ _ _ ltac:(done) Hins)
      as (key & _ & Hrow) end.
  eexists. split; [exact Hrow|done].
Qed.

Import Demo.

Lemma demo_submission :
  chat_post s_room 1 (AsInteger 10) hello noon
    = (s_sent, message_sent 1, Some call1).
Proof. vm_compute. reflexivity. Qed.

(** C1, as stated, fails: a reply [{response: ""}] carries a [response]
    field, yet what is persisted and delivered is the "received"
    placeholder, not the field's (empty) text. *)
Lemma empty_response_field_is_skipped :
  chat_post s_room 1 (AsInteger 10) hello noon
    = (s_sent, message_sent 1, Some call1) ∧
  get_prop (JObj [("response", JStr "")]) "response" = Some (JStr "") ∧
  messages (store (webhook_settle s_sent call1
                     (Fulfilled (JObj [("response", JStr "")]))))
    = [MessageRow 1 1 10 (Text "hello")
                  (Some (Text "Agent response received")) 1000] ∧
  sent (webhook_settle s_sent call1 (Fulfilled (JObj [("response", JStr "")])))
    = [(7%nat, AgentResponse 1 (AsInteger 10) (JStr "Agent response received"))] ∧
  ¬ persisted (webhook_settle s_sent call1
                 (Fulfilled (JObj [("response", JStr "")]))) 1 (Text "") ∧
  ¬ delivered (webhook_settle s_sent call1
                 (Fulfilled (JObj [("response", JStr "")]))) 7%nat
              (AgentResponse 1 (AsInteger 10) (JStr "")).
Proof.
  split; [exact demo_submission|].
  do 3 (split; [vm_compute; reflexivity|]).
  split.
  - intros [_ Hall].
    specialize (Hall (MessageRow 1 1 10 (Text "hello")
                        (Some (Text "Agent response received")) 1000)).
    discriminate Hall; [vm_compute; apply list_elem_of_here | reflexivity].
  - unfold delivered. vm_compute.
    intros Hin. apply list_elem_of_singleton in Hin. discriminate Hin.
Qed.

(** A reply whose body is [null] makes the [.then] continuation throw on
    [response.data.response]; the [.catch] continuation then resolves the
    message with the unavailability text. *)
Example null_reply_body_reaches_catch :
  response_text JNull = None ∧
  map m_response (messages (store (webhook_settle s_sent call1 (Fulfilled JNull))))
    = [Some (pg_text unavailable_text)].
Proof. split; vm_compute; reflexivity. Qed.

(** A reply whose text holds U+0000 makes the update of the [.then]
    continuation raise; the [.catch] continuation runs, and what socket 7
    receives and what the row holds is the unavailability text. *)
Example unstorable_reply_reaches_catch :
  response_text broken_reply = Some (JStr broken) ∧
  on_reply s_sent call1 broken_reply = None ∧
  sent (webhook_settle s_sent call1 (Fulfilled broken_reply))
    = [(7%nat, AgentResponse 1 (AsInteger 10) unavailable_text)] ∧
  map m_response (messages (store (webhook_settle s_sent call1
                                     (Fulfilled broken_reply))))
    = [Some (pg_text unavailable_text)].
Proof. repeat split; vm_compute; reflexivity. Qed.

(** C1 (amended): for every accepted submission whose webhook call is
    fulfilled with a reply body on which property access succeeds, a text
    is chosen by truthiness: the [response] field if it is truthy (for a
    string: non-empty), else the [message] field if it is truthy, else
    "Agent response received".  If the store takes the chosen text (it
    holds no U+0000), it is what is persisted on the message row and what
    is delivered to the client's room; if not, the unavailability text is
    persisted and delivered instead.  In particular [{response: "X"}] and
    [{message: "X"}] with a non-empty [X] free of U+0000 both give ["X"]. *)
Theorem reply_text_precedence s clientId agentId message now s1 resp p :
  chat_post s clientId agentId message now = (s1, resp, Some p) →
  has_message s1 (p_messageId p) ∧
  p_clientId p = clientId ∧ p_agentId p = agentId ∧
  (∀ s2 data r m,
      get_prop data "response" = Some r →
      get_prop data "message" = Some m →
      ∀ chosen,
        chosen = (if truthy r then r else if truthy m then m else received_text) →
        resolves_with s2 p (Fulfilled data)
          (if sends_nul chosen then unavailable_text else chosen)) ∧
  (∀ s2 X, X ≠ "" → has_nul X = false →
      resolves_with s2 p (Fulfilled (JObj [("response", JStr X)])) (JStr X)) ∧
  (∀ s2 X, X ≠ "" → has_nul X = false →
      resolves_with s2 p (Fulfilled (JObj [("message", JStr X)])) (JStr X)) ∧
  (∀ s2 X, has_nul X = true →
      resolves_with s2 p (Fulfilled (JObj [("response", JStr X)])) unavailable_text ∧
      resolves_with s2 p (Fulfilled (JObj [("message", JStr X)])) unavailable_text).
Proof.
  intros H. apply pending_of_submission in H as (_ & Hrow & Hc & Ha & _).
  do 3 (split; [done|]).
  assert (Hgen : ∀ s2 data r m,
      get_prop data "response" = Some r →
      get_prop data "message" = Some m →
      ∀ chosen,
        chosen = (if truthy r then r else if truthy m then m else received_text) →
        resolves_with s2 p (Fulfilled data)
          (if sends_nul chosen then unavailable_text else chosen)).
  { intros s2 data r m Hr Hm chosen ->.
    pose proof (settle_resolves_with s2 p (Fulfilled data)) as Hs.
    simpl in Hs. by rewrite (response_text_fields data r m Hr Hm) in Hs. }
  split; [exact Hgen|].
  assert (Hnul : ∀ X, has_nul X = true → X ≠ "").
  { by intros X HX ->. }
  split; [|split].
  - intros s2 X HX Hn.
    pose proof (Hgen s2 (JObj [("response", JStr X)]) (JStr X) JUndefined
                  eq_refl eq_refl _ eq_refl) as Hs.
    rewrite (truthy_nonempty X HX) in Hs. simpl in Hs. by rewrite Hn in Hs.
  - intros s2 X HX Hn.
    pose proof (Hgen s2 (JObj [("message", JStr X)]) JUndefined (JStr X)
                  eq_refl eq_refl _ eq_refl) as Hs.
    simpl (truthy JUndefined) in Hs. cbv iota in Hs.
    rewrite (truthy_nonempty X HX) in Hs. simpl in Hs. by rewrite Hn in Hs.
  - intros s2 X Hn. split.
    + pose proof (Hgen s2 (JObj [("response", JStr X)]) (JStr X) JUndefined
                    eq_refl eq_refl _ eq_refl) as Hs.
      rewrite (truthy_nonempty X (Hnul X Hn)) in Hs. simpl in Hs.
      by rewrite Hn in Hs.
    + pose proof (Hgen s2 (JObj [("message", JStr X)]) JUndefined (JStr X)
                    eq_refl eq_refl _ eq_refl) as Hs.
      simpl (truthy JUndefined) in Hs. cbv iota in Hs.
      rewrite (truthy_nonempty X (Hnul X Hn)) in Hs. simpl in Hs.
      by rewrite Hn in Hs.
Qed.

(** The scenario of the specification: agent 10 answers
    [{response: "hi there"}] while socket 7 is in client 1's room. *)
Lemma reply_text_precedence_witness :
  persisted (webhook_settle s_sent call1 (Fulfilled hi_there)) 1 (Text "hi there") ∧
  delivered (webhook_settle s_sent call1 (Fulfilled hi_there)) 7%nat
            (AgentResponse 1 (AsInteger 10) (JStr "hi there")).
Proof.
  destruct (reply_text_precedence s_room 1 (AsInteger 10) hello noon s_sent
              (message_sent 1) call1)
    as (Hrow & _ & _ & _ & Hresp & _); [vm_compute; reflexivity|].
  destruct (Hresp s_sent "hi there") as [Hp Hd]; [discriminate|reflexivity|].
  split.
  - apply Hp. exact Hrow.
  - apply Hd. vm_compute. reflexivity.
Defined.

(** C2: when the promise of the webhook call of an accepted submission is
    rejected (for a timeout, a connection error, a status the library
    does not accept), or its [.then] continuation throws, the
    unavailability text is what is persisted and delivered; the HTTP
    response to the submission was already the success acknowledgement
    with the message id, and does not depend on how the call settles. *)
Theorem forwarder_failure_becomes_reply s clientId agentId message now s1 resp p :
  chat_post s clientId agentId message now = (s1, resp, Some p) →
  resp = message_sent (p_messageId p) ∧
  status resp = 200 ∧
  has_message s1 (p_messageId p) ∧
  p_clientId p = clientId ∧ p_agentId p = agentId ∧
  (∀ s2 o, (∀ data, o ≠ Fulfilled data) →
           resolves_with s2 p o unavailable_text) ∧
  (∀ s2 err, webhook_settle s2 p (Rejected err) = on_error s2 p) ∧
  (∀ s2 data, on_reply s2 p data = None →
              webhook_settle s2 p (Fulfilled data) = on_error s2 p ∧
              resolves_with s2 p (Fulfilled data) unavailable_text).
Proof.
  intros H. apply pending_of_submission in H as (-> & Hrow & Hc & Ha & Ht & _).
  do 5 (split; [done|]).
  split; [|split].
  - intros s2 o Hfail.
    destruct o as [data | err]; [by destruct (Hfail data)|].
    apply (settle_resolves_with s2 p (Rejected err)).
  - done.
  - intros s2 data Hthrow. split; [simpl; by rewrite Hthrow|].
    unfold resolves_with. simpl. rewrite Hthrow.
    apply (settle_resolves_with s2 p (Rejected ETimeout)).
Qed.

(** The second scenario of the specification: the webhook never answers. *)
Lemma forwarder_failure_becomes_reply_witness :
  status (message_sent 1) = 200 ∧
  persisted (webhook_settle s_sent call1 (Rejected ETimeout))
            1 (pg_text unavailable_text) ∧
  delivered (webhook_settle s_sent call1 (Rejected ETimeout)) 7%nat
            (AgentResponse 1 (AsInteger 10) unavailable_text).
Proof.
  destruct (forwarder_failure_becomes_reply s_room 1 (AsInteger 10) hello noon
              s_sent (message_sent 1) call1)
    as (_ & Hst & Hrow & _ & _ & Hfail & _); [vm_compute; reflexivity|].
  destruct (Hfail s_sent (Rejected ETimeout)) as [Hp Hd]; [discriminate|].
  split; [exact Hst|]. split.
  - apply Hp. exact Hrow.
  - apply Hd. vm_compute. reflexivity.
Defined.

(** The two end-to-end scenarios, evaluated: the acknowledgement, the
    event socket 7 receives, and the history afterwards. *)
Example scenario_answered :
  (chat_post s_room 1 (AsInteger 10) hello noon).1.2 = message_sent 1 ∧
  sent s_answered = [(7%nat, AgentResponse 1 (AsInteger 10) (JStr "hi there"))] ∧
  chat_history s_answered 1 (AsInteger 10)
    = inr [MessageRow 1 1 10 (Text "hello") (Some (Text "hi there")) 1000].
Proof. repeat split; vm_compute; reflexivity. Qed.

Example scenario_timed_out :
  sent (webhook_settle s_sent call1 (Rejected ETimeout))
    = [(7%nat, AgentResponse 1 (AsInteger 10) unavailable_text)] ∧
  chat_history (webhook_settle s_sent call1 (Rejected ETimeout)) 1 (AsInteger 10)
    = inr [MessageRow 1 1 10 (Text "hello") (Some (pg_text unavailable_text)) 1000].
Proof. repeat split; vm_compute; reflexivity. Qed.

(** ** Submissions that need no webhook, and submissions that are refused *)

Lemma has_client_iff d id :
  has_client d id ↔ ∃ c, c ∈ clients d ∧ c_id c = id.
Proof.
  unfold has_client. rewrite bool_decide_spec, Exists_exists. done.
Qed.

Lemma has_agent_iff d id :
  has_agent d id ↔ ∃ a, a ∈ agents d ∧ a_id a = id.
Proof.
  unfold has_agent. rewrite bool_decide_spec, Exists_exists. done.
Qed.

Lemma fk_ok_has_client d agent agentId clientId :
  fk_ok d →
  getRow <$> select_agent d agentId clientId = Some (Some agent) →
  ∃ key, agentId = AsInteger key ∧ in_int4 key = true ∧
         in_int4 clientId = true ∧
         has_client d clientId = true ∧ has_agent d key = true.
Proof.
  intros [Hag _] (key & -> & Hk & Hc & Hin & Hid & Hcl)%found_agent.
  exists key. do 3 (split; [done|]). split.
  - rewrite Forall_forall in Hag. specialize (Hag _ Hin).
    rewrite Hcl in Hag. by apply Is_true_true.
  - apply Is_true_true, has_agent_iff. by exists agent.
Qed.

(** An accepted insert, spelled out. *)
Lemma insert_message_accepts d clientId key message now :
  in_int4 clientId = true → in_int4 key = true →
  storable message → in_int4 (messages_id_seq d) = true →
  has_client d clientId = true → has_agent d key = true →
  insert_message d clientId (AsInteger key) message now =
    (Store (clients d) (agents d)
           (messages d ++ [MessageRow (messages_id_seq d) clientId key
                                      (pg_text message) None now])
           (messages_id_seq d + 1),
     Some (messages_id_seq d)).
Proof.
  intros Hc Hk Hs Hseq Hhc Hha. unfold insert_message.
  rewrite (pg_int4_in_range _ Hk). unfold bind_int. rewrite Hc, Hs, Hseq.
  simpl. by rewrite Hhc, Hha.
Qed.

(** C3, as stated, fails: a non-empty message whose text holds U+0000,
    sent to the caller's active agent 11 that has no webhook, is not
    answered with the placeholder.  The insert raises, the route answers
    500, no row is created and nothing is pushed to socket 7. *)
Lemma unstorable_message_is_refused :
  truthy (JStr broken) = true ∧
  getRow <$> select_agent (store s_room) (AsInteger 11) 1
    = Some (Some (AgentRow 11 1 "Draft" None None (Some true))) ∧
  chat_post s_room 1 (AsInteger 11) (JStr broken) noon
    = (s_room, json_error 500 "Database error", None) ∧
  messages (store s_room) = [] ∧
  sent s_room = [] ∧
  (∀ messageId, json_error 500 "Database error" ≠ message_sent messageId).
Proof. repeat split; try (vm_compute; reflexivity). discriminate. Qed.

(** C3 (amended): a non-empty message that the store takes (its text
    holds no U+0000), sent while the id sequence is not used up to an
    active agent of the caller that has no webhook (the column is [NULL]
    or empty), is answered on the spot: the row is inserted, the "not
    configured" text is written to it and broadcast to the client's room,
    and no outbound call is made.  The HTTP response holds the message id
    and the acknowledgement, and nothing else. *)
Theorem no_webhook_placeholder s clientId agentId message now agent :
  fk_ok (store s) →
  truthy message = true →
  storable message →
  in_int4 (messages_id_seq (store s)) = true →
  getRow <$> select_agent (store s) agentId clientId = Some (Some agent) →
  is_active agent = true →
  webhook_of agent = None →
  ∃ s1 messageId key,
    chat_post s clientId agentId message now
      = (s1, message_sent messageId, None) ∧
    messageId = messages_id_seq (store s) ∧
    agentId = AsInteger key ∧
    MessageRow messageId clientId key (pg_text message)
               (Some (pg_text no_webhook_text)) (db_now now)
      ∈ messages (store s1) ∧
    persisted s1 messageId (pg_text no_webhook_text) ∧
    sent s1 =
      sent s ++ map (fun k => (k, AgentResponse messageId agentId no_webhook_text))
                    (elements (members s (client_room (JNum clientId)))) ∧
    trace s1 =
      trace s ++ [EInsertMessage messageId;
                  EUpdateResponse messageId no_webhook_text;
                  EEmit (client_room (JNum clientId))
                        (AgentResponse messageId agentId no_webhook_text)] ∧
    webhook_posts (trace s1) = webhook_posts (trace s) ∧
    body (message_sent messageId) =
      JObj [("messageId", JNum messageId);
            ("message", JStr "Message sent successfully")] ∧
    JNum messageId ≠ no_webhook_text ∧
    JStr "Message sent successfully" ≠ no_webhook_text.
Proof.
  intros Hfk Hm Hst Hseq Hag Hact Hurl.
  destruct (fk_ok_has_client _ _ _ _ Hfk Hag) as (key & -> & Hk & Hcr & Hc & Ha).
  pose proof (insert_message_accepts (store s) clientId key message (db_now now)
                Hcr Hk Hst Hseq Hc Ha) as Hins.
  set (mid := messages_id_seq (store s)) in *.
  set (row := MessageRow mid clientId key (pg_text message) None (db_now now)) in *.
  eexists. exists mid, key.
  split.
  { unfold chat_post. rewrite Hm. simpl negb. cbv iota.
    unfold fmap, option_fmap, option_map in Hag.
    destruct (select_agent (store s) (AsInteger key) clientId) as [rows|]; [|done].
    injection Hag as ->. rewrite Hact. simpl negb. cbv iota.
    rewrite Hins. cbv zeta. rewrite Hurl.
    rewrite resolve_storable by apply no_webhook_text_storable. reflexivity. }
  assert (Hrow : row ∈ messages (store (log (EInsertMessage mid)
            (with_store (Store (clients (store s)) (agents (store s))
                           (messages (store s) ++ [row]) (mid + 1)) s)))).
  { simpl. apply elem_of_app. right. by apply list_elem_of_singleton. }
  split; [done|]. split; [done|].
  split; [exact (resolved_row_updated _ _ _ _ _ row Hrow eq_refl)|].
  split; [apply resolved_persisted; by exists row|].
  split; [by rewrite resolved_sent|].
  split; [rewrite resolved_trace; simpl; by rewrite <- app_assoc|].
  split.
  { rewrite resolved_trace. simpl. unfold webhook_posts.
    rewrite !filter_app. simpl. by rewrite !app_nil_r. }
  split; [done|]. split; discriminate.
Qed.

Lemma db0_fk_ok : fk_ok db0.
Proof. split; repeat constructor. Qed.

(** Client 1 writes to its unconnected agent 11 while socket 7 listens. *)
Lemma no_webhook_placeholder_witness :
  ∃ s1,
    chat_post s_room 1 (AsInteger 11) hello noon = (s1, message_sent 1, None) ∧
    persisted s1 1 (pg_text no_webhook_text) ∧
    sent s1 = [(7%nat, AgentResponse 1 (AsInteger 11) no_webhook_text)] ∧
    webhook_posts (trace s1) = [].
Proof.
  destruct (no_webhook_placeholder s_room 1 (AsInteger 11) hello noon
              (AgentRow 11 1 "Draft" None None (Some true)))
    as (s1 & mid & key & Hpost & -> & _ & _ & Hp & Hsent & _ & Hposts & _);
    [exact db0_fk_ok | reflexivity | reflexivity | reflexivity
    | vm_compute; reflexivity | reflexivity | reflexivity |].
  exists s1. split; [exact Hpost|]. split; [exact Hp|].
  split; [rewrite Hsent; vm_compute; reflexivity | exact Hposts].
Defined.

(** C4, as stated, fails: a submission without message text addressed to an
    agent that does not exist (99), or to another client's agent (20), is
    refused with the validation error of the first test, not with
    not-found. *)
Lemma missing_text_is_checked_before_agent :
  select_agent db0 (AsInteger 99) 1 = Some [] ∧
  chat_post s0 1 (AsInteger 99) JUndefined noon
    = (s0, json_error 400 "Message required", None) ∧
  select_agent db0 (AsInteger 20) 1 = Some [] ∧
  chat_post s0 1 (AsInteger 20) (JStr "") noon
    = (s0, json_error 400 "Message required", None) ∧
  json_error 400 "Message required" ≠ json_error 404 "Agent not found".
Proof. repeat split; try (vm_compute; reflexivity). discriminate. Qed.

(** An agent id that is no such agent's for another reason: the segment
    is not an integer, or it does not fit 32 bits.  The [SELECT] raises
    and the answer is 500, not not-found. *)
Example unreadable_agent_id_is_500 :
  chat_post s0 1 NotInteger hello noon
    = (s0, json_error 500 "Database error", None) ∧
  chat_post s0 1 (AsInteger 4294967296) hello noon
    = (s0, json_error 500 "Database error", None) ∧
  chat_history s0 1 (AsInteger 4294967296)
    = inl (json_error 500 "Database error").
Proof. repeat split; vm_compute; reflexivity. Qed.

(** A refusal changes no table, no room, no push and no trace. *)
Lemma refusal_leaves_state s clientId agentId message now s1 resp call :
  chat_post s clientId agentId message now = (s1, resp, call) →
  status resp ≠ 200 →
  clients (store s1) = clients (store s) ∧
  agents (store s1) = agents (store s) ∧
  messages (store s1) = messages (store s) ∧
  rooms s1 = rooms s ∧ sent s1 = sent s ∧ trace s1 = trace s ∧
  call = None ∧
  (status resp ≠ 500 → s1 = s).
Proof.
  intros H Hst. chat_cases H; try done.
  match goal with Hins : insert_message _ _ _ _ _ = _ |- _ =>
    apply insert_message_raises in Hins as (? & ? & ? & _) end.
  simpl. done.
Qed.

(** C4 (amended): a submission that is refused creates no row: the three
    tables, the rooms, the pushes and the trace are as they were, and
    unless the answer is 500 the whole state is.  With a non-empty message
    text and an agent id that reads as a 32-bit integer, an agent that
    does not exist or belongs to another client gives 404 "Agent not
    found", and an inactive agent of the caller gives 400 "Agent is not
    active".  Without message text the answer is 400 "Message required"
    whatever the agent; with a text and an agent id that is no 32-bit
    integer it is 500 "Database error". *)
Theorem refused_before_insert s clientId agentId message now :
  (∀ s1 resp call,
      chat_post s clientId agentId message now = (s1, resp, call) →
      status resp ≠ 200 →
      clients (store s1) = clients (store s) ∧
      agents (store s1) = agents (store s) ∧
      messages (store s1) = messages (store s) ∧
      rooms s1 = rooms s ∧ sent s1 = sent s ∧ trace s1 = trace s ∧
      call = None ∧
      (status resp ≠ 500 → s1 = s)) ∧
  (truthy message = true →
   in_int4 clientId = true →
   ∀ key, agentId = AsInteger key → in_int4 key = true →
   (¬ ∃ ag, ag ∈ agents (store s) ∧ a_id ag = key ∧ a_client_id ag = clientId) →
   chat_post s clientId agentId message now
     = (s, json_error 404 "Agent not found", None)) ∧
  (truthy message = true →
   ∀ agent,
     getRow <$> select_agent (store s) agentId clientId = Some (Some agent) →
     is_active agent = false →
     chat_post s clientId agentId message now
       = (s, json_error 400 "Agent is not active", None)) ∧
  (truthy message = false →
   chat_post s clientId agentId message now
     = (s, json_error 400 "Message required", None)) ∧
  (truthy message = true →
   pg_int4 agentId = None →
   chat_post s clientId agentId message now
     = (s, json_error 500 "Database error", None)).
Proof.
  split; [|split; [|split; [|split]]].
  - intros s1 resp call H Hst. by eapply refusal_leaves_state.
  - intros Hm Hc key -> Hk Hno. unfold chat_post. rewrite Hm. simpl.
    pose proof (no_agent_found (store s) key clientId Hk Hc Hno) as Hsel.
    destruct (select_agent (store s) (AsInteger key) clientId) as [rows|]; [|done].
    simpl in Hsel. injection Hsel as ->. done.
  - intros Hm agent Hag Hact. unfold chat_post. rewrite Hm. simpl.
    destruct (select_agent (store s) agentId clientId) as [rows|]; [|done].
    simpl in Hag. injection Hag as ->. by rewrite Hact.
  - intros Hm. unfold chat_post. by rewrite Hm.
  - intros Hm Hbad. unfold chat_post. rewrite Hm. simpl.
    unfold select_agent. by rewrite Hbad.
Qed.

(** Client 2 writes to client 1's agent 10; client 1 writes to its
    deactivated agent 12, and to an agent id that is no integer. *)
Lemma refused_before_insert_witness :
  chat_post s0 2 (AsInteger 10) hello noon
    = (s0, json_error 404 "Agent not found", None) ∧
  chat_post s0 1 (AsInteger 12) hello noon
    = (s0, json_error 400 "Agent is not active", None) ∧
  messages (store (chat_post s0 1 (AsInteger 12) hello noon).1.1)
    = messages (store s0) ∧
  chat_post s0 1 NotInteger hello noon
    = (s0, json_error 500 "Database error", None).
Proof.
  split; [|split; [|split]].
  - destruct (refused_before_insert s0 2 (AsInteger 10) hello noon)
      as (_ & Hnf & _).
    apply (Hnf eq_refl eq_refl 10 eq_refl eq_refl).
    intros (ag & Hin & Hid & Hc). simpl in Hin.
    repeat (apply elem_of_cons in Hin as [-> | Hin]; [discriminate|]).
    by apply elem_of_nil in Hin.
  - destruct (refused_before_insert s0 1 (AsInteger 12) hello noon)
      as (_ & _ & Hin & _).
    apply (Hin eq_refl (AgentRow 12 1 "Retired" None (Some hook) (Some false)));
      [vm_compute; reflexivity | reflexivity].
  - destruct (refused_before_insert s0 1 (AsInteger 12) hello noon) as (Hsame & _).
    apply (Hsame _ (json_error 400 "Agent is not active") None);
      [vm_compute; reflexivity | discriminate].
  - destruct (refused_before_insert s0 1 NotInteger hello noon)
      as (_ & _ & _ & _ & Hbad).
    apply Hbad; reflexivity.
Defined.

(** ** The trace of a settlement *)

Lemma settle_trace s p o :
  trace (webhook_settle s p o) =
  trace s ++ [EUpdateResponse (p_messageId p) (settled_text o);
              EEmit (client_room (JNum (p_clientId p)))
                    (AgentResponse (p_messageId p) (p_agentId p) (settled_text o))].
Proof. rewrite webhook_settle_resolved. apply resolved_trace. Qed.

Lemma settle_has_message s p o :
  has_message s (p_messageId p) →
  has_message (webhook_settle s p o) (p_messageId p).
Proof. intros H. by apply (settle_resolves_with s p o). Qed.

(** The update half of a resolution, as a state of its own. *)
Lemma resolved_in_two_steps s clientId agentId messageId text :
  storable text →
  ∃ s_upd,
    query_update_response s text messageId = Some s_upd ∧
    rooms s_upd = rooms s ∧ sent s_upd = sent s ∧
    trace s_upd = trace s ++ [EUpdateResponse messageId text] ∧
    (has_message s messageId → persisted s_upd messageId (pg_text text)) ∧
    resolved s clientId agentId messageId text
      = io_emit s_upd (client_room (JNum clientId))
                (AgentResponse messageId agentId text).
Proof.
  intros Hst. unfold query_update_response, update_response. rewrite Hst. simpl.
  eexists. split; [reflexivity|]. do 3 (split; [done|]). split; [|done].
  intros Hrow.
  destruct (resolved_persisted s clientId agentId messageId text Hrow)
    as [Hhas Hall].
  split; [exact Hhas | exact Hall].
Qed.

(** ** Order of the relay's effects *)

Lemma chat_post_trace s clientId agentId message now :
  ∃ l, trace (chat_post s clientId agentId message now).1.1 = trace s ++ l.
Proof.
  destruct (chat_post s clientId agentId message now) as [[s1 resp] call] eqn:H.
  chat_cases H; cbn [fst].
  1-5: exists []; by rewrite app_nil_r.
  - eexists. simpl. by rewrite <- app_assoc.
  - eexists. rewrite resolved_trace. simpl. by rewrite <- !app_assoc.
Qed.

Lemma delete_client_route_cases s id :
  (delete_client_route s id).1 = s ∨
  ∃ key, pg_int4 id = Some key ∧
         (delete_client_route s id).1
           = with_store (cascade_client (store s) key).1 s.
Proof.
  unfold delete_client_route, select_client, delete_client.
  destruct (pg_int4 id) as [key|]; simpl; [|by left].
  destruct (getRow (client_rows (store s) key)); [|by left].
  right. exists key. split; [done|].
  by destruct (map c_id (deleted_clients (store s) key)).
Qed.

Lemma delete_agent_route_cases s clientId id :
  (delete_agent_route s clientId id).1 = s ∨
  ∃ key, pg_int4 id = Some key ∧ in_int4 clientId = true ∧
         (delete_agent_route s clientId id).1
           = with_store (cascade_agent (store s) key clientId).1 s.
Proof.
  unfold delete_agent_route, delete_agent.
  destruct (pg_int4 id) as [key|]; simpl; [|by left].
  destruct (bind_int clientId) as [c|] eqn:Hc; simpl; [|by left].
  apply bind_int_Some in Hc as [Hc ->].
  right. exists key. do 2 (split; [done|]).
  by destruct (map a_id (deleted_agents (store s) key clientId)).
Qed.

Lemma delete_client_route_trace s id :
  trace (delete_client_route s id).1 = trace s.
Proof.
  by destruct (delete_client_route_cases s id) as [-> | (key & _ & ->)].
Qed.

Lemma delete_agent_route_trace s clientId id :
  trace (delete_agent_route s clientId id).1 = trace s.
Proof.
  by destruct (delete_agent_route_cases s clientId id) as [-> | (key & _ & _ & ->)].
Qed.

Lemma step_trace s a : ∃ l, trace (step s a) = trace s ++ l.
Proof.
  destruct a; simpl.
  - apply chat_post_trace.
  - eexists. apply settle_trace.
  - exists []. by rewrite app_nil_r.
  - exists []. by rewrite app_nil_r.
  - exists []. by rewrite delete_client_route_trace, app_nil_r.
  - exists []. by rewrite delete_agent_route_trace, app_nil_r.
Qed.

(** Handlers only ever append to the trace. *)
Lemma run_trace acts : ∀ s, ∃ l, trace (run s acts) = trace s ++ l.
Proof.
  induction acts as [|a acts IH]; intros s; simpl.
  - exists []. by rewrite app_nil_r.
  - destruct (IH (step s a)) as [l2 Hl2], (step_trace s a) as [l1 Hl1].
    exists (l1 ++ l2). by rewrite Hl2, Hl1, app_assoc.
Qed.

(** The id of a new row is one that no row has. *)
Lemma fresh_id_unused s :
  pk_ok (store s) → ¬ has_message s (messages_id_seq (store s)).
Proof.
  intros [_ Hlt] (r & Hr & Hid). rewrite Forall_forall in Hlt.
  specialize (Hlt r Hr). lia.
Qed.

Lemma inserted_unanswered s d clientId agentId message now messageId :
  pk_ok (store s) →
  insert_message (store s) clientId agentId message now = (d, Some messageId) →
  unanswered (inserted s d messageId) messageId.
Proof.
  intros [_ Hlt] Hins. rewrite Forall_forall in Hlt.
  apply insert_message_inv in Hins
    as (key & text & _ & _ & _ & _ & -> & _ & _ & _ & _ & _ & Hrows & _).
  split.
  - eexists. split; [simpl; rewrite Hrows; apply elem_of_app; right;
                     apply list_elem_of_singleton; reflexivity | done].
  - simpl. rewrite Hrows.
    intros r [Hr | ->%list_elem_of_singleton]%elem_of_app Hid; [|done].
    specialize (Hlt r Hr). lia.
Qed.


(** ** What every turn keeps: the primary key, the account of resolutions *)

Lemma count_if_app {A} (f : A → bool) (l1 l2 : list A) :
  count_if f (l1 ++ l2) = (count_if f l1 + count_if f l2)%nat.
Proof. induction l1 as [|x l1 IH]; simpl; [done|]. rewrite IH. lia. Qed.

Lemma count_if_delete {A} (f : A → bool) (l : list A) : ∀ i x,
  l !! i = Some x →
  count_if f l = (count_if f (delete i l) + if f x then 1 else 0)%nat.
Proof.
  induction l as [|y l IH]; intros i x Hi; [done|].
  destruct i as [|i]; simpl in Hi.
  - injection Hi as ->. simpl. lia.
  - change (delete (S i) (y :: l)) with (y :: delete i l). simpl.
    rewrite (IH i x Hi). lia.
Qed.

Lemma count_if_elem {A} (f : A → bool) (l : list A) x :
  x ∈ l → f x = true → (1 ≤ count_if f l)%nat.
Proof.
  induction l as [|y l IH]; intros Hin Hf; [by apply elem_of_nil in Hin|].
  apply elem_of_cons in Hin as [<- | Hin]; simpl.
  - rewrite Hf. lia.
  - specialize (IH Hin Hf). lia.
Qed.

Lemma with_store_same s : with_store (store s) s = s.
Proof. by destruct s. Qed.

Lemma write_response_ids d text messageId :
  map m_id (messages (write_response d text messageId)) = map m_id (messages d).
Proof.
  simpl. rewrite <- list_fmap_compose. apply list_fmap_ext.
  intros i r _. simpl. by case_bool_decide.
Qed.

Lemma write_response_pk_ok d text messageId :
  pk_ok d → pk_ok (write_response d text messageId).
Proof.
  intros [Hnd Hlt]. split.
  - by rewrite write_response_ids.
  - simpl. apply Forall_fmap. eapply Forall_impl; [exact Hlt|].
    intros r Hr. simpl. by case_bool_decide.
Qed.

Lemma insert_message_pk_ok d clientId agentId message now d' result :
  insert_message d clientId agentId message now = (d', result) →
  pk_ok d → pk_ok d'.
Proof.
  intros Hins [Hnd Hlt]. destruct result as [messageId|].
  - apply insert_message_inv in Hins
      as (key & text & _ & _ & _ & _ & -> & _ & _ & _ & _ & _ & Hrows & Hseq).
    split.
    + rewrite Hrows, fmap_app. simpl. apply NoDup_app. split; [done|]. split.
      * intros x Hx Hx'. apply list_elem_of_singleton in Hx'. subst x.
        apply list_elem_of_fmap in Hx as (r & Hid & Hr).
        rewrite Forall_forall in Hlt. specialize (Hlt r Hr). lia.
      * apply NoDup_singleton.
    + rewrite Hrows, Hseq. apply Forall_app. split.
      * eapply Forall_impl; [exact Hlt|]. intros r Hr. simpl in *. lia.
      * repeat constructor. simpl. lia.
  - apply insert_message_raises in Hins as (_ & _ & Hrows & Hseq).
    split; rewrite Hrows; [done|].
    eapply Forall_impl; [exact Hlt|]. intros r Hr. simpl in *. lia.
Qed.

Lemma filter_rows_pk_ok d d' (P : message_row → Prop) `{∀ r, Decision (P r)} :
  messages d' = filter P (messages d) →
  messages_id_seq d' = messages_id_seq d →
  pk_ok d → pk_ok d'.
Proof.
  intros Hrows Hseq [Hnd Hlt]. split.
  - rewrite Hrows.
    eapply sublist_NoDup; [exact Hnd|].
    apply fmap_sublist, sublist_filter.
  - rewrite Hrows, Hseq. apply Forall_forall.
    intros r [_ Hr]%list_elem_of_filter.
    rewrite Forall_forall in Hlt. by apply Hlt.
Qed.

Lemma step_pk_ok s a : pk_ok (store s) → pk_ok (store (step s a)).
Proof.
  intros Hpk. destruct a; simpl; try done.
  - destruct (chat_post s clientId agentId message now) as [[s1 resp] call] eqn:H.
    chat_cases H; cbn [fst]; try done.
    + simpl. by eapply insert_message_pk_ok.
    + simpl. by eapply insert_message_pk_ok.
    + rewrite resolved_store. apply write_response_pk_ok. simpl.
      by eapply insert_message_pk_ok.
  - rewrite webhook_settle_resolved, resolved_store.
    by apply write_response_pk_ok.
  - destruct (delete_client_route_cases s id) as [-> | (key & _ & ->)]; [done|].
    by eapply (filter_rows_pk_ok (store s)).
  - destruct (delete_agent_route_cases s clientId id)
      as [-> | (key & _ & _ & ->)]; [done|].
    by eapply (filter_rows_pk_ok (store s)).
Qed.

Lemma run_pk_ok acts : ∀ s, pk_ok (store s) → pk_ok (store (run s acts)).
Proof.
  induction acts as [|a acts IH]; intros s Hpk; simpl; [done|].
  by apply IH, step_pk_ok.
Qed.

Lemma pk_ok_same_id d r r' :
  pk_ok d → r ∈ messages d → r' ∈ messages d → m_id r' = m_id r → r' = r.
Proof.
  intros [Hnd _] Hr Hr' Hid.
  apply list_elem_of_lookup in Hr as [i Hi].
  apply list_elem_of_lookup in Hr' as [j Hj].
  assert (i = j) as ->.
  { eapply NoDup_lookup; [exact Hnd| |];
      rewrite list_lookup_fmap; [by rewrite Hi | by rewrite Hj; simpl; rewrite Hid]. }
  congruence.
Qed.

(** One turn of the tracked loop is one turn of the plain one, or none. *)
Lemma play_turn_srv n t :
  srv (play_turn n t) = srv n ∨ ∃ a, srv (play_turn n t) = step (srv n) a.
Proof.
  destruct t; simpl.
  - right. by exists (AChat clientId agentId message now).
  - destruct (inflight n !! i) as [p|]; [|by left].
    right. by exists (ASettle p o).
  - right. by exists (AJoin sock clientId).
  - right. by exists (ADisconnect sock).
  - right. by exists (ADeleteClient id).
  - right. by exists (ADeleteAgent clientId id).
Qed.

Lemma play_srv turns : ∀ n, ∃ acts, srv (play n turns) = run (srv n) acts.
Proof.
  induction turns as [|t turns IH]; intros n; simpl; [by exists []|].
  destruct (IH (play_turn n t)) as [acts Hacts].
  destruct (play_turn_srv n t) as [Hsame | [a Ha]].
  - exists acts. by rewrite Hacts, Hsame.
  - exists (a :: acts). by rewrite Hacts, Ha.
Qed.

Lemma play_snoc n turns t : play n (turns ++ [t]) = play_turn (play n turns) t.
Proof. unfold play. by rewrite fold_left_app. Qed.

(** *** At most one resolution per message *)

(** A turn that neither resolves nor starts anything keeps the account. *)
Lemma resolved_once_same n n' :
  (∀ m, accounted n' m = accounted n m) →
  messages_id_seq (store (srv n)) ≤ messages_id_seq (store (srv n')) →
  resolved_once n → resolved_once n'.
Proof.
  intros Hacc Hseq Hinv m. rewrite Hacc. destruct (Hinv m) as [Hle Hzero].
  split; [done|]. intros ?. apply Hzero. lia.
Qed.

(** A turn that uses the next id of the sequence, once. *)
Lemma resolved_once_fresh n n' :
  (∀ m, accounted n' m =
        (accounted n m
         + if bool_decide (messages_id_seq (store (srv n)) = m) then 1 else 0)%nat) →
  messages_id_seq (store (srv n')) = messages_id_seq (store (srv n)) + 1 →
  resolved_once n → resolved_once n'.
Proof.
  intros Hacc Hseq Hinv m. rewrite Hacc, Hseq.
  destruct (Hinv m) as [Hle Hzero].
  case_bool_decide as Hm.
  - rewrite Hzero by lia. split; [done|]. lia.
  - rewrite Nat.add_0_r. split; [done|]. intros ?. apply Hzero. lia.
Qed.

Lemma insert_message_seq d clientId agentId message now d' messageId :
  insert_message d clientId agentId message now = (d', Some messageId) →
  messageId = messages_id_seq d ∧
  messages_id_seq d' = messages_id_seq d + 1.
Proof.
  intros (key & text & _ & _ & _ & _ & -> & _ & _ & _ & _ & _ & _ & ->)%insert_message_inv.
  done.
Qed.

Lemma chat_turn_resolved_once n clientId agentId message now :
  resolved_once n →
  resolved_once (play_turn n (TChat clientId agentId message now)).
Proof.
  intros Hinv. simpl.
  destruct (chat_post (srv n) clientId agentId message now)
    as [[s1 resp] call] eqn:H.
  chat_cases H; cbn [fst snd option_list].
  1-4: apply (resolved_once_same n); [|done|done];
       intros m; unfold accounted; simpl; by rewrite app_nil_r.
  - match goal with Hins : insert_message _ _ _ _ _ = _ |- _ =>
      apply insert_message_raises in Hins as (_ & _ & _ & Hseq) end.
    apply (resolved_once_same n); [| |done].
    + intros m. unfold accounted. simpl. by rewrite app_nil_r.
    + simpl. lia.
  - match goal with Hins : insert_message _ _ _ _ _ = _ |- _ =>
      apply insert_message_seq in Hins as [-> Hseq] end.
    apply (resolved_once_fresh n); [|done|done].
    intros m. unfold accounted, resolutions, awaiting. simpl.
    rewrite !count_if_app. simpl. lia.
  - match goal with Hins : insert_message _ _ _ _ _ = _ |- _ =>
      apply insert_message_seq in Hins as [-> Hseq] end.
    apply (resolved_once_fresh n); [|done|done].
    intros m. unfold accounted, resolutions, awaiting. cbn [srv inflight].
    rewrite resolved_trace, ?app_nil_r. simpl.
    rewrite !count_if_app. simpl. lia.
Qed.

Lemma settle_turn_resolved_once n i o :
  resolved_once n → resolved_once (play_turn n (TSettle i o)).
Proof.
  intros Hinv. simpl.
  destruct (inflight n !! i) as [p|] eqn:Hi; [|done].
  apply (resolved_once_same n); [|by rewrite webhook_settle_resolved|done].
  intros m. unfold accounted, resolutions, awaiting. simpl.
  rewrite settle_trace, count_if_app.
  rewrite (count_if_delete _ (inflight n) i p Hi). simpl. lia.
Qed.

Lemma delete_client_route_seq s id :
  messages_id_seq (store (delete_client_route s id).1) = messages_id_seq (store s).
Proof.
  by destruct (delete_client_route_cases s id) as [-> | (key & _ & ->)].
Qed.

Lemma delete_agent_route_seq s clientId id :
  messages_id_seq (store (delete_agent_route s clientId id).1)
    = messages_id_seq (store s).
Proof.
  by destruct (delete_agent_route_cases s clientId id) as [-> | (key & _ & _ & ->)].
Qed.

Lemma play_turn_resolved_once n t :
  resolved_once n → resolved_once (play_turn n t).
Proof.
  intros Hinv. destruct t.
  - by apply chat_turn_resolved_once.
  - by apply settle_turn_resolved_once.
  - by apply (resolved_once_same n).
  - by apply (resolved_once_same n).
  - apply (resolved_once_same n); [| |done]; simpl.
    + intros m. unfold accounted. simpl. by rewrite delete_client_route_trace.
    + by rewrite delete_client_route_seq.
  - apply (resolved_once_same n); [| |done]; simpl.
    + intros m. unfold accounted. simpl. by rewrite delete_agent_route_trace.
    + by rewrite delete_agent_route_seq.
Qed.

Lemma play_resolved_once turns : ∀ n,
  resolved_once n → resolved_once (play n turns).
Proof.
  induction turns as [|t turns IH]; intros n Hinv; simpl; [done|].
  by apply IH, play_turn_resolved_once.
Qed.

Lemma boot_resolved_once d : resolved_once (boot d).
Proof.
  intros m. unfold accounted, resolutions, awaiting. simpl. split; [lia | done].
Qed.

(** What the account says about a call in flight: its id has been handed
    out, it has not been resolved, and no other call in flight has it. *)
Lemma awaiting_elem calls p :
  p ∈ calls → (1 ≤ awaiting calls (p_messageId p))%nat.
Proof.
  intros Hp. apply (count_if_elem _ calls p Hp). by apply bool_decide_eq_true_2.
Qed.

Lemma inflight_below_seq n p :
  resolved_once n → p ∈ inflight n →
  p_messageId p < messages_id_seq (store (srv n)).
Proof.
  intros Hinv Hp. destruct (Hinv (p_messageId p)) as [_ Hzero].
  pose proof (awaiting_elem _ _ Hp) as Hone.
  destruct (Z.lt_ge_cases (p_messageId p) (messages_id_seq (store (srv n))))
    as [|Hge]; [done|].
  specialize (Hzero Hge). unfold accounted in Hzero. lia.
Qed.

Lemma inflight_unresolved n p :
  resolved_once n → p ∈ inflight n →
  resolutions (trace (srv n)) (p_messageId p) = 0%nat.
Proof.
  intros Hinv Hp. destruct (Hinv (p_messageId p)) as [Hle _].
  pose proof (awaiting_elem _ _ Hp) as Hone.
  unfold accounted in Hle. lia.
Qed.

Lemma inflight_distinct n i p q :
  resolved_once n → inflight n !! i = Some p → q ∈ delete i (inflight n) →
  p_messageId q ≠ p_messageId p.
Proof.
  intros Hinv Hi Hq Heq. destruct (Hinv (p_messageId p)) as [Hle _].
  unfold accounted, awaiting in Hle.
  rewrite (count_if_delete _ (inflight n) i p Hi) in Hle.
  rewrite bool_decide_eq_true_2 in Hle by done.
  pose proof (count_if_elem (fun x => bool_decide (p_messageId x = p_messageId p))
                _ q Hq (bool_decide_eq_true_2 _ Heq)) as Hone.
  lia.
Qed.

Lemma elem_of_delete {A} (l : list A) i x : x ∈ delete i l → x ∈ l.
Proof.
  revert i. induction l as [|y l IH]; intros i; [by destruct i|].
  destruct i as [|i]; simpl.
  - intros ?. by right.
  - change (delete (S i) (y :: l)) with (y :: delete i l).
    intros [-> | ?]%elem_of_cons; [by left | right; by eapply IH].
Qed.

(** *** Where the rows of the next state come from *)

Lemma delete_client_route_rows s id r :
  r ∈ messages (store (delete_client_route s id).1) → r ∈ messages (store s).
Proof.
  destruct (delete_client_route_cases s id) as [-> | (key & _ & ->)]; [done|].
  simpl. by intros [_ ?]%list_elem_of_filter.
Qed.

Lemma delete_agent_route_rows s clientId id r :
  r ∈ messages (store (delete_agent_route s clientId id).1) →
  r ∈ messages (store s).
Proof.
  destruct (delete_agent_route_cases s clientId id)
    as [-> | (key & _ & _ & ->)]; [done|].
  simpl. by intros [_ ?]%list_elem_of_filter.
Qed.

(** After one turn of the tracked loop a row is one that was there, or
    carries the id the sequence was at, or continues the row of the call
    that has just settled. *)
Lemma turn_rows n t r' :
  r' ∈ messages (store (srv (play_turn n t))) →
  r' ∈ messages (store (srv n)) ∨
  m_id r' = messages_id_seq (store (srv n)) ∨
  ∃ p r0, p ∈ inflight n ∧ r0 ∈ messages (store (srv n)) ∧
          m_id r0 = p_messageId p ∧ m_id r' = m_id r0.
Proof.
  destruct t; simpl.
  - destruct (chat_post (srv n) clientId agentId message now)
      as [[s1 resp] call] eqn:H.
    chat_cases H; cbn [fst]; try (by left).
    + match goal with Hins : insert_message _ _ _ _ _ = _ |- _ =>
        apply insert_message_raises in Hins as (_ & _ & Hrows & _) end.
      simpl. rewrite Hrows. by left.
    + match goal with Hins : insert_message _ _ _ _ _ = _ |- _ =>
        apply insert_message_inv in Hins
          as (key & text & _ & _ & _ & _ & -> & _ & _ & _ & _ & _ & Hrows & _) end.
      simpl. rewrite Hrows.
      intros [? | ->%list_elem_of_singleton]%elem_of_app; [by left | by right; left].
    + match goal with Hins : insert_message _ _ _ _ _ = _ |- _ =>
        apply insert_message_inv in Hins
          as (key & text & _ & _ & _ & _ & -> & _ & _ & _ & _ & _ & Hrows & _) end.
      intros (r0 & Hr0 & Hcase)%resolved_rows_inv. simpl in Hr0.
      rewrite Hrows in Hr0.
      destruct Hcase as [[Hid ->] | [_ ->]].
      * right. left. done.
      * apply elem_of_app in Hr0 as [? | ->%list_elem_of_singleton];
          [by left | by right; left].
  - destruct (inflight n !! i) as [p|] eqn:Hi; [|by left]. simpl.
    rewrite webhook_settle_resolved.
    intros (r0 & Hr0 & [[Hid ->] | [_ ->]])%resolved_rows_inv; [|by left].
    right. right. exists p, r0. split; [by eapply list_elem_of_lookup_2|]. done.
  - by left.
  - by left.
  - intros ?%delete_client_route_rows. by left.
  - intros ?%delete_agent_route_rows. by left.
Qed.

Lemma step_seq_mono s a :
  messages_id_seq (store s) ≤ messages_id_seq (store (step s a)).
Proof.
  destruct a; simpl; try done.
  - destruct (chat_post s clientId agentId message now) as [[s1 resp] call] eqn:H.
    chat_cases H; cbn [fst]; try done.
    + match goal with Hins : insert_message _ _ _ _ _ = _ |- _ =>
        apply insert_message_raises in Hins as (_ & _ & _ & Hseq) end.
      simpl. lia.
    + match goal with Hins : insert_message _ _ _ _ _ = _ |- _ =>
        apply insert_message_seq in Hins as [_ Hseq] end.
      simpl. lia.
    + match goal with Hins : insert_message _ _ _ _ _ = _ |- _ =>
        apply insert_message_seq in Hins as [_ Hseq] end.
      rewrite resolved_store. simpl. lia.
  - by rewrite webhook_settle_resolved, resolved_store.
  - by rewrite delete_client_route_seq.
  - by rewrite delete_agent_route_seq.
Qed.

Lemma run_seq_mono acts : ∀ s,
  messages_id_seq (store s) ≤ messages_id_seq (store (run s acts)).
Proof.
  induction acts as [|a acts IH]; intros s; simpl; [done|].
  etrans; [apply (step_seq_mono s a) | apply IH].
Qed.

Lemma play_seq_mono n turns :
  messages_id_seq (store (srv n)) ≤ messages_id_seq (store (srv (play n turns))).
Proof.
  destruct (play_srv turns n) as [acts ->]. apply run_seq_mono.
Qed.

(** *** Calls in flight belong to unanswered rows *)

Lemma play_turn_tracked n t : tracked n → tracked (play_turn n t).
Proof.
  intros (Hpk & Honce & Hun).
  split; [|split].
  - destruct (play_turn_srv n t) as [-> | [a ->]]; [done|]. by apply step_pk_ok.
  - by apply play_turn_resolved_once.
  - intros p r Hp Hr Hid.
    assert (Hold : ∀ q, q ∈ inflight n → r ∈ messages (store (srv n)) →
                        m_id r = p_messageId q → m_response r = None)
      by (intros q Hq Hrq; by apply Hun).
    destruct Hpk as [_ Hlt]. rewrite Forall_forall in Hlt.
    destruct t; simpl in *.
    + destruct (chat_post (srv n) clientId agentId message now)
        as [[s1 resp] call] eqn:H.
      chat_cases H; cbn [fst snd option_list] in *;
        rewrite ?app_nil_r in Hp; try (by eapply Hold).
      * match goal with Hins : insert_message _ _ _ _ _ = _ |- _ =>
          apply insert_message_raises in Hins as (_ & _ & Hrows & _) end.
        simpl in Hr. rewrite Hrows in Hr. by eapply Hold.
      * match goal with Hins : insert_message _ _ _ _ _ = _ |- _ =>
          apply insert_message_inv in Hins
            as (key & text & _ & _ & _ & _ & -> & _ & _ & _ & _ & _ & Hrows & _) end.
        simpl in Hr. rewrite Hrows in Hr.
        apply elem_of_app in Hr as [Hr | ->%list_elem_of_singleton]; [|done].
        apply elem_of_app in Hp as [Hp | ->%list_elem_of_singleton];
          [by eapply Hold|].
        simpl in Hid. specialize (Hlt r Hr). lia.
      * match goal with Hins : insert_message _ _ _ _ _ = _ |- _ =>
          apply insert_message_inv in Hins
            as (key & text & _ & _ & _ & _ & -> & _ & _ & _ & _ & _ & Hrows & _) end.
        pose proof (inflight_below_seq n p Honce Hp) as Hbelow.
        apply resolved_rows_inv in Hr as (r0 & Hr0 & [[Hid0 ->] | [_ ->]]).
        -- simpl in Hid. lia.
        -- simpl in Hr0. rewrite Hrows in Hr0.
           apply elem_of_app in Hr0 as [Hr0 | ->%list_elem_of_singleton];
             [by eapply Hold | done].
    + destruct (inflight n !! i) as [p0|] eqn:Hi; simpl in *; [|by eapply Hold].
      pose proof (inflight_distinct n i p0 p Honce Hi Hp) as Hne.
      rewrite webhook_settle_resolved in Hr.
      apply resolved_rows_inv in Hr as (r0 & Hr0 & [[Hid0 ->] | [_ ->]]).
      * simpl in Hid. congruence.
      * eapply Hold; [by eapply elem_of_delete| |]; done.
    + by eapply Hold.
    + by eapply Hold.
    + apply delete_client_route_rows in Hr. by eapply Hold.
    + apply delete_agent_route_rows in Hr. by eapply Hold.
Qed.

Lemma play_tracked turns : ∀ n, tracked n → tracked (play n turns).
Proof.
  induction turns as [|t turns IH]; intros n Hinv; simpl; [done|].
  by apply IH, play_turn_tracked.
Qed.

Lemma boot_tracked d : pk_ok d → tracked (boot d).
Proof.
  intros Hpk. split; [done|]. split; [apply boot_resolved_once|].
  intros p r Hp. by apply elem_of_nil in Hp.
Qed.

(** A row that holds a response is never written again. *)
Lemma answered_rows_stay n more : ∀ r text,
  tracked n →
  r ∈ messages (store (srv n)) → m_response r = Some text →
  ∀ r', r' ∈ messages (store (srv (play n more))) → m_id r' = m_id r → r' = r.
Proof.
  induction more as [|t more IH] using rev_ind; intros r text Hinv Hr Hresp r' Hr' Hid.
  - simpl in Hr'. destruct Hinv as (Hpk & _). by eapply pk_ok_same_id.
  - rewrite play_snoc in Hr'.
    pose proof (play_tracked more n Hinv) as (Hpk' & Honce' & Hun').
    destruct (turn_rows _ _ _ Hr') as [Hold | [Hnew | (p & r0 & Hp & Hr0 & Hid0 & Hid')]].
    + by eapply IH.
    + destruct Hinv as ([_ Hlt] & _). rewrite Forall_forall in Hlt.
      specialize (Hlt r Hr). pose proof (play_seq_mono n more). lia.
    + assert (r0 = r) as -> by (eapply IH; [done..|congruence]).
      rewrite (Hun' p r Hp Hr0 Hid0) in Hresp. done.
Qed.

(** *** A response text only ever comes from a resolution *)

Lemma resolutions_app t1 t2 messageId :
  resolutions (t1 ++ t2) messageId
  = (resolutions t1 messageId + resolutions t2 messageId)%nat.
Proof. apply count_if_app. Qed.

Lemma resolutions_update messageId text ev :
  resolutions [EUpdateResponse messageId text; ev] messageId
  = S (resolutions [ev] messageId).
Proof. unfold resolutions. simpl. by rewrite bool_decide_eq_true_2. Qed.

Lemma resolved_row_origin s clientId agentId messageId text r :
  r ∈ messages (store (resolved s clientId agentId messageId text)) →
  r ∈ messages (store s) ∨
  (resolutions (trace s) (m_id r)
   < resolutions (trace (resolved s clientId agentId messageId text)) (m_id r))%nat.
Proof.
  intros Hin.
  apply resolved_rows_inv in Hin as (r0 & Hin0 & [[Hid ->] | [_ ->]]);
    [right | by left].
  rewrite resolved_trace, resolutions_app. simpl m_id. rewrite Hid.
  rewrite resolutions_update. lia.
Qed.

(** After one turn, a row is one that was there, or has no response, or
    has just been resolved. *)
Lemma step_row_origin s a r :
  r ∈ messages (store (step s a)) →
  r ∈ messages (store s) ∨ m_response r = None ∨
  (resolutions (trace s) (m_id r) < resolutions (trace (step s a)) (m_id r))%nat.
Proof.
  destruct a; simpl.
  - destruct (chat_post s clientId agentId message now) as [[s1 resp] call] eqn:H.
    chat_cases H; cbn [fst]; try (by left).
    + match goal with Hins : insert_message _ _ _ _ _ = _ |- _ =>
        apply insert_message_raises in Hins as (_ & _ & Hrows & _) end.
      simpl. rewrite Hrows. by left.
    + simpl. match goal with Hins : insert_message _ _ _ _ _ = _ |- _ =>
        apply insert_message_inv in Hins
          as (key & text & _ & _ & _ & _ & _ & _ & _ & _ & _ & _ & -> & _) end.
      intros [? | ->%list_elem_of_singleton]%elem_of_app; [by left | by right; left].
    + intros Hin. apply resolved_row_origin in Hin as [Hin | Hlt].
      * simpl in Hin.
        match goal with Hins : insert_message _ _ _ _ _ = _ |- _ =>
          apply insert_message_inv in Hins
            as (key & text & _ & _ & _ & _ & _ & _ & _ & _ & _ & _ & Hrows & _) end.
        rewrite Hrows in Hin.
        apply elem_of_app in Hin as [? | ->%list_elem_of_singleton];
          [by left | by right; left].
      * right. right.
        assert (Hlog : resolutions
                         (trace (log (EInsertMessage messageId) (with_store d s)))
                         (m_id r)
                       = resolutions (trace s) (m_id r)).
        { simpl. rewrite resolutions_app. unfold resolutions. simpl. lia. }
        by rewrite Hlog in Hlt.
  - rewrite webhook_settle_resolved. intros Hin.
    apply resolved_row_origin in Hin as [? | ?]; [by left | by right; right].
  - by left.
  - by left.
  - intros ?%delete_client_route_rows. by left.
  - intros ?%delete_agent_route_rows. by left.
Qed.

Lemma step_resolutions_mono s a messageId :
  (resolutions (trace s) messageId ≤ resolutions (trace (step s a)) messageId)%nat.
Proof.
  destruct (step_trace s a) as [l ->]. rewrite resolutions_app. lia.
Qed.

Lemma run_resolutions_mono acts : ∀ s messageId,
  (resolutions (trace s) messageId ≤ resolutions (trace (run s acts)) messageId)%nat.
Proof.
  induction acts as [|a acts IH]; intros s messageId; simpl; [done|].
  etrans; [apply (step_resolutions_mono s a)|apply IH].
Qed.

Lemma run_row_origin acts : ∀ s r,
  r ∈ messages (store (run s acts)) →
  r ∈ messages (store s) ∨ m_response r = None ∨
  (resolutions (trace s) (m_id r) < resolutions (trace (run s acts)) (m_id r))%nat.
Proof.
  induction acts as [|a acts IH]; intros s r Hin; simpl in *; [by left|].
  destruct (IH _ _ Hin) as [Hin1 | [Hnone | Hlt]].
  - destruct (step_row_origin s a r Hin1) as [? | [? | Hlt]];
      [by left | by right; left |].
    right. right.
    pose proof (run_resolutions_mono acts (step s a) (m_id r)). lia.
  - by right; left.
  - right. right. pose proof (step_resolutions_mono s a (m_id r)). lia.
Qed.

(** C6: the four steps of one accepted submission follow one another, each
    on the state the one before has left.  The insert creates a row with
    an id no row had and with no response, and returns that id; the
    outbound call is made next, on that state, and carries the returned id
    in its body; nothing has been pushed so far.  When the call settles,
    after whatever other handlers have run in between ([acts], whose own
    effects are [between]), the update of the response runs first and
    pushes nothing, and the event is emitted from the state that update has
    left, in which the row (if it still exists) holds the text the event
    carries.  Without a webhook the same update and emit follow the insert
    directly.  The trace lists the effects in that order.  And in every
    run of a process, as long as a call is in flight its message has not
    been resolved: no update of its row is in the trace and the row holds
    no response. *)
Theorem relay_steps_ordered s clientId agentId message now s1 resp call :
  pk_ok (store s) →
  chat_post s clientId agentId message now = (s1, resp, call) →
  status resp = 200 →
  (∃ messageId d,
    resp = message_sent messageId ∧
    ¬ has_message s messageId ∧
    insert_message (store s) clientId agentId message (db_now now)
      = (d, Some messageId) ∧
    unanswered (inserted s d messageId) messageId ∧
    sent (inserted s d messageId) = sent s ∧
    match call with
    | Some p =>
        s1 = log (EWebhookPost (p_url p) (p_body p) 10000)
                 (inserted s d messageId) ∧
        wp_message_id (p_body p) = messageId ∧
        unanswered s1 messageId ∧
        sent s1 = sent s ∧
        ∀ acts o, ∃ between s_upd,
          trace (run s1 acts) = trace s1 ++ between ∧
          query_update_response (run s1 acts) (settled_text o) messageId
            = Some s_upd ∧
          sent s_upd = sent (run s1 acts) ∧
          (has_message (run s1 acts) messageId →
           persisted s_upd messageId (pg_text (settled_text o))) ∧
          webhook_settle (run s1 acts) p o
            = io_emit s_upd (client_room (JNum clientId))
                      (AgentResponse messageId agentId (settled_text o)) ∧
          trace (webhook_settle (run s1 acts) p o) =
            trace s ++
            [EInsertMessage messageId;
             EWebhookPost (p_url p) (p_body p) 10000] ++
            between ++
            [EUpdateResponse messageId (settled_text o);
             EEmit (client_room (JNum clientId))
                   (AgentResponse messageId agentId (settled_text o))]
    | None =>
        ∃ s_upd,
          query_update_response (inserted s d messageId) no_webhook_text messageId
            = Some s_upd ∧
          sent s_upd = sent s ∧
          persisted s_upd messageId (pg_text no_webhook_text) ∧
          s1 = io_emit s_upd (client_room (JNum clientId))
                       (AgentResponse messageId agentId no_webhook_text) ∧
          trace s1 =
            trace s ++
            [EInsertMessage messageId;
             EUpdateResponse messageId no_webhook_text;
             EEmit (client_room (JNum clientId))
                   (AgentResponse messageId agentId no_webhook_text)]
    end) ∧
  (∀ d0 turns q,
      pk_ok d0 → q ∈ inflight (play (boot d0) turns) →
      resolutions (trace (srv (play (boot d0) turns))) (p_messageId q) = 0%nat ∧
      ∀ r, r ∈ messages (store (srv (play (boot d0) turns))) →
           m_id r = p_messageId q → m_response r = None).
Proof.
  intros Hpk H Hst. split; cycle 1.
  { intros d0 turns q Hpk0 Hq.
    destruct (play_tracked turns (boot d0) (boot_tracked d0 Hpk0))
      as (_ & Honce & Hun).
    split; [by apply inflight_unresolved|]. intros r Hr Hid. by eapply Hun. }
  chat_cases H; try done.
  - match goal with Hins : insert_message _ _ _ _ _ = _ |- _ =>
      pose proof (inserted_unanswered _ _ _ _ _ _ _ Hpk Hins) as Hun;
      pose proof (insert_message_inv _ _ _ _ _ _ _ Hins)
        as (key & text & _ & _ & _ & _ & Hid & _);
      rename Hins into Hins' end.
    exists messageId, d. split; [done|].
    split; [rewrite Hid; by apply fresh_id_unused|].
    split; [done|]. split; [done|]. split; [done|].
    split; [done|]. split; [done|]. split; [exact Hun|]. split; [done|].
    intros acts o.
    match goal with |- context [run ?s1 acts] =>
      destruct (run_trace acts s1) as [between Hb];
      destruct (resolved_in_two_steps (run s1 acts) clientId agentId messageId
                  (settled_text o) (settled_text_storable o))
        as (s_upd & Hupd & _ & Hsent & _ & Hpers & Hemit) end.
    exists between, s_upd.
    split; [exact Hb|]. split; [exact Hupd|]. split; [exact Hsent|].
    split; [exact Hpers|].
    split; [rewrite webhook_settle_resolved; exact Hemit|].
    rewrite settle_trace, Hb. simpl. by rewrite <- !app_assoc.
  - match goal with Hins : insert_message _ _ _ _ _ = _ |- _ =>
      pose proof (inserted_unanswered _ _ _ _ _ _ _ Hpk Hins) as Hun;
      pose proof (insert_message_inv _ _ _ _ _ _ _ Hins)
        as (key & text & _ & _ & _ & _ & Hid & _);
      rename Hins into Hins' end.
    exists messageId, d. split; [done|].
    split; [rewrite Hid; by apply fresh_id_unused|].
    split; [done|]. split; [done|]. split; [done|].
    destruct (resolved_in_two_steps (inserted s d messageId) clientId agentId
                messageId no_webhook_text no_webhook_text_storable)
      as (s_upd & Hupd & _ & Hsent & _ & Hpers & Hemit).
    exists s_upd. split; [exact Hupd|]. split; [exact Hsent|].
    split; [apply Hpers, Hun|]. split; [exact Hemit|].
    rewrite resolved_trace. simpl. by rewrite <- app_assoc.
Qed.

(** Between client 1's hello and the answer, client 2 writes to its own
    agent: its three effects lie between the call and the update. *)
Example interleaved_trace :
  trace (webhook_settle (run s_sent [AChat 2 (AsInteger 20) hello noon]) call1
                        (Fulfilled hi_there)) =
  [EInsertMessage 1;
   EWebhookPost hook (p_body call1) 10000;
   EInsertMessage 2;
   EUpdateResponse 2 no_webhook_text;
   EEmit "client_2" (AgentResponse 2 (AsInteger 20) no_webhook_text);
   EUpdateResponse 1 (JStr "hi there");
   EEmit "client_1" (AgentResponse 1 (AsInteger 10) (JStr "hi there"))].
Proof. vm_compute. reflexivity. Qed.

Lemma s_room_pk_ok : pk_ok (store s_room).
Proof. split; constructor. Qed.

Lemma relay_steps_ordered_witness :
  ∃ between s_upd,
    trace (run s_sent [AChat 2 (AsInteger 20) hello noon])
      = trace s_sent ++ between ∧
    query_update_response (run s_sent [AChat 2 (AsInteger 20) hello noon])
                          (JStr "hi there") 1 = Some s_upd ∧
    sent s_upd = sent (run s_sent [AChat 2 (AsInteger 20) hello noon]) ∧
    persisted s_upd 1 (Text "hi there") ∧
    webhook_settle (run s_sent [AChat 2 (AsInteger 20) hello noon]) call1
                   (Fulfilled hi_there)
      = io_emit s_upd "client_1"
                (AgentResponse 1 (AsInteger 10) (JStr "hi there")).
Proof.
  destruct (relay_steps_ordered s_room 1 (AsInteger 10) hello noon s_sent
              (message_sent 1) (Some call1))
    as ((mid & d & Hmid & _ & _ & _ & _ & _ & _ & _ & _ & Hord) & _);
    [exact s_room_pk_ok | vm_compute; reflexivity | reflexivity |].
  injection Hmid as <-.
  destruct (Hord [AChat 2 (AsInteger 20) hello noon] (Fulfilled hi_there))
    as (between & s_upd & Hb & Hupd & Hsent & Hpers & Hemit & _).
  exists between, s_upd.
  split; [exact Hb|]. split; [exact Hupd|]. split; [exact Hsent|].
  split; [|exact Hemit].
  apply Hpers. exists (MessageRow 1 1 10 (Text "hello") None 1000).
  split; [vm_compute; apply list_elem_of_here | reflexivity].
Defined.

(** ** The outbound call *)








(** ** History, and pushes nobody is there to receive *)

Lemma elem_of_history_rows d clientId agentId r :
  r ∈ history_rows d clientId agentId ↔
  r ∈ messages d ∧ m_client_id r = clientId ∧ m_agent_id r = agentId.
Proof.
  unfold history_rows. rewrite merge_sort_Permutation.
  rewrite list_elem_of_filter. tauto.
Qed.

Lemma chat_history_rows s clientId key :
  in_int4 clientId = true → in_int4 key = true →
  chat_history s clientId (AsInteger key)
    = inr (history_rows (store s) clientId key).
Proof.
  intros Hc Hk. unfold chat_history, select_history, bind_int.
  rewrite Hc. simpl. unfold bind_int. by rewrite Hk.
Qed.

Lemma chat_history_inv s clientId agentId rows :
  chat_history s clientId agentId = inr rows →
  ∃ key, agentId = AsInteger key ∧ in_int4 key = true ∧
         in_int4 clientId = true ∧ rows = history_rows (store s) clientId key.
Proof.
  unfold chat_history, select_history.
  destruct (bind_int clientId) as [c|] eqn:Hc; [|done].
  destruct (pg_int4 agentId) as [key|] eqn:Hk; [|done].
  simpl. intros [= <-].
  apply bind_int_Some in Hc as [Hc ->]. apply pg_int4_Some in Hk as [-> Hk].
  by exists key.
Qed.

(** C8: when the client's room is empty at delivery time, nothing is sent
    and nothing is kept for a socket that joins later, and the submission
    is still acknowledged; the text is on the message row all the same,
    and the history route for that client and agent returns the row with
    it. *)
Theorem dropped_push_still_in_history s clientId agentId message now s1 resp call :
  chat_post s clientId agentId message now = (s1, resp, call) →
  status resp = 200 →
  ∃ messageId key,
    resp = message_sent messageId ∧
    agentId = AsInteger key ∧
    match call with
    | Some p =>
        MessageRow messageId clientId key (pg_text message) None (db_now now)
          ∈ messages (store s1) ∧
        ∀ s2 o,
          members s2 (client_room (JNum clientId)) = ∅ →
          MessageRow messageId clientId key (pg_text message) None (db_now now)
            ∈ messages (store s2) →
          let s3 := webhook_settle s2 p o in
          sent s3 = sent s2 ∧
          rooms s3 = rooms s2 ∧
          (∀ k v, sent (join_client_room s3 k v) = sent s2) ∧
          persisted s3 messageId (pg_text (settled_text o)) ∧
          ∃ rows,
            chat_history s3 clientId agentId = inr rows ∧
            MessageRow messageId clientId key (pg_text message)
                       (Some (pg_text (settled_text o))) (db_now now) ∈ rows
    | None =>
        members s (client_room (JNum clientId)) = ∅ →
        sent s1 = sent s ∧
        rooms s1 = rooms s ∧
        (∀ k v, sent (join_client_room s1 k v) = sent s) ∧
        persisted s1 messageId (pg_text no_webhook_text) ∧
        ∃ rows,
          chat_history s1 clientId agentId = inr rows ∧
          MessageRow messageId clientId key (pg_text message)
                     (Some (pg_text no_webhook_text)) (db_now now) ∈ rows
    end.
Proof.
  intros H Hst. chat_cases H; try done.
  - match goal with
    | Hag : getRow <$> select_agent _ _ _ = Some (Some _),
      Hins : insert_message _ _ _ _ _ = _ |- _ =>
        destruct (found_agent _ _ _ _ Hag) as (key & -> & Hk & Hc & _);
        destruct (inserted_has_message _ _ _ _ _ _ _ ltac:(done) Hins)
          as (key' & [= <-] & Hnew)
    end.
    exists messageId, key. split; [done|]. split; [done|].
    split; [exact Hnew|].
    intros s2 o Hempty Hrow s3.
    subst s3. rewrite webhook_settle_resolved. simpl.
    set (row := MessageRow messageId clientId key (pg_text message) None
                           (db_now now)) in *.
    assert (Hsent : sent (resolved s2 clientId (AsInteger key) messageId
                            (settled_text o))
                    = sent s2) by by apply resolved_dropped.
    split; [done|]. split; [done|]. split; [done|]. split.
    + apply resolved_persisted. by exists row.
    + eexists. split; [by apply chat_history_rows|].
      apply elem_of_history_rows. split; [|done].
      exact (resolved_row_updated _ _ _ _ _ row Hrow eq_refl).
  - match goal with
    | Hag : getRow <$> select_agent _ _ _ = Some (Some _),
      Hins : insert_message _ _ _ _ _ = _ |- _ =>
        destruct (found_agent _ _ _ _ Hag) as (key & -> & Hk & Hc & _);
        destruct (inserted_has_message _ _ _ _ _ _ _ ltac:(done) Hins)
          as (key' & [= <-] & Hnew)
    end.
    exists messageId, key. split; [done|]. split; [done|]. intros Hempty.
    set (row := MessageRow messageId clientId key (pg_text message) None
                           (db_now now)) in *.
    set (s' := log (EInsertMessage messageId) (with_store d s)).
    assert (Hrow : row ∈ messages (store s')) by exact Hnew.
    assert (Hsent : sent (resolved s' clientId (AsInteger key) messageId
                            no_webhook_text)
                    = sent s) by by apply (resolved_dropped s').
    split; [done|]. split; [done|]. split; [done|]. split.
    + apply resolved_persisted. by exists row.
    + eexists. split; [by apply chat_history_rows|].
      apply elem_of_history_rows. split; [|done].
      exact (resolved_row_updated _ _ _ _ _ row Hrow eq_refl).
Qed.

(** Client 1 writes to agent 10 with no socket connected; the webhook
    answers; the history then shows the answer. *)
Lemma dropped_push_still_in_history_witness :
  sent (webhook_settle s_alone call1 (Fulfilled hi_there)) = [] ∧
  ∃ rows,
    chat_history (webhook_settle s_alone call1 (Fulfilled hi_there)) 1
                 (AsInteger 10) = inr rows ∧
    MessageRow 1 1 10 (Text "hello") (Some (Text "hi there")) 1000 ∈ rows.
Proof.
  destruct (dropped_push_still_in_history s0 1 (AsInteger 10) hello noon s_alone
              (message_sent 1) (Some call1)) as (mid & key & Hmid & Hkey & _ & Hdrop);
    [vm_compute; reflexivity | reflexivity |].
  injection Hmid as <-. injection Hkey as <-.
  destruct (Hdrop s_alone (Fulfilled hi_there)) as (Hsent & _ & _ & _ & Hhist).
  - reflexivity.
  - vm_compute. apply list_elem_of_here.
  - split; [exact Hsent | exact Hhist].
Defined.

(** ** Cascading deletes and the foreign keys *)

Lemma elem_of_map_filter {A B} (f : A → B) (P : A → Prop)
    `{∀ x, Decision (P x)} (l : list A) (x : A) :
  x ∈ l → P x → f x ∈ map f (filter P l).
Proof.
  intros Hin HP. apply list_elem_of_fmap. exists x. split; [done|].
  by apply list_elem_of_filter.
Qed.

Lemma deleted_clients_ids d id x :
  x ∈ map c_id (deleted_clients d id) → x = id.
Proof.
  intros Hx. apply list_elem_of_fmap in Hx as (c & -> & Hc).
  by apply list_elem_of_filter in Hc as [? _].
Qed.

Lemma cascade_client_keeps_client d id x :
  has_client d x → x ∉ map c_id (deleted_clients d id) →
  has_client (cascade_client d id).1 x.
Proof.
  rewrite !has_client_iff. intros (c & Hin & Hc) Hx.
  exists c. split; [|done]. simpl.
  apply list_elem_of_filter. split; [|done].
  intros Heq. apply Hx. rewrite <- Hc.
  by apply (elem_of_map_filter c_id (fun c => c_id c = id)).
Qed.

Lemma cascade_client_fk_ok d id : fk_ok d → fk_ok (cascade_client d id).1.
Proof.
  intros [Hag Hmsg].
  rewrite Forall_forall in Hag. rewrite Forall_forall in Hmsg.
  split; apply Forall_forall.
  - intros ag Hin. simpl in Hin.
    apply list_elem_of_filter in Hin as [Hkeep Hin].
    apply cascade_client_keeps_client; auto.
  - intros r Hin. simpl in Hin.
    apply list_elem_of_filter in Hin as [[Hc Ha] Hin].
    destruct (Hmsg r Hin) as [Hhc Hha]. split.
    + apply cascade_client_keeps_client; auto.
    + apply has_agent_iff in Hha as (ag & Hagin & Hid).
      apply has_agent_iff. exists ag. split; [|done]. simpl.
      apply list_elem_of_filter. split; [|done].
      intros Hgone. apply Ha. rewrite <- Hid.
      by apply (elem_of_map_filter a_id
                  (fun a => a_client_id a ∈ map c_id (deleted_clients d id))).
Qed.

Lemma deleted_clients_hit d id :
  (∃ c, c ∈ clients d ∧ c_id c = id) ↔ id ∈ map c_id (deleted_clients d id).
Proof.
  split.
  - intros (c & Hc & <-).
    by apply (elem_of_map_filter c_id (fun x => c_id x = c_id c)).
  - intros (c & -> & [? ?]%list_elem_of_filter)%list_elem_of_fmap. by exists c.
Qed.

Lemma returned_nonempty {A} (l : list A) x : x ∈ l → l ≠ [].
Proof. intros Hx ->. by apply elem_of_nil in Hx. Qed.

Lemma cascade_client_removes d id :
  (cascade_client d id).2 ≠ [] →
  (∀ c, c ∈ clients (cascade_client d id).1 → c_id c ≠ id) ∧
  (∀ ag, ag ∈ agents (cascade_client d id).1 → a_client_id ag ≠ id) ∧
  (∀ r, r ∈ messages (cascade_client d id).1 → m_client_id r ≠ id) ∧
  (∀ r ag, r ∈ messages (cascade_client d id).1 → ag ∈ agents d →
           a_id ag = m_agent_id r → a_client_id ag ≠ id).
Proof.
  simpl. intros Hret.
  assert (Hid : id ∈ map c_id (deleted_clients d id)).
  { destruct (map c_id (deleted_clients d id)) as [|x l] eqn:Hl; [done|].
    assert (Hx : x ∈ map c_id (deleted_clients d id))
      by (rewrite Hl; apply list_elem_of_here).
    apply deleted_clients_ids in Hx as ->. apply list_elem_of_here. }
  split; [|split; [|split]].
  - by intros c [? _]%list_elem_of_filter.
  - intros ag [Hkeep _]%list_elem_of_filter Heq. apply Hkeep. by rewrite Heq.
  - intros r [[Hkeep _] _]%list_elem_of_filter Heq. apply Hkeep. by rewrite Heq.
  - intros r ag [[_ Hkeep] _]%list_elem_of_filter Hag Hr Heq. apply Hkeep.
    rewrite <- Hr.
    apply (elem_of_map_filter a_id
             (fun a => a_client_id a ∈ map c_id (deleted_clients d id)));
      [done|]. by rewrite Heq.
Qed.

(** What a client delete leaves in place. *)
Lemma cascade_client_keeps d id :
  (∀ c, c ∈ clients d → c_id c ≠ id → c ∈ clients (cascade_client d id).1) ∧
  (∀ ag, ag ∈ agents d → a_client_id ag ≠ id →
         ag ∈ agents (cascade_client d id).1) ∧
  (∀ r, r ∈ messages d → m_client_id r ≠ id →
        (∀ ag, ag ∈ agents d → a_id ag = m_agent_id r → a_client_id ag ≠ id) →
        r ∈ messages (cascade_client d id).1).
Proof.
  simpl. split; [|split].
  - intros c Hc Hne. by apply list_elem_of_filter.
  - intros ag Hag Hne. apply list_elem_of_filter. split; [|done].
    by intros ?%deleted_clients_ids.
  - intros r Hr Hne Hagents. apply list_elem_of_filter. split; [|done]. split.
    + by intros ?%deleted_clients_ids.
    + intros (ag & Hid & [Hgone Hag]%list_elem_of_filter)%list_elem_of_fmap.
      apply deleted_clients_ids in Hgone. by eapply Hagents.
Qed.

Lemma cascade_agent_fk_ok d id clientId :
  fk_ok d → fk_ok (cascade_agent d id clientId).1.
Proof.
  intros [Hag Hmsg].
  rewrite Forall_forall in Hag. rewrite Forall_forall in Hmsg.
  split; apply Forall_forall.
  - intros ag Hin. simpl in Hin.
    apply list_elem_of_filter in Hin as [_ Hin]. by apply Hag.
  - intros r Hin. simpl in Hin.
    apply list_elem_of_filter in Hin as [Hkeep Hin].
    destruct (Hmsg r Hin) as [Hhc Hha]. split; [done|].
    apply has_agent_iff in Hha as (ag & Hagin & Hid).
    apply has_agent_iff. exists ag. split; [|done]. simpl.
    apply list_elem_of_filter. split; [|done].
    intros Hgone. apply Hkeep. rewrite <- Hid.
    by apply (elem_of_map_filter a_id
                (fun a => a_id a = id ∧ a_client_id a = clientId)).
Qed.

Lemma cascade_agent_removes d id clientId :
  (cascade_agent d id clientId).2 ≠ [] →
  (∀ ag, ag ∈ agents (cascade_agent d id clientId).1 →
         ¬ (a_id ag = id ∧ a_client_id ag = clientId)) ∧
  (∀ r, r ∈ messages (cascade_agent d id clientId).1 → m_agent_id r ≠ id).
Proof.
  simpl. intros Hret.
  assert (Hid : id ∈ map a_id (deleted_agents d id clientId)).
  { destruct (deleted_agents d id clientId) as [|ag l] eqn:Hl; [done|].
    assert (Hx : ag ∈ deleted_agents d id clientId)
      by (rewrite Hl; apply list_elem_of_here).
    apply list_elem_of_filter in Hx as [[<- _] _]. apply list_elem_of_here. }
  split.
  - by intros ag [? _]%list_elem_of_filter.
  - intros r [Hkeep _]%list_elem_of_filter Heq. apply Hkeep. by rewrite Heq.
Qed.

(** What an agent delete leaves in place. *)
Lemma cascade_agent_keeps d id clientId :
  clients (cascade_agent d id clientId).1 = clients d ∧
  (∀ ag, ag ∈ agents d → ¬ (a_id ag = id ∧ a_client_id ag = clientId) →
         ag ∈ agents (cascade_agent d id clientId).1) ∧
  (∀ r, r ∈ messages d → m_agent_id r ≠ id →
        r ∈ messages (cascade_agent d id clientId).1).
Proof.
  simpl. split; [done|]. split.
  - intros ag Hag Hne. by apply list_elem_of_filter.
  - intros r Hr Hne. apply list_elem_of_filter. split; [|done].
    intros (ag & Hid & [[Hgone _] _]%list_elem_of_filter)%list_elem_of_fmap.
    congruence.
Qed.

Lemma insert_message_fk_ok d clientId agentId message now d' result :
  insert_message d clientId agentId message now = (d', result) →
  fk_ok d → fk_ok d'.
Proof.
  intros Hins [Hag Hmsg]. destruct result as [messageId|].
  - apply insert_message_inv in Hins
      as (key & text & _ & _ & _ & _ & _ & _ & Hc & Ha & Hcl & Hags & Hrows & _).
    assert (Hhc : ∀ x, has_client d' x = has_client d x)
      by (intros x; unfold has_client; by rewrite Hcl).
    assert (Hha : ∀ x, has_agent d' x = has_agent d x)
      by (intros x; unfold has_agent; by rewrite Hags).
    split.
    + rewrite Hags. eapply Forall_impl; [exact Hag|]. intros a. by rewrite Hhc.
    + rewrite Hrows. apply Forall_app. split.
      * eapply Forall_impl; [exact Hmsg|]. intros r. by rewrite Hhc, Hha.
      * repeat constructor; simpl; rewrite ?Hhc, ?Hha; by apply Is_true_true.
  - apply insert_message_raises in Hins as (Hcl & Hags & Hrows & _).
    assert (Hhc : ∀ x, has_client d' x = has_client d x)
      by (intros x; unfold has_client; by rewrite Hcl).
    assert (Hha : ∀ x, has_agent d' x = has_agent d x)
      by (intros x; unfold has_agent; by rewrite Hags).
    split.
    + rewrite Hags. eapply Forall_impl; [exact Hag|]. intros a. by rewrite Hhc.
    + rewrite Hrows. eapply Forall_impl; [exact Hmsg|].
      intros r. by rewrite Hhc, Hha.
Qed.

Lemma write_response_fk_ok d text messageId :
  fk_ok d → fk_ok (write_response d text messageId).
Proof.
  intros [Hag Hmsg]. split; simpl; [done|].
  apply Forall_fmap. eapply Forall_impl; [exact Hmsg|].
  intros r Hr. simpl. by case_bool_decide.
Qed.

Lemma resolved_fk_ok s clientId agentId messageId text :
  fk_ok (store s) → fk_ok (store (resolved s clientId agentId messageId text)).
Proof. rewrite resolved_store. apply write_response_fk_ok. Qed.

Lemma chat_post_fk_ok s clientId agentId message now :
  fk_ok (store s) →
  fk_ok (store (chat_post s clientId agentId message now).1.1).
Proof.
  intros Hfk.
  destruct (chat_post s clientId agentId message now) as [[s1 resp] call] eqn:H.
  chat_cases H; cbn [fst]; try done.
  - simpl. by eapply insert_message_fk_ok.
  - simpl. by eapply insert_message_fk_ok.
  - apply resolved_fk_ok. simpl. by eapply insert_message_fk_ok.
Qed.

Lemma step_fk_ok s a : fk_ok (store s) → fk_ok (store (step s a)).
Proof.
  intros Hfk. destruct a; simpl; try done.
  - by apply chat_post_fk_ok.
  - rewrite webhook_settle_resolved. by apply resolved_fk_ok.
  - destruct (delete_client_route_cases s id) as [-> | (key & _ & ->)]; [done|].
    by apply cascade_client_fk_ok.
  - destruct (delete_agent_route_cases s clientId id)
      as [-> | (key & _ & _ & ->)]; [done|].
    by apply cascade_agent_fk_ok.
Qed.

(** The foreign keys hold after every turn of the event loop. *)
Lemma run_fk_ok acts : ∀ s, fk_ok (store s) → fk_ok (store (run s acts)).
Proof.
  induction acts as [|a acts IH]; intros s Hfk; simpl; [done|].
  by apply IH, step_fk_ok.
Qed.

Lemma delete_client_route_ok s id s1 resp :
  delete_client_route s id = (s1, resp) → status resp = 200 →
  ∃ key, id = AsInteger key ∧ in_int4 key = true ∧
    resp = ok_message "Client deleted successfully" ∧
         s1 = with_store (cascade_client (store s) key).1 s ∧
         (cascade_client (store s) key).2 ≠ [].
Proof.
  unfold delete_client_route, select_client, delete_client.
  destruct (pg_int4 id) as [key|] eqn:Hk; simpl; [|by intros [= <- <-]].
  apply pg_int4_Some in Hk as [-> Hk].
  destruct (getRow (client_rows (store s) key)); [|by intros [= <- <-]].
  destruct (map c_id (deleted_clients (store s) key)) as [|x l] eqn:Hret;
    [by intros [= <- <-]|].
  intros [= <- <-] _. exists key. simpl. by rewrite Hret.
Qed.

Lemma delete_client_route_hit s key :
  in_int4 key = true →
  (∃ c, c ∈ clients (store s) ∧ c_id c = key) →
  delete_client_route s (AsInteger key)
    = (with_store (cascade_client (store s) key).1 s,
       ok_message "Client deleted successfully").
Proof.
  intros Hk Hex. unfold delete_client_route, select_client, delete_client.
  rewrite (pg_int4_in_range _ Hk). simpl.
  pose proof (proj1 (deleted_clients_hit (store s) key) Hex) as Hin.
  destruct (getRow (client_rows (store s) key)) eqn:Hrow.
  - destruct (map c_id (deleted_clients (store s) key)) as [|x l]; [|done].
    by apply elem_of_nil in Hin.
  - unfold getRow, client_rows in Hrow. apply head_None in Hrow.
    unfold deleted_clients in Hin. rewrite Hrow in Hin.
    by apply elem_of_nil in Hin.
Qed.

Lemma delete_agent_route_ok s clientId id s1 resp :
  delete_agent_route s clientId id = (s1, resp) → status resp = 200 →
  ∃ key, id = AsInteger key ∧ in_int4 key = true ∧ in_int4 clientId = true ∧
         resp = ok_message "Agent deleted successfully" ∧
         s1 = with_store (cascade_agent (store s) key clientId).1 s ∧
         (cascade_agent (store s) key clientId).2 ≠ [].
Proof.
  unfold delete_agent_route, delete_agent.
  destruct (pg_int4 id) as [key|] eqn:Hk; simpl; [|by intros [= <- <-]].
  apply pg_int4_Some in Hk as [-> Hk].
  destruct (bind_int clientId) as [c|] eqn:Hc; simpl; [|by intros [= <- <-]].
  apply bind_int_Some in Hc as [Hc ->].
  destruct (map a_id (deleted_agents (store s) key clientId)) as [|x l] eqn:Hret;
    [by intros [= <- <-]|].
  intros [= <- <-] _. exists key. simpl. by rewrite Hret.
Qed.

Lemma delete_agent_route_hit s clientId key :
  in_int4 key = true → in_int4 clientId = true →
  (∃ ag, ag ∈ agents (store s) ∧ a_id ag = key ∧ a_client_id ag = clientId) →
  delete_agent_route s clientId (AsInteger key)
    = (with_store (cascade_agent (store s) key clientId).1 s,
       ok_message "Agent deleted successfully").
Proof.
  intros Hk Hc (ag & Hag & Hid & Hcl). unfold delete_agent_route, delete_agent.
  rewrite (pg_int4_in_range _ Hk). unfold bind_int. rewrite Hc. simpl.
  assert (Hin : a_id ag ∈ map a_id (deleted_agents (store s) key clientId))
    by by apply (elem_of_map_filter a_id
                   (fun a => a_id a = key ∧ a_client_id a = clientId)).
  destruct (map a_id (deleted_agents (store s) key clientId)) as [|x l]; [|done].
  by apply elem_of_nil in Hin.
Qed.

(** C9: deleting a client that exists answers 200 and removes the client,
    every agent and every message that carries its id, and every message
    that references one of its agents; deleting an agent of the caller
    that exists answers 200 and removes the agent and every message that
    references it.  Both deletes leave every other row in place, and a 200
    is only ever answered after such a removal.  The foreign keys of the
    schema, once they hold, hold after any sequence of handler turns, the
    two deletes included: no row is left pointing at a missing owner. *)
Theorem cascade_delete_no_dangling s :
  (∀ key, in_int4 key = true →
      (∃ c, c ∈ clients (store s) ∧ c_id c = key) →
      ∃ s1,
        delete_client_route s (AsInteger key)
          = (s1, ok_message "Client deleted successfully") ∧
        (∀ c, c ∈ clients (store s1) → c_id c ≠ key) ∧
        (∀ ag, ag ∈ agents (store s1) → a_client_id ag ≠ key) ∧
        (∀ r, r ∈ messages (store s1) → m_client_id r ≠ key) ∧
        (∀ r ag, r ∈ messages (store s1) → ag ∈ agents (store s) →
                 a_id ag = m_agent_id r → a_client_id ag ≠ key) ∧
        (∀ c, c ∈ clients (store s) → c_id c ≠ key → c ∈ clients (store s1)) ∧
        (∀ ag, ag ∈ agents (store s) → a_client_id ag ≠ key →
               ag ∈ agents (store s1)) ∧
        (∀ r, r ∈ messages (store s) → m_client_id r ≠ key →
              (∀ ag, ag ∈ agents (store s) → a_id ag = m_agent_id r →
                     a_client_id ag ≠ key) →
              r ∈ messages (store s1))) ∧
  (∀ key clientId, in_int4 key = true → in_int4 clientId = true →
      (∃ ag, ag ∈ agents (store s) ∧ a_id ag = key ∧ a_client_id ag = clientId) →
      ∃ s1,
        delete_agent_route s clientId (AsInteger key)
          = (s1, ok_message "Agent deleted successfully") ∧
        (∀ ag, ag ∈ agents (store s1) →
               ¬ (a_id ag = key ∧ a_client_id ag = clientId)) ∧
        (∀ r, r ∈ messages (store s1) → m_agent_id r ≠ key) ∧
        clients (store s1) = clients (store s) ∧
        (∀ ag, ag ∈ agents (store s) →
               ¬ (a_id ag = key ∧ a_client_id ag = clientId) →
               ag ∈ agents (store s1)) ∧
        (∀ r, r ∈ messages (store s) → m_agent_id r ≠ key →
              r ∈ messages (store s1))) ∧
  (∀ id s1 resp,
      delete_client_route s id = (s1, resp) → status resp = 200 →
      ∃ key, id = AsInteger key ∧
        (∀ c, c ∈ clients (store s1) → c_id c ≠ key) ∧
        (∀ ag, ag ∈ agents (store s1) → a_client_id ag ≠ key) ∧
        (∀ r, r ∈ messages (store s1) → m_client_id r ≠ key)) ∧
  (∀ clientId id s1 resp,
      delete_agent_route s clientId id = (s1, resp) → status resp = 200 →
      ∃ key, id = AsInteger key ∧
        (∀ ag, ag ∈ agents (store s1) →
               ¬ (a_id ag = key ∧ a_client_id ag = clientId)) ∧
        (∀ r, r ∈ messages (store s1) → m_agent_id r ≠ key)) ∧
  (fk_ok (store s) → ∀ acts, fk_ok (store (run s acts))).
Proof.
  split; [|split; [|split; [|split]]].
  - intros key Hk Hex. eexists. split; [by apply delete_client_route_hit|].
    simpl.
    destruct (cascade_client_removes (store s) key) as (H1 & H2 & H3 & H4).
    { simpl. eapply returned_nonempty. by apply deleted_clients_hit. }
    destruct (cascade_client_keeps (store s) key) as (K1 & K2 & K3).
    done.
  - intros key clientId Hk Hc Hex. eexists.
    split; [by apply delete_agent_route_hit|]. simpl.
    destruct (cascade_agent_removes (store s) key clientId) as (H1 & H2).
    { destruct Hex as (ag & Hag & Hid & Hcl). simpl.
      eapply returned_nonempty.
      by apply (elem_of_map_filter a_id
                  (fun a => a_id a = key ∧ a_client_id a = clientId) _ ag). }
    destruct (cascade_agent_keeps (store s) key clientId) as (K1 & K2 & K3).
    done.
  - intros id s1 resp H Hst.
    destruct (delete_client_route_ok _ _ _ _ H Hst)
      as (key & -> & _ & _ & -> & Hret).
    exists key. split; [done|].
    destruct (cascade_client_removes (store s) key Hret) as (H1 & H2 & H3 & _).
    done.
  - intros clientId id s1 resp H Hst.
    destruct (delete_agent_route_ok _ _ _ _ _ H Hst)
      as (key & -> & _ & _ & _ & -> & Hret).
    exists key. split; [done|].
    destruct (cascade_agent_removes (store s) key clientId Hret) as (H1 & H2).
    done.
  - intros Hfk acts. by apply run_fk_ok.
Qed.

(** Both clients have written one message.  Client 1 deletes its agent
    11: the message to it goes, client 2's message stays.  Then client 1
    itself is deleted. *)
Lemma cascade_delete_no_dangling_witness :
  map a_id (agents (store s_two)) = [10; 11; 12; 20] ∧
  map m_agent_id (messages (store s_two)) = [11; 20] ∧
  (∃ s1,
     delete_agent_route s_two 1 (AsInteger 11)
       = (s1, ok_message "Agent deleted successfully") ∧
     map a_id (agents (store s1)) = [10; 12; 20] ∧
     (∀ r, r ∈ messages (store s1) → m_agent_id r ≠ 11) ∧
     MessageRow 2 2 20 (Text "hello") (Some (pg_text no_webhook_text)) 1000
       ∈ messages (store s1)) ∧
  (∃ s1,
     delete_client_route s_two (AsInteger 1)
       = (s1, ok_message "Client deleted successfully") ∧
     map a_id (agents (store s1)) = [20] ∧
     map m_id (messages (store s1)) = [2] ∧
     (∀ ag, ag ∈ agents (store s1) → a_client_id ag ≠ 1) ∧
     (∀ r, r ∈ messages (store s1) → m_client_id r ≠ 1)) ∧
  fk_ok (store (run s_two [ADeleteAgent 1 (AsInteger 11);
                           ADeleteClient (AsInteger 1)])).
Proof.
  destruct (cascade_delete_no_dangling s_two) as (Hclient & Hagent & _ & _ & Hfk).
  do 2 (split; [vm_compute; reflexivity|]).
  split; [|split].
  - destruct (Hagent 11 1 eq_refl eq_refl) as (s1 & Hdel & _ & Hmsg & _ & _ & Hkeep).
    { exists (AgentRow 11 1 "Draft" None None (Some true)).
      split; [vm_compute; set_solver | done]. }
    exists s1. split; [exact Hdel|]. split.
    { vm_compute in Hdel. injection Hdel as <-. vm_compute. reflexivity. }
    split; [exact Hmsg|].
    apply Hkeep; [vm_compute; set_solver | discriminate].
  - destruct (Hclient 1 eq_refl) as (s1 & Hdel & _ & Hag & Hmsg & _).
    { exists (ClientRow 1 "acme" "ops@acme.test" (Some "Acme") None).
      split; [vm_compute; set_solver | done]. }
    exists s1. split; [exact Hdel|].
    split; [vm_compute in Hdel; injection Hdel as <-; vm_compute; reflexivity|].
    split; [vm_compute in Hdel; injection Hdel as <-; vm_compute; reflexivity|].
    split; [exact Hag | exact Hmsg].
  - apply Hfk. split; vm_compute; repeat constructor.
Defined.

(** ** Rooms: who is in, and who gets the push *)

Lemma members_join s k room room' :
  members (socket_join s k room) room' =
  if decide (room = room') then {[k]} ∪ members s room else members s room'.
Proof.
  unfold members, socket_join. simpl. rewrite lookup_insert.
  by case_decide.
Qed.

Lemma members_disconnect s k room :
  members (disconnect s k) room = members s room ∖ {[k]}.
Proof.
  unfold members, disconnect. simpl. rewrite lookup_fmap.
  destruct (rooms s !! room); simpl; [done|].
  apply set_eq. intros x. rewrite elem_of_difference, elem_of_empty. tauto.
Qed.

Lemma chat_post_rooms s clientId agentId message now :
  rooms (chat_post s clientId agentId message now).1.1 = rooms s.
Proof.
  destruct (chat_post s clientId agentId message now) as [[s1 resp] call] eqn:H.
  chat_cases H; done.
Qed.

Lemma delete_client_route_rooms s id :
  rooms (delete_client_route s id).1 = rooms s.
Proof.
  by destruct (delete_client_route_cases s id) as [-> | (key & _ & ->)].
Qed.

Lemma delete_agent_route_rooms s clientId id :
  rooms (delete_agent_route s clientId id).1 = rooms s.
Proof.
  by destruct (delete_agent_route_cases s clientId id) as [-> | (key & _ & _ & ->)].
Qed.

Lemma members_rooms s s' room :
  rooms s' = rooms s → members s' room = members s room.
Proof. unfold members. by intros ->. Qed.

Lemma step_keeps_member s a k room :
  stays_connected k [a] = true →
  k ∈ members s room → k ∈ members (step s a) room.
Proof.
  intros Hstay Hk. destruct a; simpl.
  - by rewrite (members_rooms s _ room (chat_post_rooms s _ _ _ _)).
  - by rewrite webhook_settle_resolved.
  - unfold join_client_room. rewrite members_join.
    case_decide; [subst; set_solver | done].
  - rewrite members_disconnect. simpl in Hstay.
    rewrite andb_true_r in Hstay. apply negb_true_iff, Nat.eqb_neq in Hstay.
    set_solver.
  - by rewrite (members_rooms s _ room (delete_client_route_rooms s _)).
  - by rewrite (members_rooms s _ room (delete_agent_route_rooms s _ _)).
Qed.

Lemma run_keeps_member acts : ∀ s k room,
  stays_connected k acts = true →
  k ∈ members s room → k ∈ members (run s acts) room.
Proof.
  induction acts as [|a acts IH]; intros s k room Hstay Hk; simpl; [done|].
  simpl in Hstay. apply andb_true_iff in Hstay as [Ha Hrest].
  apply IH; [done|]. apply step_keeps_member; [|done].
  simpl. by rewrite Ha.
Qed.

(** C10: [join_client_room] checks nothing.  Whatever socket [k] sends it,
    and whatever identity [claimed] it names, the socket is put in that
    identity's room; as long as it stays connected, every later
    [agent_response] for that client (from a webhook settlement or from
    the no-webhook branch) is sent to it too. *)
Theorem join_is_unauthenticated s (k : nat) (clientId : Z) (claimed : jsval) acts :
  client_room claimed = client_room (JNum clientId) →
  stays_connected k acts = true →
  let s1 := run (join_client_room s k claimed) acts in
  k ∈ members (join_client_room s k claimed) (client_room (JNum clientId)) ∧
  k ∈ members s1 (client_room (JNum clientId)) ∧
  (∀ p o,
      p_clientId p = clientId →
      delivered (webhook_settle s1 p o) k
                (AgentResponse (p_messageId p) (p_agentId p) (settled_text o))) ∧
  (∀ agentId message now s2 messageId,
      chat_post s1 clientId agentId message now
        = (s2, message_sent messageId, None) →
      delivered s2 k (AgentResponse messageId agentId no_webhook_text)).
Proof.
  intros Hroom Hstay s1.
  assert (Hjoin : k ∈ members (join_client_room s k claimed)
                              (client_room (JNum clientId))).
  { unfold join_client_room. rewrite members_join, Hroom.
    rewrite decide_True by done. set_solver. }
  assert (Hk : k ∈ members s1 (client_room (JNum clientId))).
  { by apply run_keeps_member. }
  split; [done|]. split; [done|]. split.
  - intros p o <-. by apply (settle_resolves_with s1 p o).
  - intros agentId message now s2 messageId H.
    chat_cases H. by apply resolved_delivered.
Qed.

(** Socket 66 receives the answer of agent 10 to client 1, and the
    placeholder of agent 11 when client 1 writes to it next. *)
Lemma join_is_unauthenticated_witness :
  delivered (webhook_settle s_spied call1 (Fulfilled hi_there)) 66%nat
            (AgentResponse 1 (AsInteger 10) (JStr "hi there")) ∧
  delivered (chat_post s_spied 1 (AsInteger 11) hello noon).1.1 66%nat
            (AgentResponse 2 (AsInteger 11) no_webhook_text).
Proof.
  destruct (join_is_unauthenticated s0 66%nat 1 (JStr "1")
              [AJoin 7%nat (JNum 1); AChat 1 (AsInteger 10) hello noon])
    as (_ & _ & Hsettle & Hchat); [reflexivity | reflexivity |].
  split.
  - exact (Hsettle call1 (Fulfilled hi_there) eq_refl).
  - apply (Hchat (AsInteger 11) hello noon). vm_compute. reflexivity.
Defined.

(** ** Resolution happens once and is never undone *)

(** The statement itself has no guard: it replaces whatever response the
    row holds.  That no response is ever replaced rests on the statement
    being run once per message, not on the statement. *)
Example update_statement_is_unconditional :
  map m_response
      (messages (write_response
                   (write_response (store s_sent) (Some (Text "first")) 1)
                   (Some (Text "second")) 1))
    = [Some (Text "second")].
Proof. vm_compute. reflexivity. Qed.

Lemma play_row_origin d turns r :
  r ∈ messages (store (srv (play (boot d) turns))) →
  r ∈ messages d ∨ m_response r = None ∨
  (0 < resolutions (trace (srv (play (boot d) turns))) (m_id r))%nat.
Proof.
  destruct (play_srv turns (boot d)) as [acts ->]. intros Hr.
  destruct (run_row_origin acts _ r Hr) as [? | [? | Hlt]];
    [by left | by right; left |].
  right. right.
  assert (Hzero : resolutions (trace (srv (boot d))) (m_id r) = 0%nat)
    by reflexivity.
  lia.
Qed.

(** C5: in every run of the server, started on a store whose message ids
    are sound, a message is resolved at most once and a response, once
    set, is never overwritten.  The row of an accepted submission is
    created with no response; as long as its call is in flight the row
    still has none and no resolution of it has taken place; a response on
    a row created during the run comes from the one resolution of its id;
    and a row that holds a response stays as it is through all later
    turns, until it is deleted: any row found under its id afterwards is
    that very row. *)
Theorem resolution_is_terminal d turns :
  pk_ok d →
  (∀ clientId agentId message now s1 resp p,
      chat_post (srv (play (boot d) turns)) clientId agentId message now
        = (s1, resp, Some p) →
      unanswered s1 (p_messageId p)) ∧
  (∀ p, p ∈ inflight (play (boot d) turns) →
        resolutions (trace (srv (play (boot d) turns))) (p_messageId p) = 0%nat ∧
        ∀ r, r ∈ messages (store (srv (play (boot d) turns))) →
             m_id r = p_messageId p → m_response r = None) ∧
  (∀ messageId,
      (resolutions (trace (srv (play (boot d) turns))) messageId ≤ 1)%nat) ∧
  (∀ r, r ∈ messages (store (srv (play (boot d) turns))) →
        r ∈ messages d ∨ m_response r = None ∨
        resolutions (trace (srv (play (boot d) turns))) (m_id r) = 1%nat) ∧
  (∀ r text,
      r ∈ messages (store (srv (play (boot d) turns))) →
      m_response r = Some text →
      ∀ more r',
        r' ∈ messages (store (srv (play (play (boot d) turns) more))) →
        m_id r' = m_id r → r' = r).
Proof.
  intros Hpk.
  pose proof (play_tracked turns (boot d) (boot_tracked d Hpk)) as Hinv.
  destruct Hinv as (Hpk' & Honce & Hun).
  assert (Hle : ∀ messageId,
             (resolutions (trace (srv (play (boot d) turns))) messageId ≤ 1)%nat).
  { intros messageId. destruct (Honce messageId) as [Hle _].
    unfold accounted in Hle. lia. }
  split; [|split; [|split; [|split]]].
  - intros clientId agentId message now s1 resp p H. chat_cases H.
    match goal with Hins : insert_message _ _ _ _ _ = _ |- _ =>
      pose proof (inserted_unanswered _ _ _ _ _ _ _ Hpk' Hins) as Hnew end.
    exact Hnew.
  - intros p Hp. split; [by apply inflight_unresolved|].
    intros r Hr Hid. by eapply Hun.
  - exact Hle.
  - intros r Hr. destruct (play_row_origin d turns r Hr) as [? | [? | Hpos]];
      [by left | by right; left |].
    right. right. specialize (Hle (m_id r)). lia.
  - intros r text Hr Hresp more r' Hr' Hid.
    by eapply (answered_rows_stay (play (boot d) turns) more r text).
Qed.

(** One run from an empty trace: client 1 writes to agent 10, the call
    settles, and a settlement of a call that is no longer in flight does
    nothing. *)
Example one_resolution_per_message :
  let n := play (boot db0) [TChat 1 (AsInteger 10) hello noon;
                            TSettle 0 (Fulfilled hi_there);
                            TSettle 0 (Rejected ETimeout)] in
  resolutions (trace (srv n)) 1 = 1%nat ∧
  map m_response (messages (store (srv n))) = [Some (Text "hi there")] ∧
  inflight n = [].
Proof. repeat split; vm_compute; reflexivity. Qed.

Lemma db0_pk_ok : pk_ok db0.
Proof. split; constructor. Qed.

(** Client 1's message is answered; whatever follows (a late settlement
    attempt, another submission, the deletion of another agent), the row
    found under id 1 is the answered one. *)
Lemma resolution_is_terminal_witness :
  pk_ok db0 ∧
  ∀ r', r' ∈ messages (store (srv (play (boot db0)
                [TChat 1 (AsInteger 10) hello noon;
                 TSettle 0 (Fulfilled hi_there);
                 TSettle 0 (Rejected ETimeout);
                 TChat 1 (AsInteger 11) hello noon;
                 TDeleteAgent 1 (AsInteger 11)]))) →
        m_id r' = 1 →
        r' = MessageRow 1 1 10 (Text "hello") (Some (Text "hi there")) 1000.
Proof.
  split; [exact db0_pk_ok|].
  destruct (resolution_is_terminal db0
              [TChat 1 (AsInteger 10) hello noon; TSettle 0 (Fulfilled hi_there)]
              db0_pk_ok) as (_ & _ & _ & _ & Hstay).
  intros r' Hr' Hid.
  apply (Hstay (MessageRow 1 1 10 (Text "hello") (Some (Text "hi there")) 1000)
               (Text "hi there")
               ltac:(vm_compute; apply list_elem_of_here) eq_refl
               [TSettle 0 (Rejected ETimeout);
                TChat 1 (AsInteger 11) hello noon;
                TDeleteAgent 1 (AsInteger 11)] r' Hr' Hid).
Defined.

(** * Beyond the relay claims: the other routes, the middleware, the pages *)

(** ** Response texts are never empty *)

Lemma truthy_text_pg v : truthy_text (pg_text v) = truthy v.
Proof. by destruct v. Qed.

Lemma resolved_answers_truthy s clientId agentId messageId text :
  truthy text = true →
  answers_truthy s →
  answers_truthy (resolved s clientId agentId messageId text).
Proof.
  intros Ht (Htrace & Hsent & Hrows). split; [|split].
  - rewrite resolved_trace. apply Forall_app. split; [done|].
    repeat constructor; simpl; by rewrite Ht.
  - rewrite resolved_sent. apply Forall_app. split; [done|].
    apply Forall_fmap, Forall_forall. intros k _. simpl. by rewrite Ht.
  - rewrite resolved_store. simpl. apply Forall_fmap.
    eapply Forall_impl; [exact Hrows|]. intros r Hr. simpl.
    case_bool_decide; [|done]. unfold truthy_row. simpl.
    by rewrite truthy_text_pg, Ht.
Qed.

Lemma log_answers_truthy e s :
  truthy_effect e = true → answers_truthy s → answers_truthy (log e s).
Proof.
  intros He (Htrace & Hsent & Hrows). split; [|done]. simpl.
  apply Forall_app. split; [done|]. repeat constructor. by rewrite He.
Qed.

Lemma insert_answers_truthy s d clientId agentId message now result :
  insert_message (store s) clientId agentId message now = (d, result) →
  answers_truthy s → answers_truthy (with_store d s).
Proof.
  intros Hins (Htrace & Hsent & Hold).
  split; [done|]. split; [done|]. simpl. destruct result as [messageId|].
  - apply insert_message_inv in Hins
      as (key & text & _ & _ & _ & _ & _ & _ & _ & _ & _ & _ & -> & _).
    apply Forall_app. split; [done|]. by repeat constructor.
  - apply insert_message_raises in Hins as (_ & _ & -> & _). done.
Qed.

Lemma delete_client_route_sent s id : sent (delete_client_route s id).1 = sent s.
Proof.
  by destruct (delete_client_route_cases s id) as [-> | (key & _ & ->)].
Qed.

Lemma delete_agent_route_sent s clientId id :
  sent (delete_agent_route s clientId id).1 = sent s.
Proof.
  by destruct (delete_agent_route_cases s clientId id) as [-> | (key & _ & _ & ->)].
Qed.

Lemma step_answers_truthy s a : answers_truthy s → answers_truthy (step s a).
Proof.
  intros Hinv. destruct a; simpl.
  - destruct (chat_post s clientId agentId message now) as [[s1 resp] call] eqn:H.
    chat_cases H; cbn [fst]; try done.
    + by eapply insert_answers_truthy.
    + apply log_answers_truthy; [done|]. apply log_answers_truthy; [done|].
      by eapply insert_answers_truthy.
    + apply resolved_answers_truthy; [done|]. apply log_answers_truthy; [done|].
      by eapply insert_answers_truthy.
  - rewrite webhook_settle_resolved.
    apply resolved_answers_truthy; [apply settled_text_truthy | done].
  - done.
  - done.
  - destruct Hinv as (Htrace & Hsent & Hrows). split; [|split].
    + by rewrite delete_client_route_trace.
    + by rewrite delete_client_route_sent.
    + apply Forall_forall. intros r Hr%delete_client_route_rows.
      rewrite Forall_forall in Hrows. by apply Hrows.
  - destruct Hinv as (Htrace & Hsent & Hrows). split; [|split].
    + by rewrite delete_agent_route_trace.
    + by rewrite delete_agent_route_sent.
    + apply Forall_forall. intros r Hr%delete_agent_route_rows.
      rewrite Forall_forall in Hrows. by apply Hrows.
Qed.

(** X1: whatever the webhook answers and however it fails, every response
    text the server writes to a row, pushes to a socket or leaves in the
    table is truthy (in particular never the empty string): the three
    fall-backs of the handler see to it.  This holds along every run. *)
Theorem answers_stay_truthy s acts :
  answers_truthy s → answers_truthy (run s acts).
Proof.
  revert s. induction acts as [|a acts IH]; intros s Hinv; simpl; [done|].
  by apply IH, step_answers_truthy.
Qed.

Lemma answers_stay_truthy_witness :
  answers_truthy
    (run s_room [AChat 1 (AsInteger 10) hello noon;
                 ASettle call1 (Fulfilled (JObj [("response", JStr "");
                                                 ("message", JNum 0)]));
                 AChat 1 (AsInteger 11) hello noon]).
Proof.
  apply answers_stay_truthy. repeat split; constructor.
Defined.

(** ** The primary key of [messages] *)

(** X2: the ids of [messages] behave as a primary key along every run:
    they stay pairwise distinct and below the sequence, through
    submissions, settlements and cascading deletes. *)
Theorem message_ids_stay_unique s acts :
  pk_ok (store s) → pk_ok (store (run s acts)).
Proof. apply run_pk_ok. Qed.

Lemma message_ids_stay_unique_witness :
  pk_ok (store (run s_room [AChat 1 (AsInteger 10) hello noon;
                            AChat 2 (AsInteger 20) hello noon;
                            ASettle call1 (Rejected ENetwork);
                            ADeleteAgent 1 (AsInteger 10);
                            AChat 1 (AsInteger 11) hello noon])).
Proof.
  apply message_ids_stay_unique. split; constructor.
Defined.

(** ** What a submission and a run leave alone *)

(** X3: a submission never changes or removes a message row that exists
    already, whichever branch it takes: the only row it writes to is the
    one it has just inserted, whose id no earlier row has. *)
Theorem submission_leaves_other_rows s clientId agentId message now s1 resp call :
  pk_ok (store s) →
  chat_post s clientId agentId message now = (s1, resp, call) →
  (∀ r, r ∈ messages (store s) → r ∈ messages (store s1)) ∧
  (status resp = 200 →
   ∃ messageId,
     resp = message_sent messageId ∧
     messageId = messages_id_seq (store s) ∧
     ∀ r, r ∈ messages (store s) → m_id r ≠ messageId).
Proof.
  intros [_ Hlt] H. rewrite Forall_forall in Hlt.
  chat_cases H; try (split; [done|]; intros Hst; done).
  - match goal with Hins : insert_message _ _ _ _ _ = _ |- _ =>
      apply insert_message_raises in Hins as (_ & _ & Hrows & _) end.
    split; [|done]. intros r Hr. simpl. by rewrite Hrows.
  - match goal with Hins : insert_message _ _ _ _ _ = _ |- _ =>
      pose proof (insert_message_seq _ _ _ _ _ _ _ Hins) as [-> _];
      apply insert_message_inv in Hins
        as (key & text & _ & _ & _ & _ & _ & _ & _ & _ & _ & _ & Hrows & _) end.
    split.
    + intros r Hr. simpl. rewrite Hrows. apply elem_of_app. by left.
    + intros _. eexists. split; [done|]. split; [done|].
      intros r Hr. specialize (Hlt r Hr). lia.
  - match goal with Hins : insert_message _ _ _ _ _ = _ |- _ =>
      pose proof (insert_message_seq _ _ _ _ _ _ _ Hins) as [-> _];
      apply insert_message_inv in Hins
        as (key & text & _ & _ & _ & _ & _ & _ & _ & _ & _ & _ & Hrows & _) end.
    split.
    + intros r Hr. apply resolved_row_kept.
      * simpl. rewrite Hrows. apply elem_of_app. by left.
      * specialize (Hlt r Hr). lia.
    + intros _. eexists. split; [done|]. split; [done|].
      intros r Hr. specialize (Hlt r Hr). lia.
Qed.

Lemma submission_leaves_other_rows_witness :
  MessageRow 1 1 10 (Text "hello") (Some (Text "hi there")) 1000
    ∈ messages (store (chat_post s_answered 1 (AsInteger 11) hello noon).1.1).
Proof.
  destruct (chat_post s_answered 1 (AsInteger 11) hello noon)
    as [[s1 resp] call] eqn:H.
  destruct (submission_leaves_other_rows s_answered 1 (AsInteger 11) hello noon
              s1 resp call)
    as [Hkeep _]; [split; vm_compute; repeat constructor; set_solver | exact H |].
  apply Hkeep. vm_compute. apply list_elem_of_here.
Defined.

Lemma same_message_refl r : same_message r r.
Proof. by repeat split. Qed.

Lemma same_message_trans r1 r2 r3 :
  same_message r1 r2 → same_message r2 r3 → same_message r1 r3.
Proof.
  intros (?&?&?&?&?) (?&?&?&?&?). repeat split; congruence.
Qed.

Lemma resolved_row_same s clientId agentId messageId text r' :
  r' ∈ messages (store (resolved s clientId agentId messageId text)) →
  ∃ r, r ∈ messages (store s) ∧ same_message r r'.
Proof.
  intros (r & Hr & [[_ ->] | [_ ->]])%resolved_rows_inv; exists r;
    (split; [done|]); by repeat split.
Qed.

Lemma step_row_same s a r' :
  r' ∈ messages (store (step s a)) →
  (∃ r, r ∈ messages (store s) ∧ same_message r r') ∨
  m_id r' = messages_id_seq (store s).
Proof.
  destruct a; simpl.
  - destruct (chat_post s clientId agentId message now) as [[s1 resp] call] eqn:H.
    chat_cases H; cbn [fst];
      try (intros Hr; left; exists r'; split; [done | apply same_message_refl]).
    + match goal with Hins : insert_message _ _ _ _ _ = _ |- _ =>
        apply insert_message_raises in Hins as (_ & _ & Hrows & _) end.
      simpl. rewrite Hrows. intros Hr. left. exists r'.
      split; [done | apply same_message_refl].
    + match goal with Hins : insert_message _ _ _ _ _ = _ |- _ =>
        pose proof (insert_message_seq _ _ _ _ _ _ _ Hins) as [-> _];
        apply insert_message_inv in Hins
          as (key & text & _ & _ & _ & _ & _ & _ & _ & _ & _ & _ & Hrows & _) end.
      simpl. rewrite Hrows.
      intros [Hr | ->%list_elem_of_singleton]%elem_of_app; [|by right].
      left. exists r'. split; [done | apply same_message_refl].
    + match goal with Hins : insert_message _ _ _ _ _ = _ |- _ =>
        pose proof (insert_message_seq _ _ _ _ _ _ _ Hins) as [-> _];
        apply insert_message_inv in Hins
          as (key & text & _ & _ & _ & _ & _ & _ & _ & _ & _ & _ & Hrows & _) end.
      intros (r & Hr & Hsame)%resolved_row_same. simpl in Hr. rewrite Hrows in Hr.
      apply elem_of_app in Hr as [Hr | ->%list_elem_of_singleton].
      * left. by exists r.
      * right. by destruct Hsame as (-> & _).
  - rewrite webhook_settle_resolved. intros ?%resolved_row_same. by left.
  - intros Hr. left. exists r'. split; [done | apply same_message_refl].
  - intros Hr. left. exists r'. split; [done | apply same_message_refl].
  - intros Hr%delete_client_route_rows. left. exists r'.
    split; [done | apply same_message_refl].
  - intros Hr%delete_agent_route_rows. left. exists r'.
    split; [done | apply same_message_refl].
Qed.

(** X4: along any run a message row keeps its id, owner, agent, request
    text and timestamp: a row of the final table either continues a row of
    the initial table, differing at most in its response, or was created
    during the run with an id the sequence had not yet handed out. *)
Theorem rows_keep_their_identity acts : ∀ s r',
  r' ∈ messages (store (run s acts)) →
  (∃ r, r ∈ messages (store s) ∧ same_message r r') ∨
  messages_id_seq (store s) ≤ m_id r'.
Proof.
  induction acts as [|a acts IH]; intros s r' Hr'; simpl in *.
  - left. exists r'. split; [done | apply same_message_refl].
  - pose proof (step_seq_mono s a) as Hmono.
    destruct (IH _ _ Hr') as [(r1 & Hr1 & Hsame1) | Hnew]; [|right; lia].
    destruct (step_row_same s a r1 Hr1) as [(r & Hr & Hsame) | Hid].
    + left. exists r. split; [done|]. by eapply same_message_trans.
    + right. destruct Hsame1 as (-> & _). lia.
Qed.

Lemma rows_keep_their_identity_witness :
  ∃ r, r ∈ messages (store s_sent) ∧
       same_message r (MessageRow 1 1 10 (Text "hello")
                                  (Some (pg_text unavailable_text)) 1000).
Proof.
  destruct (rows_keep_their_identity
              [AChat 2 (AsInteger 20) hello noon; ASettle call1 (Rejected ETimeout)]
              s_sent (MessageRow 1 1 10 (Text "hello")
                                 (Some (pg_text unavailable_text)) 1000))
    as [Hold | Hnew].
  - vm_compute. apply list_elem_of_here.
  - exact Hold.
  - vm_compute in Hnew. by destruct Hnew.
Defined.

(** ** The history route *)

(** X5: the history of an agent is exactly the caller's rows for that
    agent, each once, in ascending timestamp order; no row of another
    client or another agent is ever in it.  The route returns rows for
    every caller and agent id that are 32-bit integers, and for no
    other. *)
Theorem history_is_own_rows_in_order s clientId agentId :
  (∀ rows, chat_history s clientId agentId = inr rows →
     ∃ key,
       agentId = AsInteger key ∧
       Sorted by_timestamp rows ∧
       rows ≡ₚ
         filter (fun r => m_client_id r = clientId ∧ m_agent_id r = key)
                (messages (store s)) ∧
       ∀ r, r ∈ rows →
            r ∈ messages (store s) ∧ m_client_id r = clientId ∧ m_agent_id r = key) ∧
  (∀ key, agentId = AsInteger key → in_int4 key = true → in_int4 clientId = true →
     ∃ rows, chat_history s clientId agentId = inr rows) ∧
  (∀ resp, chat_history s clientId agentId = inl resp →
     resp = json_error 500 "Database error" ∧
     (pg_int4 agentId = None ∨ in_int4 clientId = false)).
Proof.
  split; [|split].
  - intros rows (key & -> & _ & _ & ->)%chat_history_inv. exists key.
    split; [done|]. split; [|split].
    + apply Sorted_merge_sort. apply _.
    + apply merge_sort_Permutation.
    + intros r. apply elem_of_history_rows.
  - intros key -> Hk Hc. eexists. by apply chat_history_rows.
  - intros resp. unfold chat_history, select_history, bind_int.
    destruct (in_int4 clientId); simpl; [|intros [= <-]; by split; [|right]].
    destruct (pg_int4 agentId); simpl; [done|].
    intros [= <-]. by split; [|left].
Qed.

(** Two messages of client 1 to agent 11, written in reverse time order,
    and one of client 2: the history of (1, 11) has the two, oldest first. *)
Lemma history_is_own_rows_in_order_witness :
  ∃ rows,
    chat_history
      (run s0 [AChat 1 (AsInteger 11) hello (Instant 2000 "later");
               AChat 2 (AsInteger 20) hello noon;
               AChat 1 (AsInteger 11) hello (Instant 1500 "sooner")])
      1 (AsInteger 11) = inr rows ∧
    map m_id rows = [3; 1] ∧
    ∀ r, r ∈ rows → m_client_id r = 1.
Proof.
  destruct (history_is_own_rows_in_order
              (run s0 [AChat 1 (AsInteger 11) hello (Instant 2000 "later");
                       AChat 2 (AsInteger 20) hello noon;
                       AChat 1 (AsInteger 11) hello (Instant 1500 "sooner")])
              1 (AsInteger 11))
    as (Hown & Hsome & _).
  destruct (Hsome 11 eq_refl eq_refl eq_refl) as [rows Hrows].
  exists rows. split; [exact Hrows|].
  destruct (Hown rows Hrows) as (key & _ & _ & _ & Hin).
  split.
  - vm_compute in Hrows. injection Hrows as <-. reflexivity.
  - intros r Hr. by destruct (Hin r Hr) as (_ & ? & _).
Defined.

(** ** The middleware *)

Lemma split_on_no_space s : no_space s = true → split_on space s = [s].
Proof.
  induction s as [|c s IH]; simpl; [done|].
  intros [Hc Hs]%andb_true_iff. apply negb_true_iff in Hc.
  rewrite Hc, (IH Hs). done.
Qed.

Lemma split_on_app a b :
  no_space a = true →
  split_on space (a +:+ String space b) = a :: split_on space b.
Proof.
  induction a as [|c a IH]; simpl.
  - intros _. done.
  - intros [Hc Ha]%andb_true_iff. apply negb_true_iff in Hc.
    rewrite Hc, (IH Ha). done.
Qed.

Lemma app_space_nonempty a b : String.eqb (a +:+ String space b) "" = false.
Proof. by destruct a. Qed.

Lemma eqb_nonempty (t : string) : t ≠ "" → String.eqb t "" = false.
Proof. intros Ht. by destruct (String.eqb_spec t ""). Qed.

Lemma header_token_second_word scheme tok :
  no_space scheme = true → no_space tok = true → tok ≠ "" →
  header_token (Some (scheme +:+ String space tok)) = Some tok.
Proof.
  intros Hs Ht Hne. unfold header_token.
  rewrite app_space_nonempty, (split_on_app _ _ Hs), (split_on_no_space _ Ht).
  simpl. by rewrite (eqb_nonempty _ Hne).
Qed.

Lemma header_token_ignores_rest scheme tok rest :
  no_space scheme = true → no_space tok = true → tok ≠ "" →
  header_token (Some (scheme +:+ String space (tok +:+ String space rest)))
  = Some tok.
Proof.
  intros Hs Ht Hne. unfold header_token.
  rewrite app_space_nonempty, (split_on_app _ _ Hs), (split_on_app _ _ Ht).
  simpl. by rewrite (eqb_nonempty _ Hne).
Qed.

(** X6: both middlewares take the second space-separated piece of the
    [Authorization] header as the token and look at nothing else: the
    scheme word may be anything without a space ("Bearer", "Basic", even
    nothing), and whatever follows a further space is ignored.  What each
    middleware answers is then fixed by [jwt.verify] of that piece alone:
    the client one passes every verified payload, the admin one every
    verified payload whose role is ['admin']. *)
Theorem auth_scheme_is_not_checked verify scheme tok rest :
  no_space scheme = true → no_space tok = true → tok ≠ "" →
  let plain := Some (scheme +:+ String space tok) in
  let longer := Some (scheme +:+ String space (tok +:+ String space rest)) in
  header_token plain = Some tok ∧
  header_token longer = Some tok ∧
  authenticateToken verify plain =
    match verify tok with
    | Some user => Next user
    | None => Reject (json_error 403 "Invalid token")
    end ∧
  authenticateAdmin verify plain =
    match verify tok with
    | Some user =>
        if String.eqb (u_role user) "admin" then Next user
        else Reject (json_error 403 "Admin access required")
    | None => Reject (json_error 403 "Admin access required")
    end ∧
  authenticateToken verify longer = authenticateToken verify plain ∧
  authenticateAdmin verify longer = authenticateAdmin verify plain.
Proof.
  intros Hs Ht Hne plain longer.
  assert (Hp : header_token plain = Some tok) by by apply header_token_second_word.
  assert (Hl : header_token longer = Some tok) by by apply header_token_ignores_rest.
  unfold authenticateToken, authenticateAdmin. rewrite Hp, Hl. done.
Qed.

Lemma auth_scheme_is_not_checked_witness :
  authenticateToken demo_verify (Some "Basic t-acme") = Next (Claims 1 "acme" "client") ∧
  authenticateAdmin demo_verify (Some "Basic t-root") = Next (Claims 1 "admin" "admin") ∧
  authenticateAdmin demo_verify (Some "Basic t-acme")
    = Reject (json_error 403 "Admin access required") ∧
  authenticateToken demo_verify (Some "Bearer t-acme and more")
    = authenticateToken demo_verify (Some "Bearer t-acme").
Proof.
  split; [|split; [|split]].
  - destruct (auth_scheme_is_not_checked demo_verify "Basic" "t-acme" "")
      as (_ & _ & Hplain & _); [reflexivity | reflexivity | discriminate |].
    exact Hplain.
  - destruct (auth_scheme_is_not_checked demo_verify "Basic" "t-root" "")
      as (_ & _ & _ & Hadmin & _); [reflexivity | reflexivity | discriminate |].
    exact Hadmin.
  - destruct (auth_scheme_is_not_checked demo_verify "Basic" "t-acme" "")
      as (_ & _ & _ & Hadmin & _); [reflexivity | reflexivity | discriminate |].
    exact Hadmin.
  - destruct (auth_scheme_is_not_checked demo_verify "Bearer" "t-acme" "and more")
      as (_ & _ & _ & _ & Hlonger & _); [reflexivity | reflexivity | discriminate |].
    exact Hlonger.
Defined.

(** X7: a request with no [Authorization] header, with a header of one
    word only (also the empty one), with nothing after the space, or with
    two spaces before the token is refused with 401 "Access token
    required" by both middlewares, before [jwt.verify] is consulted: even
    a valid token after a double space is not found. *)
Theorem malformed_header_is_401 verify scheme tok :
  no_space scheme = true →
  ∀ h, h ∈ [None;
            Some scheme;
            Some (scheme +:+ String space "");
            Some (scheme +:+ String space (String space tok))] →
       authenticateToken verify h = Reject (json_error 401 "Access token required") ∧
       authenticateAdmin verify h = Reject (json_error 401 "Access token required").
Proof.
  intros Hs h Hh.
  assert (Hnone : header_token h = None).
  { repeat (apply elem_of_cons in Hh as [-> | Hh]); [| | | |by apply elem_of_nil in Hh].
    - done.
    - unfold header_token. destruct (String.eqb scheme ""); [done|].
      by rewrite (split_on_no_space _ Hs).
    - unfold header_token.
      rewrite app_space_nonempty, (split_on_app _ _ Hs). done.
    - unfold header_token.
      rewrite app_space_nonempty, (split_on_app _ _ Hs). done. }
  unfold authenticateToken, authenticateAdmin. by rewrite Hnone.
Qed.

Lemma malformed_header_is_401_witness :
  authenticateToken demo_verify (Some "Bearer  t-acme")
    = Reject (json_error 401 "Access token required") ∧
  authenticateAdmin demo_verify (Some "Bearer")
    = Reject (json_error 401 "Access token required").
Proof.
  split.
  - apply (malformed_header_is_401 demo_verify "Bearer" "t-acme" eq_refl).
    set_solver.
  - apply (malformed_header_is_401 demo_verify "Bearer" "t-acme" eq_refl).
    set_solver.
Defined.

(** X8: [authenticateToken] does not look at the role.  Every header the
    admin middleware lets through is let through by the client middleware
    with the same payload, so the chat routes serve an administrator's
    token as the client whose id equals the administrator's id; the
    converse fails: a verified token whose role is not ['admin'] gets 403
    from the admin middleware. *)
Theorem admin_token_passes_client_gate verify h user :
  (authenticateAdmin verify h = Next user →
   u_role user = "admin" ∧
   authenticateToken verify h = Next user ∧
   (∀ s agentId message now,
       api_chat_post verify s h agentId message now
       = chat_post s (u_id user) agentId message now) ∧
   (∀ s agentId,
       api_chat_history verify s h agentId
       = chat_history s (u_id user) agentId)) ∧
  (authenticateToken verify h = Next user → u_role user ≠ "admin" →
   authenticateAdmin verify h = Reject (json_error 403 "Admin access required") ∧
   ∀ s id, api_delete_client verify s h id
           = (s, json_error 403 "Admin access required")).
Proof.
  unfold api_chat_post, api_chat_history, api_delete_client,
    authenticateAdmin, authenticateToken.
  destruct (header_token h) as [token|]; [|by split].
  destruct (verify token) as [u|]; [|by split].
  destruct (String.eqb_spec (u_role u) "admin") as [Hrole | Hrole].
  - split.
    + intros [= ->]. done.
    + intros [= ->] Hne. done.
  - split.
    + done.
    + intros [= ->] _. done.
Qed.

Lemma admin_token_passes_client_gate_witness :
  api_chat_post demo_verify s0 (Some "Bearer t-root") (AsInteger 11) hello noon
    = chat_post s0 1 (AsInteger 11) hello noon ∧
  api_delete_client demo_verify s0 (Some "Bearer t-acme") (AsInteger 2)
    = (s0, json_error 403 "Admin access required").
Proof.
  destruct (admin_token_passes_client_gate demo_verify (Some "Bearer t-root")
              (Claims 1 "admin" "admin")) as [Hadmin _].
  destruct (admin_token_passes_client_gate demo_verify (Some "Bearer t-acme")
              (Claims 1 "acme" "client")) as [_ Hclient].
  split.
  - apply Hadmin. reflexivity.
  - apply Hclient; [reflexivity | discriminate].
Defined.

(** ** Editing and deleting agents *)

Lemma filter_keeps_all {A} (P : A → Prop) `{∀ x, Decision (P x)} (l : list A) :
  (∀ x, x ∈ l → P x) → filter P l = l.
Proof.
  induction l as [|x l IH]; intros Hall; [done|].
  rewrite filter_cons, decide_True by (apply Hall; left).
  rewrite IH; [done|]. intros y Hy. apply Hall. by right.
Qed.

Lemma filter_drops_all {A} (P : A → Prop) `{∀ x, Decision (P x)} (l : list A) :
  (∀ x, x ∈ l → ¬ P x) → filter P l = [].
Proof.
  induction l as [|x l IH]; intros Hnone; [done|].
  rewrite filter_cons, decide_False by (apply Hnone; left).
  apply IH. intros y Hy. apply Hnone. by right.
Qed.

Lemma filter_fmap_stable {A} (P : A → Prop) `{∀ x, Decision (P x)}
    (f : A → A) (l : list A) :
  (∀ x, P (f x) ↔ P x) → filter P (map f l) = map f (filter P l).
Proof.
  intros Hf. induction l as [|x l IH]; [done|]. simpl.
  rewrite !filter_cons, IH.
  destruct (decide (P x)) as [Hx | Hx].
  - by rewrite decide_True by by apply Hf.
  - by rewrite decide_False by by rewrite Hf.
Qed.

Lemma map_untouched {A} (P : A → Prop) `{∀ x, Decision (P x)}
    (f : A → A) (l : list A) :
  (∀ x, x ∈ l → ¬ P x) →
  map (fun x => if bool_decide (P x) then f x else x) l = l.
Proof.
  intros Hnone. induction l as [|x l IH]; [done|]. simpl.
  rewrite bool_decide_eq_false_2 by (apply Hnone; left).
  rewrite IH; [done|]. intros y Hy. apply Hnone. by right.
Qed.

Lemma fits_text_param field :
  fits_text field = true ↔ text_param field = Some field.
Proof.
  destruct field as [s|]; simpl; [|done].
  destruct (has_nul s); simpl; split; done.
Qed.

Lemma fits_name_param field :
  fits_name field = true ↔
  text_param field = Some field ∧ is_Some (varchar_param 255 field).
Proof.
  destruct field as [s|]; simpl; [|by split; [split|]].
  destruct (has_nul s); simpl; [by split; [|intros [? _]]|].
  rewrite bool_decide_eq_true. split.
  - intros [s' Hs']. split; [done|]. rewrite Hs'. by eexists.
  - intros [_ [o Ho]]. destruct (varchar 255 s); [by eexists | done].
Qed.

(** A form whose fields do not bind makes the statement raise, whatever
    the rows. *)
Lemma update_agent_unbound d form id clientId :
  form_binds form = false → update_agent d form id clientId = None.
Proof.
  unfold form_binds, update_agent. intros Hbad.
  destruct (text_param (f_name form)) as [name|] eqn:Hn; [|done].
  destruct (text_param (f_description form)) as [description|] eqn:Hd; [|done].
  destruct (text_param (f_webhook_url form)) as [url|] eqn:Hu; [|done].
  simpl.
  destruct (pg_int4 id) as [key|]; [|done]. simpl.
  destruct (bind_int clientId) as [c|]; [|done]. simpl.
  destruct (varchar_param 255 name) as [fitted|] eqn:Hv; [|done].
  assert (Hn' : text_param (f_name form) = Some (f_name form)).
  { destruct (f_name form) as [x|]; simpl in *; [|done].
    by destruct (has_nul x). }
  assert (name = f_name form) as -> by congruence.
  assert (Hok : fits_name (f_name form) = true)
    by (apply fits_name_param; split; [done | by eexists]).
  assert (Hd' : fits_text (f_description form) = true).
  { apply fits_text_param. destruct (f_description form) as [x|]; simpl in *; [|done].
    by destruct (has_nul x). }
  assert (Hu' : fits_text (f_webhook_url form) = true).
  { apply fits_text_param. destruct (f_webhook_url form) as [x|]; simpl in *; [|done].
    by destruct (has_nul x). }
  by rewrite Hok, Hd', Hu' in Hbad.
Qed.

(** What the statement does when everything binds. *)
Lemma update_agent_bound d form key clientId :
  in_int4 key = true → in_int4 clientId = true → form_binds form = true →
  ∃ fitted,
    varchar_param 255 (f_name form) = Some fitted ∧
    update_agent d form (AsInteger key) clientId =
      match filter (fun a => a_id a = key ∧ a_client_id a = clientId) (agents d) with
      | [] => Some (d, [])
      | matched =>
          match fitted with
          | None => None
          | Some name' =>
              Some (Store (clients d)
                      (map (fun a => if bool_decide (a_id a = key ∧ a_client_id a = clientId)
                                     then apply_form name' (f_description form)
                                            (f_webhook_url form) (f_is_active form) a
                                     else a)
                           (agents d))
                      (messages d) (messages_id_seq d),
                    map a_id matched)
          end
      end.
Proof.
  intros Hk Hc Hb. unfold form_binds in Hb.
  apply andb_true_iff in Hb as [[Hn Hd]%andb_true_iff Hu].
  apply fits_name_param in Hn as [Hn [fitted Hv]].
  apply fits_text_param in Hd. apply fits_text_param in Hu.
  exists fitted. split; [done|].
  unfold update_agent. rewrite Hn, Hd, Hu. simpl.
  unfold bind_int. rewrite Hk, Hc. simpl. rewrite Hv. done.
Qed.

Lemma update_agent_bad_ids d form id clientId :
  pg_int4 id = None ∨ in_int4 clientId = false →
  update_agent d form id clientId = None.
Proof.
  intros Hbad. unfold update_agent, bind_int.
  destruct (text_param (f_name form)); [|done].
  destruct (text_param (f_description form)); [|done].
  destruct (text_param (f_webhook_url form)); [|done]. simpl.
  destruct (pg_int4 id); [|done]. simpl.
  destruct (in_int4 clientId); [|done].
  by destruct Hbad.
Qed.

(** Reading a successful statement backwards. *)
Lemma update_agent_inv d form id clientId d' ret :
  update_agent d form id clientId = Some (d', ret) →
  ∃ key,
    id = AsInteger key ∧ in_int4 key = true ∧ in_int4 clientId = true ∧
    form_binds form = true ∧
    ret = map a_id (filter (fun a => a_id a = key ∧ a_client_id a = clientId)
                           (agents d)) ∧
    ((ret = [] ∧ d' = d) ∨
     (ret ≠ [] ∧
      ∃ name name',
        f_name form = Some name ∧ varchar 255 name = Some name' ∧
        d' = Store (clients d)
               (map (fun a => if bool_decide (a_id a = key ∧ a_client_id a = clientId)
                              then apply_form name' (f_description form)
                                     (f_webhook_url form) (f_is_active form) a
                              else a)
                    (agents d))
               (messages d) (messages_id_seq d))).
Proof.
  intros Hupd.
  destruct (form_binds form) eqn:Hb;
    [|by rewrite update_agent_unbound in Hupd].
  destruct (pg_int4 id) as [key|] eqn:Hk;
    [|by rewrite update_agent_bad_ids in Hupd by by left].
  destruct (in_int4 clientId) eqn:Hc;
    [|by rewrite update_agent_bad_ids in Hupd by by right].
  apply pg_int4_Some in Hk as [-> Hk].
  destruct (update_agent_bound d form key clientId Hk Hc Hb) as (fitted & Hv & Heq).
  rewrite Heq in Hupd. clear Heq.
  exists key. do 4 (split; [done|]).
  destruct (filter _ (agents d)) as [|a0 rest] eqn:Hf.
  - injection Hupd as <- <-. split; [done|]. by left.
  - destruct fitted as [name'|]; [|done].
    injection Hupd as <- <-.
    split; [done|]. right. split; [done|].
    destruct (f_name form) as [nm|] eqn:Hnm; simpl in Hv; [|done].
    exists nm, name'. split; [done|]. split; [|done].
    destruct (varchar 255 nm); simpl in Hv; congruence.
Qed.

(** The route on an agent of the caller, with a form that binds. *)
Lemma put_agent_own s clientId key form a name name' :
  a ∈ agents (store s) → a_id a = key → a_client_id a = clientId →
  in_int4 key = true → in_int4 clientId = true →
  form_binds form = true → f_name form = Some name →
  varchar 255 name = Some name' →
  put_agent_route s clientId (AsInteger key) form =
    (with_store
       (Store (clients (store s))
          (map (fun x => if bool_decide (a_id x = key ∧ a_client_id x = clientId)
                         then apply_form name' (f_description form)
                                (f_webhook_url form) (f_is_active form) x
                         else x)
               (agents (store s)))
          (messages (store s)) (messages_id_seq (store s))) s,
     ok_message "Agent updated successfully").
Proof.
  intros Ha Hid Hcl Hk Hc Hb Hname Hfit.
  destruct (update_agent_bound (store s) form key clientId Hk Hc Hb)
    as (fitted & Hv & Heq).
  rewrite Hname in Hv. simpl in Hv. rewrite Hfit in Hv. simpl in Hv.
  injection Hv as <-.
  unfold put_agent_route. rewrite Heq.
  assert (Hin : a ∈ filter (fun x => a_id x = key ∧ a_client_id x = clientId)
                           (agents (store s)))
    by by apply list_elem_of_filter.
  destruct (filter _ (agents (store s))) as [|a0 rest]; [by apply elem_of_nil in Hin|].
  done.
Qed.

(** X9: [PUT /api/agents/:id] writes to the caller's own agent and to
    nothing else: every agent row keeps its id and its owner, rows that are
    not (this id, this caller) are unchanged, and so are the clients, the
    messages, the rooms and the trace.  When it answers anything but 200
    the state is as before.  The foreign keys survive. *)
Theorem put_agent_touches_only_own s clientId id form s1 resp :
  put_agent_route s clientId id form = (s1, resp) →
  clients (store s1) = clients (store s) ∧
  messages (store s1) = messages (store s) ∧
  rooms s1 = rooms s ∧ sent s1 = sent s ∧ trace s1 = trace s ∧
  Forall2 (fun a a' =>
             a_id a' = a_id a ∧ a_client_id a' = a_client_id a ∧
             (¬ (pg_int4 id = Some (a_id a) ∧ a_client_id a = clientId) → a' = a))
          (agents (store s)) (agents (store s1)) ∧
  (status resp ≠ 200 → s1 = s) ∧
  (fk_ok (store s) → fk_ok (store s1)).
Proof.
  assert (Hdiag : Forall2 (fun a a' =>
                    a_id a' = a_id a ∧ a_client_id a' = a_client_id a ∧
                    (¬ (pg_int4 id = Some (a_id a) ∧ a_client_id a = clientId) → a' = a))
                  (agents (store s)) (agents (store s))).
  { apply Forall_Forall2_diag, Forall_forall. by intros a _. }
  unfold put_agent_route.
  destruct (update_agent (store s) form id clientId) as [[d ret]|] eqn:Hupd.
  2: { intros [= <- <-]. do 5 (split; [done|]). split; [exact Hdiag|]. by split. }
  apply update_agent_inv in Hupd
    as (key & -> & Hk & Hc & Hb & Hret & [[-> ->] | (Hne & name & name' & Hn & Hv & ->)]).
  { intros [= <- <-]. rewrite with_store_same.
    do 5 (split; [done|]). split; [exact Hdiag|]. by split. }
  destruct ret as [|x ret]; [done|].
  intros [= <- <-]. simpl.
  do 5 (split; [done|]). split; [|split; [by intros []|]].
  - apply Forall2_fmap_r. apply Forall_Forall2_diag, Forall_forall.
    intros a _. simpl. unfold bind_int. rewrite Hk.
    case_bool_decide as Hhit; simpl; [|done].
    split; [done|]. split; [done|]. intros Hno. destruct Hno.
    destruct Hhit as [-> ->]. done.
  - intros [Hag Hmsg]. split; simpl.
    + apply Forall_fmap. eapply Forall_impl; [exact Hag|].
      intros a Ha. simpl. by case_bool_decide.
    + eapply Forall_impl; [exact Hmsg|]. intros r [Hcl Ha]. split; [done|].
      apply has_agent_iff in Ha as (ag & Hin & Hid).
      apply has_agent_iff. simpl.
      exists (if bool_decide (a_id ag = key ∧ a_client_id ag = clientId)
              then apply_form name' (f_description form) (f_webhook_url form)
                     (f_is_active form) ag
              else ag).
      split; [|by case_bool_decide].
      apply list_elem_of_fmap. by exists ag.
Qed.

Lemma put_agent_touches_only_own_witness :
  (put_agent_route s0 2 (AsInteger 10) (edit_form "Taken over" "" "")).1 = s0 ∧
  agents (store (put_agent_route s0 1 (AsInteger 10)
                   (edit_form "Helpdesk" "" hook)).1) =
    [AgentRow 10 1 "Helpdesk" (Some "") (Some hook) None;
     AgentRow 11 1 "Draft" None None (Some true);
     AgentRow 12 1 "Retired" None (Some hook) (Some false);
     AgentRow 20 2 "Sales" (Some "Outbound") (Some "") (Some true)].
Proof.
  split.
  - destruct (put_agent_route s0 2 (AsInteger 10) (edit_form "Taken over" "" ""))
      as [s1 resp] eqn:H.
    destruct (put_agent_touches_only_own s0 2 (AsInteger 10) _ s1 resp H)
      as (_ & _ & _ & _ & _ & _ & Hsame & _).
    apply Hsame. vm_compute in H. injection H as _ <-. discriminate.
  - vm_compute. reflexivity.
Defined.

Lemma select_agent_in_range d key clientId :
  in_int4 key = true → in_int4 clientId = true →
  select_agent d (AsInteger key) clientId = Some (agent_rows d key clientId).
Proof.
  intros Hk Hc. unfold select_agent. rewrite (pg_int4_in_range _ Hk).
  unfold bind_int. by rewrite Hc.
Qed.

(** X10: the dashboard's edit form carries no [is_active] field, so the
    UPDATE writes [NULL] to the flag.  After any edit made through it that
    the store takes (no U+0000 in the three texts, a name that fits 255
    characters) the agent counts as inactive, whatever it was before:
    every chat submission to it is refused with 400, "Agent is not active"
    if it has a message text and "Message required" if not.  An edit that
    the store does not take is answered with 500 and changes nothing. *)
Theorem dashboard_edit_deactivates s clientId id name description url agent :
  getRow <$> select_agent (store s) id clientId = Some (Some agent) →
  let r := put_agent_route s clientId id (edit_form name description url) in
  (form_binds (edit_form name description url) = true →
   ∃ key fitted,
     id = AsInteger key ∧ varchar 255 name = Some fitted ∧
     status r.2 = 200 ∧
     getRow <$> select_agent (store r.1) id clientId
       = Some (Some (AgentRow key clientId fitted (Some description) (Some url) None)) ∧
     ∀ message now,
       chat_post r.1 clientId id message now
         = (r.1,
            json_error 400 (if truthy message then "Agent is not active"
                            else "Message required"),
            None)) ∧
  (form_binds (edit_form name description url) = false →
   r = (s, json_error 500 "Database error")).
Proof.
  intros Hrow r. split.
  - intros Hb.
    destruct (found_agent _ _ _ _ Hrow) as (key & -> & Hk & Hc & Hin & Hid & Hcl).
    assert (Hfit : ∃ fitted, varchar 255 name = Some fitted).
    { unfold form_binds in Hb. simpl in Hb.
      apply andb_true_iff in Hb as [[[_ Hv]%andb_true_iff _]%andb_true_iff _].
      apply bool_decide_eq_true in Hv as [fitted Hv]. by exists fitted. }
    destruct Hfit as [fitted Hfit].
    exists key, fitted. split; [done|]. split; [done|].
    assert (Hr : r = (with_store
                        (Store (clients (store s))
                           (map (fun x => if bool_decide (a_id x = key ∧ a_client_id x = clientId)
                                          then apply_form fitted (Some description)
                                                 (Some url) None x
                                          else x)
                                (agents (store s)))
                           (messages (store s)) (messages_id_seq (store s))) s,
                      ok_message "Agent updated successfully")).
    { subst r.
      by apply (put_agent_own s clientId key (edit_form name description url)
                  agent name fitted). }
    assert (Hnew : getRow <$> select_agent (store r.1) (AsInteger key) clientId
                   = Some (Some (AgentRow key clientId fitted (Some description)
                                          (Some url) None))).
    { rewrite Hr. rewrite select_agent_in_range by done.
      rewrite select_agent_in_range in Hrow by done.
      simpl in *. f_equal. unfold getRow, agent_rows in *. simpl.
      rewrite filter_fmap_stable by (intros a; by case_bool_decide).
      destruct (filter _ (agents (store s))) as [|a0 rest] eqn:Hf; [done|].
      injection Hrow as ->.
      simpl. rewrite bool_decide_eq_true_2 by done.
      unfold apply_form. simpl. by rewrite Hid, Hcl. }
    split; [by rewrite Hr|]. split; [done|].
    intros message now. unfold chat_post.
    destruct (truthy message); simpl; [|done].
    destruct (select_agent (store r.1) (AsInteger key) clientId) as [rows|]; [|done].
    simpl in Hnew. injection Hnew as ->. done.
  - intros Hb. subst r. unfold put_agent_route.
    by rewrite update_agent_unbound.
Qed.

Lemma dashboard_edit_deactivates_witness :
  (chat_post s0 1 (AsInteger 10) hello noon).1.2 = message_sent 1 ∧
  (chat_post (put_agent_route s0 1 (AsInteger 10) (edit_form "Support" "" hook)).1
             1 (AsInteger 10) hello noon).1.2
    = json_error 400 "Agent is not active".
Proof.
  split; [vm_compute; reflexivity|].
  destruct (dashboard_edit_deactivates s0 1 (AsInteger 10) "Support" "" hook
              (AgentRow 10 1 "Support" None (Some hook) (Some true)))
    as [Hdone _]; [vm_compute; reflexivity|].
  destruct (Hdone eq_refl) as (key & fitted & _ & _ & _ & _ & Hchat).
  by rewrite (Hchat hello noon).
Defined.

(** A name of 300 letters does not fit: the edit is answered with 500 and
    the agent keeps its name and its flag. *)
Example overlong_name_is_500 :
  put_agent_route s0 1 (AsInteger 10)
    (edit_form (String.concat "" (replicate 300 "x")) "" hook)
    = (s0, json_error 500 "Database error").
Proof. vm_compute. reflexivity. Qed.

(** X11: the dashboard's toggle sends the whole agent back with the flag
    set to the negation of what the page showed, where an agent whose flag
    is [NULL] shows as inactive.  For an agent whose id belongs to one row
    only and whose stored texts bind again: after one toggle the flag is
    that negation; when the flag was [true] or [false], toggling twice
    puts the store back as it was (but for [updated_at], which is not
    carried here); when the flag was [NULL], as an edit leaves it, two
    toggles end on [false], not on [NULL]. *)
Theorem toggle_twice_restores s a :
  a ∈ agents (store s) →
  (∀ a', a' ∈ agents (store s) → a_id a' = a_id a →
         a_client_id a' = a_client_id a → a' = a) →
  in_int4 (a_id a) = true → in_int4 (a_client_id a) = true →
  form_binds (toggle_form a) = true →
  varchar 255 (a_name a) = Some (a_name a) →
  let s1 := (put_agent_route s (a_client_id a) (AsInteger (a_id a))
                             (toggle_form a)).1 in
  let s2 := (put_agent_route s1 (a_client_id a) (AsInteger (a_id a))
                             (toggle_form (toggled a))).1 in
  getRow <$> select_agent (store s1) (AsInteger (a_id a)) (a_client_id a)
    = Some (Some (toggled a)) ∧
  getRow <$> select_agent (store s2) (AsInteger (a_id a)) (a_client_id a)
    = Some (Some (toggled (toggled a))) ∧
  (∀ b, a_is_active a = Some b → store s2 = store s) ∧
  (a_is_active a = None →
   a_is_active (toggled (toggled a)) = Some false ∧ store s2 ≠ store s).
Proof.
  intros Hin Huniq Hk Hc Hb Hfit s1 s2.
  set (hit := fun x : agent_row => a_id x = a_id a ∧ a_client_id x = a_client_id a).
  assert (Hsel : ∀ (l : list agent_row) (row : agent_row),
             row ∈ l → hit row → (∀ a', a' ∈ l → hit a' → a' = row) →
             getRow (filter hit l) = Some row).
  { intros l row Ha Hrow Hu.
    assert (Hf : row ∈ filter hit l) by (by apply list_elem_of_filter).
    destruct (filter hit l) as [|x rest] eqn:Hfl; [by apply elem_of_nil in Hf|].
    simpl. f_equal. apply Hu.
    - assert (Hx : x ∈ filter hit l) by (rewrite Hfl; left).
      by apply list_elem_of_filter in Hx as [_ ?].
    - assert (Hx : x ∈ filter hit l) by (rewrite Hfl; left).
      by apply list_elem_of_filter in Hx as [? _]. }
  assert (Hmap : ∀ name desc url act,
             map (fun x => if bool_decide (hit x)
                           then apply_form name desc url act x else x)
                 (agents (store s))
             = map (fun x => if bool_decide (hit x)
                             then AgentRow (a_id a) (a_client_id a) name desc url act
                             else x)
                   (agents (store s))).
  { intros name desc url act. apply list_fmap_ext. intros i x Hx. simpl.
    case_bool_decide as Hh; [|done]. destruct Hh as [Hid Hcl].
    unfold apply_form. by rewrite Hid, Hcl. }
  (* the first toggle *)
  assert (Hs1 : s1 = with_store
                  (Store (clients (store s))
                     (map (fun x => if bool_decide (hit x) then toggled a else x)
                          (agents (store s)))
                     (messages (store s)) (messages_id_seq (store s))) s).
  { subst s1.
    rewrite (put_agent_own s (a_client_id a) (a_id a) (toggle_form a) a
               (a_name a) (a_name a)) by done.
    simpl. unfold with_store. f_equal. f_equal. apply Hmap. }
  assert (Hin1 : toggled a ∈ agents (store s1)).
  { rewrite Hs1. simpl. apply list_elem_of_fmap. exists a.
    split; [|done]. by rewrite bool_decide_eq_true_2. }
  assert (Huniq1 : ∀ a', a' ∈ agents (store s1) → hit a' → a' = toggled a).
  { rewrite Hs1. simpl. intros a' (x & -> & Hx)%list_elem_of_fmap Hh.
    case_bool_decide as Hhx; [done|]. by destruct Hhx. }
  assert (Hrow1 : getRow <$> select_agent (store s1) (AsInteger (a_id a))
                                          (a_client_id a)
                  = Some (Some (toggled a))).
  { rewrite select_agent_in_range by done. simpl. f_equal.
    apply (Hsel (agents (store s1)) (toggled a)); done. }
  split; [exact Hrow1|].
  (* the second toggle *)
  assert (Hs2 : s2 = with_store
                  (Store (clients (store s))
                     (map (fun x => if bool_decide (hit x) then toggled (toggled a)
                                    else x)
                          (agents (store s)))
                     (messages (store s)) (messages_id_seq (store s))) s).
  { subst s2.
    rewrite (put_agent_own s1 (a_client_id a) (a_id a) (toggle_form (toggled a))
               (toggled a) (a_name a) (a_name a)) by done.
    rewrite Hs1. simpl. unfold with_store. simpl. f_equal. f_equal.
    rewrite <- list_fmap_compose. apply list_fmap_ext. intros i x Hx. simpl.
    destruct (decide (hit x)) as [Hh | Hh].
    - rewrite (bool_decide_eq_true_2 (hit x)) by done.
      rewrite bool_decide_eq_true_2 by done. done.
    - rewrite (bool_decide_eq_false_2 (hit x)) by done.
      by rewrite bool_decide_eq_false_2 by done. }
  assert (Hin2 : toggled (toggled a) ∈ agents (store s2)).
  { rewrite Hs2. simpl. apply list_elem_of_fmap. exists a.
    split; [|done]. by rewrite bool_decide_eq_true_2. }
  assert (Huniq2 : ∀ a', a' ∈ agents (store s2) → hit a' → a' = toggled (toggled a)).
  { rewrite Hs2. simpl. intros a' (x & -> & Hx)%list_elem_of_fmap Hh.
    case_bool_decide as Hhx; [done|]. by destruct Hhx. }
  split.
  { rewrite select_agent_in_range by done. simpl. f_equal.
    apply (Hsel (agents (store s2)) (toggled (toggled a))); done. }
  split.
  - intros b Hflag. rewrite Hs2. simpl.
    destruct (store s) as [cl ag ms sq] eqn:Hst. simpl in *. f_equal.
    rewrite <- (list_fmap_id ag) at 2. apply list_fmap_ext.
    intros i x Hx. simpl. apply list_elem_of_lookup_2 in Hx.
    case_bool_decide as Hh; [|done]. destruct Hh as [Hid Hcl].
    rewrite (Huniq x Hx Hid Hcl).
    unfold toggled, is_active. simpl. rewrite Hflag. simpl.
    rewrite negb_involutive. destruct a. simpl in *. by rewrite Hflag.
  - intros Hflag. split.
    + unfold toggled, is_active. simpl. by rewrite Hflag.
    + intros Heq. apply (f_equal agents) in Heq. rewrite Hs2 in Heq. simpl in Heq.
      rewrite <- Heq in Hin. apply list_elem_of_fmap in Hin as (x & Hx & _).
      case_bool_decide as Hh.
      * apply (f_equal a_is_active) in Hx. simpl in Hx. congruence.
      * subst x. by destruct Hh.
Qed.

Lemma toggle_twice_restores_witness :
  getRow <$> select_agent
            (store (put_agent_route s0 1 (AsInteger 10)
                      (toggle_form (AgentRow 10 1 "Support" None (Some hook)
                                             (Some true)))).1)
            (AsInteger 10) 1
    = Some (Some (AgentRow 10 1 "Support" None (Some hook) (Some false))).
Proof.
  destruct (toggle_twice_restores s0
              (AgentRow 10 1 "Support" None (Some hook) (Some true)))
    as (Hone & _).
  - vm_compute. apply list_elem_of_here.
  - intros a' Ha' Hid Hc. simpl in Ha'.
    repeat (apply elem_of_cons in Ha' as [-> | Ha']; [done || discriminate|]).
    by apply elem_of_nil in Ha'.
  - reflexivity.
  - reflexivity.
  - reflexivity.
  - reflexivity.
  - exact Hone.
Defined.

(** An agent that an edit has left with a [NULL] flag: two toggles end on
    [false]. *)
Example toggles_after_an_edit :
  let s1 := (put_agent_route s0 1 (AsInteger 10) (edit_form "Support" "" hook)).1 in
  let a1 := AgentRow 10 1 "Support" (Some "") (Some hook) None in
  let s2 := (put_agent_route s1 1 (AsInteger 10) (toggle_form a1)).1 in
  let s3 := (put_agent_route s2 1 (AsInteger 10) (toggle_form (toggled a1))).1 in
  map a_is_active (agent_rows (store s1) 10 1) = [None] ∧
  map a_is_active (agent_rows (store s2) 10 1) = [Some true] ∧
  map a_is_active (agent_rows (store s3) 10 1) = [Some false].
Proof. repeat split; vm_compute; reflexivity. Qed.

Lemma no_agent_rows d key clientId :
  (¬ ∃ ag, ag ∈ agents d ∧ a_id ag = key ∧ a_client_id ag = clientId) →
  filter (fun a => a_id a = key ∧ a_client_id a = clientId) (agents d) = [].
Proof.
  intros Hno. apply filter_drops_all. intros ag Hag [Hid Hc]. apply Hno.
  by exists ag.
Qed.

Lemma cascade_agent_nothing d key clientId :
  (¬ ∃ ag, ag ∈ agents d ∧ a_id ag = key ∧ a_client_id ag = clientId) →
  cascade_agent d key clientId = (d, []).
Proof.
  intros Hno. unfold cascade_agent, deleted_agents.
  rewrite (no_agent_rows _ _ _ Hno). simpl.
  rewrite (filter_keeps_all (fun a => ¬ (a_id a = key ∧ a_client_id a = clientId))).
  2: { intros ag Hag [Hid Hc]. apply Hno. by exists ag. }
  rewrite (filter_keeps_all (fun r => m_agent_id r ∉ [])).
  2: { intros r _. apply not_elem_of_nil. }
  by destruct d.
Qed.

Lemma delete_agent_in_range d key clientId :
  in_int4 key = true → in_int4 clientId = true →
  delete_agent d (AsInteger key) clientId = Some (cascade_agent d key clientId).
Proof.
  intros Hk Hc. unfold delete_agent. rewrite (pg_int4_in_range _ Hk).
  unfold bind_int. by rewrite Hc.
Qed.

(** X15: a client cannot edit or delete an agent that is not its own (or
    does not exist): neither route ever answers 200, and the whole state,
    every table included, is exactly as before.  When the id in the URL
    reads as a 32-bit integer the answer is 404 "Agent not found" (for an
    edit: if the fields of the form bind); when it does not, the statement
    raises and the answer is 500. *)
Theorem foreign_agent_is_out_of_reach s clientId id form :
  (¬ ∃ ag, ag ∈ agents (store s) ∧ pg_int4 id = Some (a_id ag) ∧
           a_client_id ag = clientId) →
  (put_agent_route s clientId id form).1 = s ∧
  (delete_agent_route s clientId id).1 = s ∧
  status (put_agent_route s clientId id form).2 ≠ 200 ∧
  status (delete_agent_route s clientId id).2 ≠ 200 ∧
  (∀ key, id = AsInteger key → in_int4 key = true → in_int4 clientId = true →
     delete_agent_route s clientId id = (s, json_error 404 "Agent not found") ∧
     (form_binds form = true →
      put_agent_route s clientId id form = (s, json_error 404 "Agent not found"))) ∧
  (pg_int4 id = None →
     delete_agent_route s clientId id = (s, json_error 500 "Database error") ∧
     put_agent_route s clientId id form = (s, json_error 500 "Database error")).
Proof.
  intros Hno.
  assert (Hnone : ∀ key, pg_int4 id = Some key →
            ¬ ∃ ag, ag ∈ agents (store s) ∧ a_id ag = key ∧ a_client_id ag = clientId).
  { intros key Hk (ag & Hag & Hid & Hc). apply Hno. exists ag.
    by rewrite Hid. }
  assert (Hdel : ∀ key, id = AsInteger key → in_int4 key = true →
            in_int4 clientId = true →
            delete_agent_route s clientId id = (s, json_error 404 "Agent not found")).
  { intros key -> Hk Hc. unfold delete_agent_route.
    rewrite delete_agent_in_range by done.
    rewrite cascade_agent_nothing by (apply Hnone; by apply pg_int4_in_range).
    by rewrite with_store_same. }
  assert (Hput : ∀ key, id = AsInteger key → in_int4 key = true →
            in_int4 clientId = true → form_binds form = true →
            put_agent_route s clientId id form = (s, json_error 404 "Agent not found")).
  { intros key -> Hk Hc Hb. unfold put_agent_route.
    destruct (update_agent_bound (store s) form key clientId Hk Hc Hb)
      as (fitted & _ & ->).
    rewrite no_agent_rows by (apply Hnone; by apply pg_int4_in_range).
    by rewrite with_store_same. }
  assert (Hbad : pg_int4 id = None →
            delete_agent_route s clientId id = (s, json_error 500 "Database error") ∧
            put_agent_route s clientId id form = (s, json_error 500 "Database error")).
  { intros Hk. split.
    - unfold delete_agent_route, delete_agent. by rewrite Hk.
    - unfold put_agent_route. by rewrite update_agent_bad_ids by by left. }
  assert (Hputs : (put_agent_route s clientId id form).1 = s ∧
                  status (put_agent_route s clientId id form).2 ≠ 200).
  { destruct (pg_int4 id) as [key|] eqn:Hk;
      [|by destruct (Hbad eq_refl) as [_ ->]].
    apply pg_int4_Some in Hk as [Hid Hk].
    destruct (in_int4 clientId) eqn:Hc.
    - destruct (form_binds form) eqn:Hb.
      + by rewrite (Hput key Hid Hk eq_refl eq_refl).
      + unfold put_agent_route. by rewrite update_agent_unbound.
    - unfold put_agent_route. by rewrite update_agent_bad_ids by by right. }
  assert (Hdels : (delete_agent_route s clientId id).1 = s ∧
                  status (delete_agent_route s clientId id).2 ≠ 200).
  { destruct (pg_int4 id) as [key|] eqn:Hk;
      [|by destruct (Hbad eq_refl) as [-> _]].
    apply pg_int4_Some in Hk as [Hid Hk].
    destruct (in_int4 clientId) eqn:Hc.
    - by rewrite (Hdel key Hid Hk eq_refl).
    - unfold delete_agent_route, delete_agent, bind_int. rewrite Hc.
      by destruct (pg_int4 id). }
  destruct Hputs as [Hp1 Hp2], Hdels as [Hd1 Hd2].
  do 4 (split; [done|]). split; [|exact Hbad].
  intros key Hid Hk Hc. split; [by eapply Hdel|]. intros Hb. by eapply Hput.
Qed.

Lemma foreign_agent_is_out_of_reach_witness :
  delete_agent_route s_two 2 (AsInteger 11)
    = (s_two, json_error 404 "Agent not found") ∧
  put_agent_route s_two 2 (AsInteger 11) (edit_form "Mine now" "" "")
    = (s_two, json_error 404 "Agent not found").
Proof.
  destruct (foreign_agent_is_out_of_reach s_two 2 (AsInteger 11)
              (edit_form "Mine now" "" ""))
    as (_ & _ & _ & _ & Hfound & _).
  - intros (ag & Hin & Hid & Hc). vm_compute in Hin.
    repeat (apply elem_of_cons in Hin as [-> | Hin]; [discriminate|]).
    by apply elem_of_nil in Hin.
  - destruct (Hfound 11 eq_refl eq_refl eq_refl) as [Hdel Hput].
    split; [exact Hdel | by apply Hput].
Defined.

(** ** The client-level webhook *)

Lemma has_client_same_ids (d d' : db) :
  map c_id (clients d') = map c_id (clients d) →
  ∀ x, has_client d' x = has_client d x.
Proof.
  intros Hids x. unfold has_client. apply bool_decide_ext.
  rewrite !Exists_exists. split.
  - intros (c & Hc & Hid).
    assert (Hx : x ∈ map c_id (clients d)).
    { rewrite <- Hids, <- Hid. by apply list_elem_of_fmap_2. }
    apply list_elem_of_fmap in Hx as (c0 & -> & Hc0). by exists c0.
  - intros (c & Hc & Hid).
    assert (Hx : x ∈ map c_id (clients d')).
    { rewrite Hids, <- Hid. by apply list_elem_of_fmap_2. }
    apply list_elem_of_fmap in Hx as (c0 & -> & Hc0). by exists c0.
Qed.

(** Reading the statement backwards. *)
Lemma update_client_webhook_inv d url id d' ret :
  update_client_webhook d url id = Some (d', ret) →
  ∃ key,
    pg_int4 id = Some key ∧ has_nul url = false ∧
    clients d' =
      map (fun c => if bool_decide (c_id c = key)
                    then ClientRow (c_id c) (c_username c) (c_email c)
                                   (c_company_name c) (Some url)
                    else c) (clients d) ∧
    agents d' = agents d ∧ messages d' = messages d ∧
    messages_id_seq d' = messages_id_seq d.
Proof.
  unfold update_client_webhook. simpl.
  destruct (has_nul url); [done|]. simpl.
  destruct (pg_int4 id) as [key|]; [|done]. simpl.
  intros [= <- <-]. by exists key.
Qed.

(** The store after the route: the old one, or the old one with the
    webhook column of [clients] rewritten. *)
Lemma put_client_webhook_store s id w :
  agents (store (put_client_webhook_route s id w).1) = agents (store s) ∧
  messages (store (put_client_webhook_route s id w).1) = messages (store s) ∧
  messages_id_seq (store (put_client_webhook_route s id w).1)
    = messages_id_seq (store s) ∧
  map c_id (clients (store (put_client_webhook_route s id w).1))
    = map c_id (clients (store s)) ∧
  rooms (put_client_webhook_route s id w).1 = rooms s ∧
  sent (put_client_webhook_route s id w).1 = sent s ∧
  trace (put_client_webhook_route s id w).1 = trace s.
Proof.
  unfold put_client_webhook_route.
  destruct w as [url|]; [|done].
  destruct (String.eqb url ""); [done|].
  destruct (update_client_webhook (store s) url id) as [[d ret]|] eqn:Hupd; [|done].
  apply update_client_webhook_inv in Hupd as (key & _ & _ & Hcl & Hag & Hms & Hseq).
  assert (Hids : map c_id (clients d) = map c_id (clients (store s))).
  { rewrite Hcl, <- list_fmap_compose. apply list_fmap_ext.
    intros i c _. simpl. by case_bool_decide. }
  destruct ret; simpl; by repeat split.
Qed.

Lemma chat_post_ignores_client_columns s s' clientId agentId message now :
  agents (store s') = agents (store s) →
  messages (store s') = messages (store s) →
  messages_id_seq (store s') = messages_id_seq (store s) →
  map c_id (clients (store s')) = map c_id (clients (store s)) →
  rooms s' = rooms s → sent s' = sent s → trace s' = trace s →
  let r := chat_post s clientId agentId message now in
  let r' := chat_post s' clientId agentId message now in
  r'.1.2 = r.1.2 ∧ r'.2 = r.2 ∧
  messages (store r'.1.1) = messages (store r.1.1) ∧
  agents (store r'.1.1) = agents (store r.1.1) ∧
  clients (store r'.1.1) = clients (store s') ∧
  sent r'.1.1 = sent r.1.1 ∧ trace r'.1.1 = trace r.1.1.
Proof.
  intros Hag Hms Hseq Hids Hrooms Hsent Htrace.
  pose proof (has_client_same_ids (store s) (store s') Hids) as Hhc.
  destruct s as [[cl ag ms sq] rm st tr], s' as [[cl' ag' ms' sq'] rm' st' tr'].
  simpl in *. subst ag' ms' sq' rm' st' tr'.
  unfold chat_post, select_agent, agent_rows, insert_message, advance_seq,
    has_agent in *. simpl.
  destruct (truthy message); simpl; [|done].
  destruct (pg_int4 agentId) as [key|]; simpl; [|done].
  destruct (bind_int clientId) as [c|]; simpl; [|done].
  destruct (getRow _) as [agent|]; [|done].
  destruct (is_active agent); simpl; [|done].
  destruct (pg_param message) as [[text|]|]; simpl;
    destruct (in_int4 sq); simpl; try done.
  rewrite Hhc.
  destruct (has_client _ c && _); [|done].
  destruct (webhook_of agent); done.
Qed.

(** X12: the webhook stored on the client is never read by the relay.
    Whatever [PUT /api/clients/:id/webhook] is given, a chat submission
    made afterwards gets the same HTTP response, leaves the same call in
    flight (same URL, taken from the agent), and writes the same rows,
    packets and effects as it would have without the change. *)
Theorem client_webhook_is_never_read s id w clientId agentId message now :
  let s' := (put_client_webhook_route s id w).1 in
  let r := chat_post s clientId agentId message now in
  let r' := chat_post s' clientId agentId message now in
  r'.1.2 = r.1.2 ∧ r'.2 = r.2 ∧
  messages (store r'.1.1) = messages (store r.1.1) ∧
  sent r'.1.1 = sent r.1.1 ∧ trace r'.1.1 = trace r.1.1.
Proof.
  intros s' r r'.
  destruct (put_client_webhook_store s id w)
    as (Hag & Hms & Hseq & Hids & Hrooms & Hsent & Htrace).
  destruct (chat_post_ignores_client_columns s s' clientId agentId message now
              Hag Hms Hseq Hids Hrooms Hsent Htrace)
    as (? & ? & ? & _ & _ & ? & ?).
  done.
Qed.

(** X13: [PUT /api/clients/:id/webhook] can replace a client's webhook but
    never clear it: a missing or empty URL is refused with 400 and nothing
    changes; otherwise every client row afterwards is an old row, either
    untouched or (if it has this id) with a non-empty URL in its webhook
    column, and never another client's row. *)
Theorem client_webhook_is_never_cleared s id w :
  ((w = None ∨ w = Some "") →
   put_client_webhook_route s id w = (s, json_error 400 "Webhook URL required")) ∧
  ∀ c', c' ∈ clients (store (put_client_webhook_route s id w).1) →
    c' ∈ clients (store s) ∨
    ∃ c url,
      c ∈ clients (store s) ∧ pg_int4 id = Some (c_id c) ∧
      w = Some url ∧ url ≠ "" ∧
      c' = ClientRow (c_id c) (c_username c) (c_email c) (c_company_name c) (Some url).
Proof.
  split.
  - by intros [-> | ->].
  - unfold put_client_webhook_route. intros c'.
    destruct w as [url|]; [|by left].
    destruct (String.eqb_spec url "") as [-> | Hne]; [by left|].
    destruct (update_client_webhook (store s) url id) as [[d ret]|] eqn:Hupd;
      [|by left].
    apply update_client_webhook_inv in Hupd as (key & Hk & _ & Hd & _).
    intros Hc'.
    assert (Hin : c' ∈ clients d) by by destruct ret.
    rewrite Hd in Hin. apply list_elem_of_fmap in Hin as (c & -> & Hc).
    case_bool_decide as Hhit; [right | by left].
    exists c, url. by rewrite Hhit.
Qed.

Lemma client_webhook_is_never_cleared_witness :
  put_client_webhook_route s0 (AsInteger 1) (Some "")
    = (s0, json_error 400 "Webhook URL required").
Proof.
  destruct (client_webhook_is_never_cleared s0 (AsInteger 1) (Some ""))
    as [Hrefused _].
  apply Hrefused. by right.
Defined.

(** ** Creating an agent, then writing to it *)

Lemma select_new_agent d id clientId name description url d' row :
  insert_agent d id clientId name description url = Some (d', row) →
  ∃ name',
    varchar 255 name = Some name' ∧ has_nul name = false ∧
    in_int4 id = true ∧ in_int4 clientId = true ∧
    row = AgentRow id clientId name' description url (Some true) ∧
    clients d' = clients d ∧ agents d' = agents d ++ [row] ∧
    messages d' = messages d ∧ messages_id_seq d' = messages_id_seq d ∧
    has_client d clientId = true ∧
    getRow <$> select_agent d' (AsInteger id) clientId = Some (Some row).
Proof.
  unfold insert_agent.
  destruct (bind_int clientId) as [c|] eqn:Hc; [|done]. simpl.
  apply bind_int_Some in Hc as [Hc ->].
  destruct (has_nul name) eqn:Hn; [done|]. simpl.
  destruct (text_param description) as [description'|] eqn:Hd; [|done]. simpl.
  destruct (text_param url) as [url'|] eqn:Hu; [|done]. simpl.
  destruct (varchar 255 name) as [name'|] eqn:Hv; [|done]. simpl.
  destruct (bind_int id) as [key|] eqn:Hk; [|done]. simpl.
  apply bind_int_Some in Hk as [Hk ->].
  destruct (has_client d clientId) eqn:Hhc; [|done].
  destruct (has_agent d id) eqn:Ha; [done|].
  simpl. intros [= <- <-].
  assert (description' = description) as ->.
  { destruct description as [x|]; simpl in Hd; [|congruence].
    destruct (has_nul x); congruence. }
  assert (url' = url) as ->.
  { destruct url as [x|]; simpl in Hu; [|congruence].
    destruct (has_nul x); congruence. }
  exists name'. do 10 (split; [done|]).
  rewrite select_agent_in_range by done. simpl. f_equal.
  unfold getRow, agent_rows. simpl. rewrite filter_app.
  rewrite filter_drops_all.
  - simpl. rewrite filter_cons, decide_True by done. done.
  - intros ag Hag [Hid _].
    assert (Hex : has_agent d id = true).
    { unfold has_agent. apply bool_decide_eq_true_2, Exists_exists. by exists ag. }
    congruence.
Qed.

(** X14: an agent created through [POST /api/agents] belongs to the caller
    named by the token, whatever the body says, and is active from the
    start; the foreign keys survive.  The caller's first message to it,
    if the store takes its text (no U+0000) and the id sequence is not
    used up, is accepted at once: with an empty or missing webhook it is
    answered by the "not configured" placeholder, otherwise a call to that
    webhook is left in flight. *)
Theorem created_agent_takes_messages s nextval clientId form s1 row :
  post_agent_route s nextval clientId form = (s1, Created row) →
  (∃ name,
     f_name form = Some name ∧ name ≠ "" ∧ varchar 255 name = Some (a_name row)) ∧
  row = AgentRow nextval clientId (a_name row) (f_description form)
                 (f_webhook_url form) (Some true) ∧
  agents (store s1) = agents (store s) ++ [row] ∧
  (fk_ok (store s) → fk_ok (store s1)) ∧
  ∀ message now,
    truthy message = true →
    storable message →
    in_int4 (messages_id_seq (store s1)) = true →
    ∃ s2 messageId call,
      chat_post s1 clientId (AsInteger nextval) message now
        = (s2, message_sent messageId, call) ∧
      match webhook_of row with
      | None => call = None ∧ persisted s2 messageId (pg_text no_webhook_text)
      | Some url => ∃ p, call = Some p ∧ p_url p = url
      end.
Proof.
  unfold post_agent_route.
  destruct (f_name form) as [name|] eqn:Hname; [|done].
  destruct (String.eqb_spec name "") as [-> | Hne]; [done|].
  destruct (insert_agent (store s) nextval clientId name (f_description form)
                         (f_webhook_url form))
    as [[d row']|] eqn:Hins; [|done].
  intros [= <- <-].
  apply select_new_agent in Hins
    as (name' & Hv & Hn & Hk & Hc & -> & Hcl & Hag & Hms & Hseq & Hhc & Hrow).
  simpl. split; [by exists name|]. do 2 (split; [done|]). split.
  - intros [Hfa Hfm]. split; simpl.
    + rewrite Hag. apply Forall_app. split.
      * eapply Forall_impl; [exact Hfa|]. intros a Ha.
        unfold has_client in *. by rewrite Hcl.
      * repeat constructor. simpl. unfold has_client in *. rewrite Hcl.
        by apply Is_true_true.
    + rewrite Hms. eapply Forall_impl; [exact Hfm|]. intros r [Hc' Ha]. split.
      * unfold has_client in *. by rewrite Hcl.
      * apply has_agent_iff in Ha as (ag & Hin & Hid). apply has_agent_iff.
        exists ag. split; [|done]. rewrite Hag. apply elem_of_app. by left.
  - intros message now Hm Hst Hleft.
    set (row := AgentRow nextval clientId name' (f_description form)
                         (f_webhook_url form) (Some true)) in *.
    assert (Hc' : has_client d clientId = true).
    { unfold has_client in *. by rewrite Hcl. }
    assert (Ha' : has_agent d nextval = true).
    { unfold has_agent. apply bool_decide_eq_true_2, Exists_exists.
      exists row. split; [|done]. rewrite Hag. apply elem_of_app. right. left. }
    pose proof (insert_message_accepts d clientId nextval message (db_now now)
                  Hc Hk Hst Hleft Hc' Ha') as Hins.
    unfold chat_post. simpl store. rewrite Hm. simpl negb. cbv iota.
    destruct (select_agent d (AsInteger nextval) clientId) as [rows|]; [|done].
    simpl in Hrow. injection Hrow as ->. simpl negb. cbv iota.
    rewrite Hins. cbv zeta.
    destruct (webhook_of row) as [url|] eqn:Hurl.
    + do 3 eexists. split; [reflexivity|]. by eexists.
    + rewrite resolve_storable by apply no_webhook_text_storable.
      do 3 eexists. split; [reflexivity|]. split; [done|].
      apply resolved_persisted.
      exists (MessageRow (messages_id_seq d) clientId nextval (pg_text message)
                         None (db_now now)).
      split; [|reflexivity]. simpl. apply elem_of_app. right. left.
Qed.

Lemma created_agent_takes_messages_witness :
  ∃ s1 row s2 messageId,
    post_agent_route s0 21 2 (AgentForm (Some "Billing") None (Some "") None)
      = (s1, Created row) ∧
    chat_post s1 2 (AsInteger 21) hello noon = (s2, message_sent messageId, None) ∧
    persisted s2 messageId (pg_text no_webhook_text).
Proof.
  destruct (post_agent_route s0 21 2 (AgentForm (Some "Billing") None (Some "") None))
    as [s1 res] eqn:Hpost.
  assert (Hres : res = Created (AgentRow 21 2 "Billing" None (Some "") (Some true))).
  { vm_compute in Hpost. by injection Hpost as _ <-. }
  subst res.
  destruct (created_agent_takes_messages s0 21 2 _ s1 _ Hpost)
    as (_ & _ & _ & _ & Hchat).
  destruct (Hchat hello noon eq_refl eq_refl) as (s2 & mid & call & Heq & Hcase).
  { vm_compute in Hpost. injection Hpost as <-. reflexivity. }
  simpl in Hcase. destruct Hcase as [-> Hp].
  by exists s1, (AgentRow 21 2 "Billing" None (Some "") (Some true)), s2, mid.
Defined.

(** ** Who is sent what *)

Lemma resolved_received_outside s clientId agentId messageId text k :
  k ∉ members s (client_room (JNum clientId)) →
  received (resolved s clientId agentId messageId text) k = received s k.
Proof.
  intros Hout. unfold received. rewrite resolved_sent, filter_app.
  rewrite (filter_drops_all _ (map _ _)); [by rewrite app_nil_r|].
  intros [k' ev] Hin Heq. simpl in Heq. subst k'.
  apply list_elem_of_fmap in Hin as (k' & [= <- _] & Hk').
  by apply elem_of_elements in Hk'.
Qed.

Lemma chat_post_received_outside s clientId agentId message now k :
  k ∉ members s (client_room (JNum clientId)) →
  received (chat_post s clientId agentId message now).1.1 k = received s k.
Proof.
  intros Hout.
  destruct (chat_post s clientId agentId message now) as [[s1 resp] call] eqn:H.
  chat_cases H; cbn [fst]; try done.
  by rewrite resolved_received_outside.
Qed.

Lemma client_room_inj c c' :
  client_room (JNum c') = client_room (JNum c) → c' = c.
Proof.
  unfold client_room. simpl to_js_string. intros Heq.
  apply (inj (String.app "client_")) in Heq. by apply (inj pretty) in Heq.
Qed.

(** X17: an [agent_response] goes to the sockets in the room of the
    message's client and to no other: a socket outside that room is sent
    nothing by that client's submissions or by the settlement of its
    calls.  Rooms of different client ids never coincide. *)
Theorem push_reaches_room_only s clientId k :
  k ∉ members s (client_room (JNum clientId)) →
  (∀ agentId message now,
      received (chat_post s clientId agentId message now).1.1 k = received s k) ∧
  (∀ p o, p_clientId p = clientId →
          received (webhook_settle s p o) k = received s k) ∧
  (∀ c', client_room (JNum c') = client_room (JNum clientId) → c' = clientId).
Proof.
  intros Hout. split; [|split].
  - intros agentId message now. by apply chat_post_received_outside.
  - intros p o <-. rewrite webhook_settle_resolved.
    by apply resolved_received_outside.
  - intros c'. apply client_room_inj.
Qed.

Lemma push_reaches_room_only_witness :
  received (webhook_settle (join_client_room s_sent 8%nat (JNum 2)) call1
                           (Fulfilled hi_there)) 8%nat = [] ∧
  received (webhook_settle (join_client_room s_sent 8%nat (JNum 2)) call1
                           (Fulfilled hi_there)) 7%nat
    = [AgentResponse 1 (AsInteger 10) (JStr "hi there")].
Proof.
  split; [|vm_compute; reflexivity].
  destruct (push_reaches_room_only (join_client_room s_sent 8%nat (JNum 2)) 1 8%nat)
    as (_ & Hsettle & _).
  - vm_compute. intros Hin. discriminate Hin.
  - by rewrite (Hsettle call1 (Fulfilled hi_there) eq_refl).
Defined.

Lemma step_stays_out s a k :
  never_joins k [a] = true →
  (∀ room, k ∉ members s room) →
  (∀ room, k ∉ members (step s a) room) ∧ received (step s a) k = received s k.
Proof.
  intros Hnj Hout. destruct a; simpl.
  - split.
    + intros room. by rewrite (members_rooms s _ room (chat_post_rooms s _ _ _ _)).
    + by apply chat_post_received_outside.
  - rewrite webhook_settle_resolved. split; [done|].
    by apply resolved_received_outside.
  - split; [|done]. intros room. unfold join_client_room.
    rewrite members_join. simpl in Hnj. rewrite andb_true_r in Hnj.
    apply negb_true_iff, Nat.eqb_neq in Hnj.
    case_decide; [|done]. specialize (Hout (client_room clientId)).
    rewrite elem_of_union, elem_of_singleton. by intros [? | ?].
  - split; [|done]. intros room. rewrite members_disconnect.
    specialize (Hout room). rewrite elem_of_difference. by intros [? _].
  - split.
    + intros room. by rewrite (members_rooms s _ room (delete_client_route_rooms s _)).
    + unfold received. by rewrite delete_client_route_sent.
  - split.
    + intros room. by rewrite (members_rooms s _ room (delete_agent_route_rooms s _ _)).
    + unfold received. by rewrite delete_agent_route_sent.
Qed.

(** X16: once a socket has disconnected it is in no room, and as long as
    it does not join again nothing more is sent to it, whatever the other
    sockets, clients and webhooks do. *)
Theorem disconnected_socket_gets_nothing s k acts :
  never_joins k acts = true →
  (∀ room, k ∉ members (run (disconnect s k) acts) room) ∧
  received (run (disconnect s k) acts) k = received s k.
Proof.
  intros Hnj.
  assert (Hgen : ∀ acts s', never_joins k acts = true →
             (∀ room, k ∉ members s' room) →
             (∀ room, k ∉ members (run s' acts) room) ∧
             received (run s' acts) k = received s' k).
  { clear. induction acts as [|a acts IH]; intros s' Hnj Hout; simpl; [done|].
    simpl in Hnj. apply andb_true_iff in Hnj as [Ha Hrest].
    destruct (step_stays_out s' a k) as [Hout' Hrec']; [simpl; by rewrite Ha | done |].
    destruct (IH (step s' a) Hrest Hout') as [Hout'' Hrec''].
    split; [done|]. by rewrite Hrec''. }
  apply (Hgen acts (disconnect s k) Hnj).
  intros room. rewrite members_disconnect, elem_of_difference, elem_of_singleton.
  by intros [_ ?].
Qed.

Lemma disconnected_socket_gets_nothing_witness :
  received (run (disconnect s_room 7%nat)
                [AChat 1 (AsInteger 11) hello noon; AJoin 9%nat (JNum 1);
                 AChat 1 (AsInteger 11) hello noon])
           7%nat = [] ∧
  received (run s_room
                [AChat 1 (AsInteger 11) hello noon; AJoin 9%nat (JNum 1);
                 AChat 1 (AsInteger 11) hello noon])
           7%nat
    = [AgentResponse 1 (AsInteger 11) no_webhook_text;
       AgentResponse 2 (AsInteger 11) no_webhook_text].
Proof.
  split; [|vm_compute; reflexivity].
  destruct (disconnected_socket_gets_nothing s_room 7%nat
              [AChat 1 (AsInteger 11) hello noon; AJoin 9%nat (JNum 1);
               AChat 1 (AsInteger 11) hello noon])
    as [_ Hrec]; [reflexivity|].
  by rewrite Hrec.
Defined.

(** ** The chat page's list *)

(** X18: on the chat page the order of the two callbacks matters.  If the
    [agent_response] for a message arrives before [sendMessage] has put
    the message in the list, the event changes nothing, and the message,
    once added, keeps an empty response and stays on the spinner.  In the
    other order the response is shown. *)
Theorem early_event_is_lost prev data messageText now :
  (∀ msg, msg ∈ prev → ui_id msg ≠ ev_messageId data) →
  on_agent_response prev data = prev ∧
  on_message_sent (on_agent_response prev data) (ev_messageId data) messageText now
    = prev ++ [UiMessage (ev_messageId data) messageText (JStr "") now] ∧
  shows_spinner (UiMessage (ev_messageId data) messageText (JStr "") now) = true ∧
  on_agent_response (on_message_sent prev (ev_messageId data) messageText now) data
    = prev ++ [UiMessage (ev_messageId data) messageText (ev_response data) now].
Proof.
  intros Hnew.
  assert (Hsame : on_agent_response prev data = prev).
  { unfold on_agent_response.
    apply (map_untouched (fun msg => ui_id msg = ev_messageId data)). exact Hnew. }
  split; [done|]. split; [by rewrite Hsame|]. split; [done|].
  unfold on_message_sent, on_agent_response in *.
  rewrite map_app, Hsame. simpl. by rewrite bool_decide_eq_true_2.
Qed.

Lemma early_event_is_lost_witness :
  on_message_sent
    (on_agent_response [] (AgentResponse 1 (AsInteger 11) no_webhook_text))
    1 "hello" "12:00"
    = [UiMessage 1 "hello" (JStr "") "12:00"] ∧
  on_agent_response
    (on_message_sent [] 1 "hello" "12:00")
    (AgentResponse 1 (AsInteger 11) no_webhook_text)
    = [UiMessage 1 "hello" no_webhook_text "12:00"].
Proof.
  destruct (early_event_is_lost [] (AgentResponse 1 (AsInteger 11) no_webhook_text)
              "hello" "12:00")
    as (_ & Hlost & _ & Hshown).
  - intros msg Hmsg. by apply elem_of_nil in Hmsg.
  - split; [exact Hlost | exact Hshown].
Defined.

(** X19: an [agent_response] touches only the entries whose id is the
    event's [messageId], whatever agent the event names: the list keeps its
    length, ids, texts and order; the matching entries take the event's
    response; a later event for the same id replaces the earlier one, and
    the same event twice is the same as once.  With a truthy response the
    spinner of the matching entries is gone. *)
Theorem event_updates_only_its_message prev data :
  map ui_id (on_agent_response prev data) = map ui_id prev ∧
  map ui_text (on_agent_response prev data) = map ui_text prev ∧
  (∀ msg, msg ∈ prev → ui_id msg ≠ ev_messageId data →
          msg ∈ on_agent_response prev data) ∧
  (∀ msg, msg ∈ on_agent_response prev data → ui_id msg = ev_messageId data →
          ui_response msg = ev_response data ∧
          (truthy (ev_response data) = true → shows_spinner msg = false)) ∧
  (∀ later, ev_messageId later = ev_messageId data →
            on_agent_response (on_agent_response prev data) later
            = on_agent_response prev later).
Proof.
  unfold on_agent_response. split; [|split; [|split; [|split]]].
  - rewrite <- list_fmap_compose. apply list_fmap_ext.
    intros i msg _. simpl. by case_bool_decide.
  - rewrite <- list_fmap_compose. apply list_fmap_ext.
    intros i msg _. simpl. by case_bool_decide.
  - intros msg Hin Hid. apply list_elem_of_fmap. exists msg.
    split; [|done]. by rewrite bool_decide_eq_false_2.
  - intros msg Hin Hid. apply list_elem_of_fmap in Hin as (m0 & -> & _).
    case_bool_decide as Hm; simpl in *; [|done].
    split; [done|]. intros Ht. unfold shows_spinner. simpl. by rewrite Ht.
  - intros later Hlater. rewrite <- list_fmap_compose. apply list_fmap_ext.
    intros i msg _. simpl. rewrite Hlater.
    destruct (decide (ui_id msg = ev_messageId data)) as [Hm | Hm].
    + rewrite !(bool_decide_eq_true_2 (ui_id msg = ev_messageId data)) by done.
      simpl. by rewrite ?bool_decide_eq_true_2 by done.
    + rewrite !(bool_decide_eq_false_2 (ui_id msg = ev_messageId data)) by done.
      by rewrite ?bool_decide_eq_false_2 by done.
Qed.

Lemma event_updates_only_its_message_witness :
  on_agent_response
    (on_agent_response [UiMessage 1 "hello" (JStr "") "12:00";
                        UiMessage 2 "again" (JStr "") "12:01"]
                       (AgentResponse 2 (AsInteger 10) (JStr "first")))
    (AgentResponse 2 (AsInteger 10) (JStr "second"))
  = [UiMessage 1 "hello" (JStr "") "12:00";
     UiMessage 2 "again" (JStr "second") "12:01"].
Proof.
  destruct (event_updates_only_its_message
              [UiMessage 1 "hello" (JStr "") "12:00";
               UiMessage 2 "again" (JStr "") "12:01"]
              (AgentResponse 2 (AsInteger 10) (JStr "first")))
    as (_ & _ & _ & _ & Hlast).
  by rewrite (Hlast (AgentResponse 2 (AsInteger 10) (JStr "second")) eq_refl).
Defined.

(** ** Seeding the administrator *)

(** X20: the seeding step of [initDatabase] creates the ['admin'] row only
    when there is none, and removes nothing.  If a row with that username
    exists the table is left exactly as it is, so a restart with another
    [ADMIN_PASSWORD] does not change the stored password; and after one
    successful run every further run, with any password and any salt,
    changes nothing. *)
Theorem seed_admin_is_idempotent hash env t t1 :
  seed_admin hash env t = Some t1 →
  (∃ r, r ∈ admin_rows t1 ∧ ad_username r = "admin") ∧
  (∀ r, r ∈ admin_rows t → r ∈ admin_rows t1) ∧
  ((∃ r, r ∈ admin_rows t ∧ ad_username r = "admin") → t1 = t) ∧
  (∀ hash' env', seed_admin hash' env' t1 = Some t1).
Proof.
  unfold seed_admin at 1.
  destruct (filter (fun r => ad_username r = "admin") (admin_rows t))
    as [|r0 rest] eqn:Hf.
  - case_bool_decide; [done|]. intros [= <-]. simpl.
    split; [|split; [|split]].
    + eexists. split; [apply elem_of_app; right; left | done].
    + intros r Hr. apply elem_of_app. by left.
    + intros (r & Hr & Hname).
      assert (Hin : r ∈ filter (fun r => ad_username r = "admin") (admin_rows t))
        by by apply list_elem_of_filter.
      rewrite Hf in Hin. by apply elem_of_nil in Hin.
    + intros hash' env'. unfold seed_admin. simpl.
      rewrite filter_app, Hf. reflexivity.
  - intros [= <-].
    assert (Hr0 : r0 ∈ filter (fun r => ad_username r = "admin") (admin_rows t))
      by (rewrite Hf; left).
    apply list_elem_of_filter in Hr0 as [Hname Hin].
    split; [|split; [|split]]; [by exists r0 | done | done |].
    intros hash' env'. unfold seed_admin. by rewrite Hf.
Qed.

Lemma seed_admin_is_idempotent_witness :
  seed_admin (fun pw => "salt2$" +:+ pw) (Some "changed")
    (AdminsTable [AdminRow 1 "admin" "admin@rpl.com" "salt1$admin123"] 2)
  = Some (AdminsTable [AdminRow 1 "admin" "admin@rpl.com" "salt1$admin123"] 2).
Proof.
  destruct (seed_admin_is_idempotent (fun pw => "salt1$" +:+ pw) None
              (AdminsTable [] 1)
              (AdminsTable [AdminRow 1 "admin" "admin@rpl.com" "salt1$admin123"] 2))
    as (_ & _ & _ & Hagain); [vm_compute; reflexivity|].
  apply Hagain.
Defined.
